(** * The 4AI daily-quest bot: retrying requests, re-login and chain submission

    A shallow embedding of the bot's client class [FourBSCClient], of its
    cooldown store [WalletDB] and of the account loop of [main].

    The JavaScript is asynchronous but strictly sequential: every call is
    awaited before the next statement runs.  An [async] method is therefore
    a function from the client's state to the value it returns (or the
    error it throws), the new state, and the list of effects it performed,
    in order.  Everything outside the process (the HTTP server, the chain
    RPC node, the ethers encoder, [Math.random], [Date.now]) is a field of
    a [World] record, consulted through counters kept in the state.

    Console output ([log], the banner, the summary table rendering) has no
    influence on control flow and is not modelled. *)

From Stdlib Require Import ZArith String Ascii List Lia Bool.
From stdpp Require Import base strings pretty gmap list.
Import ListNotations.

Open Scope string_scope.
Open Scope list_scope.
Open Scope Z_scope.
Set Warnings "-register-all".

(** ** JavaScript values the code inspects *)

(** A thrown value.  Every error the code can catch is an [Error] object
    made by axios, by ethers, by [runWithTimeout] or by the code itself:
    it has a string [message], may carry a [code], and an axios error may
    carry the HTTP status of [error.response]. *)
Record JsError := mkJsError {
  err_code : option string;
  err_message : string;
  err_status : option Z
}.

(** [new Error(msg)] *)
Definition Error (msg : string) : JsError := mkJsError None msg None.

(** Reading a property of [undefined] or [null]. *)
Definition TypeError : JsError :=
  Error "Cannot read properties of undefined".

Inductive Res (A : Type) : Type :=
| Ok (a : A)
| Throw (e : JsError).
Arguments Ok {A} a.
Arguments Throw {A} e.

(** A promise as seen by the code that awaits it: it settles after some
    milliseconds, fulfilled or rejected, or it never settles. *)
Inductive Promise (A : Type) : Type :=
| Settles (after : Z) (r : Res A)
| Pending.
Arguments Settles {A} after r.
Arguments Pending {A}.

(** [str.includes(sub)] *)
Fixpoint includes (s sub : string) : bool :=
  String.prefix sub s ||
  match s with
  | EmptyString => false
  | String _ s' => includes s' sub
  end.

(** [str.slice(n)] for [0 <= n] *)
Fixpoint slice (n : nat) (s : string) : string :=
  match n, s with
  | O, _ => s
  | S n', String _ s' => slice n' s'
  | S _, EmptyString => EmptyString
  end.

Definition lower_ascii (c : ascii) : ascii :=
  let n := nat_of_ascii c in
  if ((65 <=? n) && (n <=? 90))%nat then ascii_of_nat (n + 32) else c.

(** [str.toLowerCase()] on the ASCII strings that addresses are *)
Fixpoint toLowerCase (s : string) : string :=
  match s with
  | EmptyString => EmptyString
  | String c s' => String (lower_ascii c) (toLowerCase s')
  end.

Definition code_is (e : JsError) (c : string) : bool :=
  match err_code e with
  | Some c' => String.eqb c' c
  | None => false
  end.

(** ** The chain side *)

Record TxRequest := mkTxRequest { tx_to : string; tx_data : string }.

(** The [TransactionResponse] of ethers: only its hash is read. *)
Record Tx := mkTx { tx_hash : string }.

(** [receipt.status] is [null | number] in ethers. *)
Record Receipt := mkReceipt { status : option Z }.

(** [receipt.status === n] *)
Definition status_is (receipt : Receipt) (n : Z) : bool :=
  match status receipt with
  | Some s => s =? n
  | None => false
  end.

Inductive AbiValue :=
| VUint (n : Z)
| VString (s : string).

(** The two methods of [AGENT_ABI], reached by name through the ethers
    [Contract] object. *)
Inductive ContractFunc := submitRequest | submitAgent.

(** ** The HTTP side *)

Inductive Body :=
| BodyDefault
| BodyAddr (addr : string)
| BodyAuth (addr signature nonce : string)
| BodyCreateRequest (title content : string)
| BodyCreateAgent (name description : string).

(** Where in [requestWithRetry] an axios call is made. *)
Inductive Site :=
| SiteAttempt (i : Z)
| SiteReissue.

Record AxiosConfig := mkAxiosConfig {
  ax_method : string;
  ax_url : string;
  ax_data : Body;
  ax_tid : nat;
  ax_authorization : option string
}.

(** [res.data.data] *)
Record Payload := mkPayload {
  p_id : option Z;
  p_nonce : option string;
  p_token : option string;
  p_is_create_request : bool;
  p_is_create_agent : bool;
  p_message : option string;
  p_credit : option Z
}.

(** [res.data] *)
Record ApiData := mkApiData {
  d_code : option Z;
  d_message : option string;
  d_data : option Payload
}.

Record Response := mkResponse { r_data : option ApiData }.

(** ** Configuration ([config.json]) *)

Record Endpoints := mkEndpoints {
  loginWallet : string;
  authWallet : string;
  verifyDailyTask : string;
  createRequest : string;
  createRepositories : string;
  userInfo : string
}.

Record Config := mkConfig {
  baseUrl : string;
  endpoints : Endpoints;
  agentContract : string;
  loopInterval : Z
}.

(** ** Effects *)

Inductive Event :=
| EvAxios (site : Site) (cfg : AxiosConfig) (out : Res Response)
| EvLogin (sub : list Event) (ok : bool)
| EvSleep (ms : Z)
| EvInitAxios
| EvEstimateGas (req : TxRequest) (p : Promise Z) (elapsed : Z)
| EvSendTx (req : TxRequest) (gasLimit : Z) (p : Promise Tx) (elapsed : Z)
| EvWait (tx : Tx) (p : Promise Receipt) (elapsed : Z).

(** ** The world outside the process *)

Record World := mkWorld {
  CONFIG : Config;
  (** outcome of the [n]-th axios call of this client *)
  w_axios : nat -> AxiosConfig -> Res Response;
  (** [wallet.signMessage] *)
  w_signMessage : string -> string;
  (** [AbiCoder.defaultAbiCoder().encode(types, values)], a hex string *)
  w_abi_encode : list string -> list AbiValue -> Res string;
  (** the transaction ethers builds for a named contract method *)
  w_populate : ContractFunc -> list AbiValue -> Res TxRequest;
  (** the [n]-th RPC call of this client *)
  w_estimateGas : nat -> TxRequest -> Promise Z;
  w_sendTransaction : nat -> TxRequest -> Z -> Promise Tx;
  w_wait : nat -> Tx -> Promise Receipt;
  (** the [n]-th value of [Math.random]; [Math.floor(Math.random() * k)]
      is its remainder modulo [k] *)
  w_random : nat -> nat;
  (** [wallet.address] of this client *)
  w_address : string;
  (** the first group of [/(\d+)\s*pts/i] in a string, if it matches *)
  w_match_pts : string -> option string
}.

(** ** The client's state *)

Record Client := mkClient {
  (** [this.axios.defaults.headers.common['Authorization']] *)
  authorization : option string;
  (** how many axios calls, RPC calls, tids and random draws so far *)
  http_calls : nat;
  rpc_calls : nat;
  tids : nat;
  draws : nat
}.

Definition newClient : Client := mkClient None 0 0 0 0.

(** ** The monad of [async] methods

    [None] means that the method does not return: it awaits a promise that
    never settles, or its re-logins nest deeper than the depth at which it
    is run (see [requestWithRetry]). *)
Definition M (A : Type) : Type :=
  Client -> option (Res A * Client * list Event).

Definition ret {A} (a : A) : M A := fun c => Some (Ok a, c, []).

Definition throw {A} (e : JsError) : M A := fun c => Some (Throw e, c, []).

Definition bind {A B} (m : M A) (k : A -> M B) : M B :=
  fun c =>
    match m c with
    | None => None
    | Some (Throw e, c1, tr1) => Some (Throw e, c1, tr1)
    | Some (Ok a, c1, tr1) =>
        match k a c1 with
        | None => None
        | Some (r, c2, tr2) => Some (r, c2, tr1 ++ tr2)
        end
    end.

(** [try { m } catch (e) { h e }] *)
Definition try_catch {A} (m : M A) (h : JsError -> M A) : M A :=
  fun c =>
    match m c with
    | None => None
    | Some (Ok a, c1, tr1) => Some (Ok a, c1, tr1)
    | Some (Throw e, c1, tr1) =>
        match h e c1 with
        | None => None
        | Some (r, c2, tr2) => Some (r, c2, tr1 ++ tr2)
        end
    end.

Notation "x <- m ;; k" := (bind m (fun x => k))
  (at level 100, m at next level, right associativity).
Notation "m ;;; k" := (bind m (fun _ => k))
  (at level 100, right associativity).

Definition lift {A} (r : Res A) : M A := fun c => Some (r, c, []).

Definition emit (ev : Event) : M unit := fun c => Some (Ok tt, c, [ev]).

(** [await sleep(ms)] *)
Definition sleep (ms : Z) : M unit := emit (EvSleep ms).

(** What a statement of a loop body or of a [try] block does next. *)
Inductive Ctl (R A : Type) : Type :=
| Return (r : R)
| Next (a : A).
Arguments Return {R A} r.
Arguments Next {R A} a.

(** [for (let i = 0; i < retries; i++) { body } after], entered at [i]
    with [n] iterations left *)
Fixpoint for_loop {R} (n : nat) (i : Z) (body : Z -> M (Ctl R unit))
    (after : M R) : M R :=
  match n with
  | O => after
  | S n' =>
      c <- body i ;;
      match c with
      | Return r => ret r
      | Next _ => for_loop n' (i + 1) body after
      end
  end.

(** [runWithTimeout(promise, ms, errorMsg)]: the race of the promise
    against a timer that rejects with [new Error(errorMsg)] after [ms]
    milliseconds.  A promise that would settle at the very moment the
    timer fires is taken to lose. *)
Definition runWithTimeout {A} (promise : Promise A) (ms : Z)
    (errorMsg : string) : Promise A :=
  match promise with
  | Settles t r =>
      if t <? ms then Settles t r else Settles ms (Throw (Error errorMsg))
  | Pending => Settles ms (Throw (Error errorMsg))
  end.

Definition FUNCTION_SELECTORS_SUBMIT_AGENT : string := "0x9897934c".
Definition FUNCTION_SELECTORS_SUBMIT_REQUEST : string := "0xc9a5fadf".

Section Client.

Variable w : World.

(** [await race(call)]: issue the next RPC call and await it. *)
Definition await_rpc {A} (call : nat -> Promise A)
    (race : Promise A -> Promise A) (ev : Promise A -> Z -> Event) : M A :=
  fun c =>
    let p := call (rpc_calls c) in
    match race p with
    | Settles t r =>
        Some (r,
              mkClient (authorization c) (http_calls c) (S (rpc_calls c))
                       (tids c) (draws c),
              [ev p t])
    | Pending => None
    end.

(** [error.code === 'CALL_EXCEPTION' || error.message.includes('execution reverted')] *)
Definition isRevert (error : JsError) : bool :=
  code_is error "CALL_EXCEPTION" || includes (err_message error) "execution reverted".

(** *** [sendRawTransaction] *)

(** One iteration of the loop of [sendRawTransaction]. *)
Definition sendRawTransaction_attempt (selector : string)
    (paramTypes : list string) (paramValues : list AbiValue)
    (retries i : Z) : M (Ctl bool unit) :=
  try_catch
    (encodedParams <- lift (w_abi_encode w paramTypes paramValues) ;;
     let calldata := selector +:+ slice 2 encodedParams in
     let txRequest := mkTxRequest (agentContract (CONFIG w)) calldata in
     g <- try_catch
            (gasLimit <- await_rpc (fun n => w_estimateGas w n txRequest)
                           (fun p => runWithTimeout p 10000 "Gas Estimate Timeout")
                           (EvEstimateGas txRequest) ;;
             ret (Next (Z.quot (gasLimit * 120) 100)))
            (fun gasError =>
               if String.eqb (err_message gasError) "Gas Estimate Timeout"
               then ret (Next 300000)
               else if isRevert gasError then ret (Return false)
               else ret (Next 200000)) ;;
     match g with
     | Return b => ret (Return b)
     | Next gasLimit =>
         tx <- await_rpc (fun n => w_sendTransaction w n txRequest gasLimit)
                 (fun p => runWithTimeout p 30000 "Tx Send Timeout")
                 (EvSendTx txRequest gasLimit) ;;
         receipt <- await_rpc (fun n => w_wait w n tx)
                      (fun p => runWithTimeout p 60000 "Tx Wait Timeout")
                      (EvWait tx) ;;
         if status_is receipt 1 then ret (Return true)
         else ret (Return false)
     end)
    (fun error =>
       if isRevert error then ret (Return false)
       else if i <? retries - 1 then sleep 5000 ;;; ret (Next tt)
       else ret (Return false)).

(** [sendRawTransaction(selector, paramTypes, paramValues, retries = 3)] *)
Definition sendRawTransaction (selector : string) (paramTypes : list string)
    (paramValues : list AbiValue) (retries : option Z) : M bool :=
  let retries := default 3 retries in
  for_loop (Z.to_nat retries) 0
    (sendRawTransaction_attempt selector paramTypes paramValues retries)
    (ret false).

(** *** [sendTransactionWithRetry] *)

(** [contractFunc.estimateGas(...args)] awaited *)
Definition contractFunc_estimateGas (contractFunc : ContractFunc)
    (args : list AbiValue) : M Z :=
  txRequest <- lift (w_populate w contractFunc args) ;;
  await_rpc (fun n => w_estimateGas w n txRequest) (fun p => p)
    (EvEstimateGas txRequest).

(** [contractFunc(...args, { gasLimit })] awaited *)
Definition contractFunc_send (contractFunc : ContractFunc)
    (args : list AbiValue) (gasLimit : Z) : M Tx :=
  txRequest <- lift (w_populate w contractFunc args) ;;
  await_rpc (fun n => w_sendTransaction w n txRequest gasLimit) (fun p => p)
    (EvSendTx txRequest gasLimit).

Definition sendTransactionWithRetry_attempt (contractFunc : ContractFunc)
    (args : list AbiValue) (retries i : Z) : M (Ctl bool unit) :=
  try_catch
    (g <- try_catch
            (gasLimit <- contractFunc_estimateGas contractFunc args ;;
             ret (Next (Z.quot (gasLimit * 120) 100)))
            (fun gasError =>
               if isRevert gasError then ret (Return false)
               else ret (Next 500000)) ;;
     match g with
     | Return b => ret (Return b)
     | Next gasLimit =>
         tx <- contractFunc_send contractFunc args gasLimit ;;
         await_rpc (fun n => w_wait w n tx) (fun p => p) (EvWait tx) ;;;
         ret (Return true)
     end)
    (fun error =>
       if isRevert error then ret (Return false)
       else if i <? retries - 1 then sleep 5000 ;;; ret (Next tt)
       else ret (Return false)).

(** [sendTransactionWithRetry(contractFunc, args, retries = 3)] *)
Definition sendTransactionWithRetry (contractFunc : ContractFunc)
    (args : list AbiValue) (retries : option Z) : M bool :=
  let retries := default 3 retries in
  for_loop (Z.to_nat retries) 0
    (sendTransactionWithRetry_attempt contractFunc args retries)
    (ret false).

(** *** The axios instance *)

Definition generateTid : M nat :=
  fun c =>
    Some (Ok (tids c),
          mkClient (authorization c) (http_calls c) (rpc_calls c)
                   (S (tids c)) (draws c),
          []).

(** [await this.axios({ method, url, data, headers })]; of the headers
    only [tid] and the default [Authorization] are kept. *)
Definition axios_call (site : Site) (method url : string) (data : Body)
    (tid : nat) : M Response :=
  fun c =>
    let cfg := mkAxiosConfig method url data tid (authorization c) in
    let out := w_axios w (http_calls c) cfg in
    Some (out,
          mkClient (authorization c) (S (http_calls c)) (rpc_calls c)
                   (tids c) (draws c),
          [EvAxios site cfg out]).

(** [this.initAxios()]: a fresh instance, whose default headers carry no
    [Authorization]. *)
Definition initAxios : M unit :=
  fun c =>
    Some (Ok tt,
          mkClient None (http_calls c) (rpc_calls c) (tids c) (draws c),
          [EvInitAxios]).

Definition set_authorization (v : string) : M unit :=
  fun c =>
    Some (Ok tt,
          mkClient (Some v) (http_calls c) (rpc_calls c) (tids c) (draws c),
          []).

(** [Math.floor(Math.random() * k)] *)
Definition random_below (k : nat) : M nat :=
  fun c =>
    Some (Ok (w_random w (draws c) `mod` k)%nat,
          mkClient (authorization c) (http_calls c) (rpc_calls c) (tids c)
                   (S (draws c)),
          []).

Definition getRandomItem (arr : list string) : M string :=
  k <- random_below (length arr) ;; ret (nth k arr "undefined").

(** *** [requestWithRetry] and [login] *)

Definition isAuthError (error : JsError) : bool :=
  match err_status error with
  | Some s => (s =? 401) || (s =? 403)
  | None => false
  end.

Definition isNetworkError (error : JsError) : bool :=
  match err_status error with None => true | Some _ => false end
  || code_is error "ECONNRESET" || code_is error "ETIMEDOUT"
  || includes (err_message error) "Proxy connection".

(** [res.data && (res.data.message === 'TOKEN_INVALID' ||
    res.data.message === 'Session expired')] *)
Definition session_expired (res : Response) : bool :=
  match r_data res with
  | Some d =>
      match d_message d with
      | Some m => String.eqb m "TOKEN_INVALID" || String.eqb m "Session expired"
      | None => false
      end
  | None => false
  end.

(** One iteration of the loop of [requestWithRetry]; [login] is
    [this.login()]. *)
Definition requestWithRetry_attempt (login : M bool) (method url : string)
    (data : Body) (retries i : Z) : M (Ctl (option Response) unit) :=
  try_catch
    (tid <- generateTid ;;
     res <- axios_call (SiteAttempt i) method url data tid ;;
     if session_expired res then
       loginSuccess <- login ;;
       if loginSuccess : bool then
         tid' <- generateTid ;;
         res' <- axios_call SiteReissue method url data tid' ;;
         ret (Return (Some res'))
       else throw (Error "Re-login failed during retry")
     else ret (Return (Some res)))
    (fun error =>
       if isAuthError error then
         loginSuccess <- login ;;
         if loginSuccess : bool then
           tid' <- generateTid ;;
           res' <- axios_call SiteReissue method url data tid' ;;
           ret (Return (Some res'))
         else throw error
       else if i <? retries - 1 then
         sleep ((i + 1) * 3000) ;;;
         (if isNetworkError error then initAxios else ret tt) ;;;
         ret (Next tt)
       else throw error).

(** [res.data], throwing as JavaScript does when [res] or [res.data] is
    [undefined] and a property of it is read next. *)
Definition data_of (res : option Response) : M ApiData :=
  match res with
  | Some r =>
      match r_data r with
      | Some d => ret d
      | None => throw TypeError
      end
  | None => throw TypeError
  end.

(** [res.data.code === 0] *)
Definition code_is_zero (d : ApiData) : bool :=
  match d_code d with
  | Some n => n =? 0
  | None => false
  end.

(** The body of [login], over the request function it calls. *)
Definition login_with
    (request : string -> string -> Body -> option Z -> M (option Response))
    : M bool :=
  fun c =>
    match
      try_catch
        (nonceRes <- request "post" (loginWallet (endpoints (CONFIG w)))
                       (BodyAddr (w_address w)) None ;;
         nd <- data_of nonceRes ;;
         if negb (code_is_zero nd) then throw (Error (default EmptyString (d_message nd)))
         else
           np <- match d_data nd with Some p => ret p | None => throw TypeError end ;;
           nonce <- match p_nonce np with Some n => ret n | None => throw TypeError end ;;
           let signature := w_signMessage w nonce in
           authRes <- request "post" (authWallet (endpoints (CONFIG w)))
                        (BodyAuth (w_address w) signature nonce) None ;;
           ad <- data_of authRes ;;
           if negb (code_is_zero ad) then throw (Error (default EmptyString (d_message ad)))
           else
             ap <- match d_data ad with Some p => ret p | None => throw TypeError end ;;
             set_authorization ("Bearer " +:+ default "undefined" (p_token ap)) ;;;
             ret true)
        (fun e => ret false) c
    with
    | None => None
    | Some (Ok b, c', tr) => Some (Ok b, c', [EvLogin tr b])
    | Some (Throw e, c', tr) => Some (Throw e, c', [EvLogin tr false])
    end.

Definition never {A} : M A := fun _ => None.

(** [requestWithRetry(method, url, data = {}, options = {}, retries = 5)];
    every caller leaves [options] at its default.  [depth] bounds how
    deeply re-logins may nest (a re-login calls [requestWithRetry]
    again): beyond it the call does not return. *)
Fixpoint requestWithRetry (depth : nat) (method url : string) (data : Body)
    (retries : option Z) {struct depth} : M (option Response) :=
  let retries := default 5 retries in
  let login :=
    match depth with
    | O => never
    | S depth' => login_with (requestWithRetry depth')
    end in
  for_loop (Z.to_nat retries) 0
    (requestWithRetry_attempt login method url data retries)
    (ret None).

Definition login (depth : nat) : M bool :=
  login_with (requestWithRetry depth).

End Client.

(** ** The task orchestrator *)

Definition TITLES : list string := [
  "exploring the future of decentralized"; "blockchain technology is fascinating";
  "excited about web3 possibilities"; "learning more about crypto daily";
  "another great day in web3 space"; "the potential here is incredible";
  "building something amazing today"; "diving deeper into blockchain tech";
  "crypto journey continues forward"; "innovation happens every single day";
  "web3 is changing everything now"; "decentralization matters so much";
  "excited for what comes next here"; "this technology is revolutionary";
  "blockchain opens new possibilities"; "the future is being built today";
  "learning and growing every day"; "crypto space never stops moving" ].

Definition CONTENTS : list string := [
  "The blockchain ecosystem continues to evolve in fascinating ways.";
  "Decentralization is more than a technology.";
  "Web3 represents a fundamental shift in ownership.";
  "Building in this space requires patience.";
  "The intersection of AI and blockchain is creating opportunities.";
  "Smart contracts are revolutionizing agreements." ].

Definition AGENT_PREFIXES : list string :=
  ["Smart"; "Auto"; "Crypto"; "DeFi"; "Web3"; "Chain"; "Block"; "Token"; "AI"; "Meta"].
Definition AGENT_SUFFIXES : list string :=
  ["Bot"; "Agent"; "Helper"; "Assistant"; "Trader"; "Analyzer"; "Worker";
   "Manager"; "Guardian"].
Definition AGENT_DESCRIPTIONS : list string := [
  "An intelligent agent for blockchain automation"; "Automated trading solution";
  "AI-powered crypto assistant"; "Smart contract interaction helper";
  "Decentralized task automation agent" ].

(** The [points] field of a result: a number or a string. *)
Inductive Points :=
| PNum (n : Z)
| PStr (s : string).

(** What [runDailyTasks] returns. *)
Record TaskResult := mkTaskResult {
  success : bool;
  points : option Points;
  result_status : string
}.

(** [res.data.code === 0 && res.data.data?.id], with the identifier *)
Definition created_id (d : ApiData) : option Z :=
  if code_is_zero d then
    match d_data d with
    | Some p =>
        match p_id p with
        | Some n => if n =? 0 then None else Some n
        | None => None
        end
    | None => None
    end
  else None.

Section Orchestrator.

Variable w : World.

(** [getRandomContent()]: the random id is drawn before the text; the
    JSON string is kept as the text it wraps. *)
Definition getRandomContent : M string :=
  random_below w 1 ;;;
  getRandomItem w CONTENTS.

Definition getRandomAgentName : M string :=
  prefix <- getRandomItem w AGENT_PREFIXES ;;
  suffix <- getRandomItem w AGENT_SUFFIXES ;;
  n <- random_below w 1000 ;;
  ret (prefix +:+ suffix +:+ pretty n).

(** [taskRes.data.data] *)
Definition taskData_of (taskRes : option Response) : M (option Payload) :=
  d <- data_of taskRes ;; ret (d_data d).

Definition is_done (flag : Payload -> bool) (taskData : option Payload) : bool :=
  match taskData with
  | Some p => flag p
  | None => false
  end.

Definition status_of (performed : Z) : string :=
  if 0 <? performed then "Work Done" else "Already Done".

End Orchestrator.

(** *** [runDailyTasks] of the revision that submits through
    [sendRawTransaction] (the last file of [src/unnamed/part_000]).  The
    two blocks that the source writes one after the other, each ending
    in [performed++], are the functions [requestTask] and [agentTask]
    from the count before to the count after. *)
Module Part000.
Section Tasks.

Variable w : World.
Variable depth : nat.

Definition requestTask (taskData : option Payload) (performed : Z) : M Z :=
  if negb (is_done p_is_create_request taskData) then
    title <- getRandomItem w TITLES ;;
    content <- getRandomContent w ;;
    reqRes <- requestWithRetry w depth "post" (createRequest (endpoints (CONFIG w)))
                (BodyCreateRequest title content) None ;;
    d <- data_of reqRes ;;
    match created_id d with
    | Some id =>
        sleep 2000 ;;;
        success <- sendRawTransaction w FUNCTION_SELECTORS_SUBMIT_REQUEST
                     ["uint256"; "string"] [VUint id; VString title] None ;;
        if success : bool then ret (performed + 1) else ret performed
    | None => ret performed
    end
  else ret performed.

Definition agentTask (taskData : option Payload) (performed : Z) : M Z :=
  if negb (is_done p_is_create_agent taskData) then
    name <- getRandomAgentName w ;;
    description <- getRandomItem w AGENT_DESCRIPTIONS ;;
    agentRes <- requestWithRetry w depth "post"
                  (createRepositories (endpoints (CONFIG w)))
                  (BodyCreateAgent name description) None ;;
    d <- data_of agentRes ;;
    match created_id d with
    | Some id =>
        sleep 2000 ;;;
        agentDescription <- getRandomItem w AGENT_DESCRIPTIONS ;;
        success <- sendRawTransaction w FUNCTION_SELECTORS_SUBMIT_AGENT
                     ["uint256"; "string"; "string"]
                     [VUint id; VString name; VString agentDescription] None ;;
        if success : bool then ret (performed + 1) else ret performed
    | None => ret performed
    end
  else ret performed.

(** The score is read off the message of the status response. *)
Definition pointsOf (taskData : option Payload) : Points :=
  match taskData with
  | Some p =>
      match p_message p with
      | Some EmptyString => PStr "-"
      | Some m =>
          match w_match_pts w m with
          | Some pts => PStr pts
          | None => PStr "-"
          end
      | None => PStr "-"
      end
  | None => PStr "-"
  end.

Definition runDailyTasks : M TaskResult :=
  loggedIn <- login w depth ;;
  if negb loggedIn then ret (mkTaskResult false None "Login Failed")
  else
    try_catch
      (taskRes <- requestWithRetry w depth "post"
                    (verifyDailyTask (endpoints (CONFIG w))) BodyDefault None ;;
       taskData <- taskData_of taskRes ;;
       performed <- requestTask taskData 0 ;;
       performed <- agentTask taskData performed ;;
       try_catch
         (ret (mkTaskResult true (Some (pointsOf taskData)) (status_of performed)))
         (fun err => ret (mkTaskResult true (Some (PStr "?")) (status_of performed))))
      (fun e => ret (mkTaskResult false None "Error")).

End Tasks.
End Part000.

(** *** [runDailyTasks] of [src/index.js], the revision that submits
    through the contract object and [sendTransactionWithRetry] *)
Module IndexJs.
Section Tasks.

Variable w : World.
Variable depth : nat.

Definition requestTask (taskData : option Payload) (performed : Z) : M Z :=
  if negb (is_done p_is_create_request taskData) then
    title <- getRandomItem w TITLES ;;
    content <- getRandomContent w ;;
    reqRes <- requestWithRetry w depth "post" (createRequest (endpoints (CONFIG w)))
                (BodyCreateRequest title content) None ;;
    d <- data_of reqRes ;;
    match created_id d with
    | Some id =>
        sleep 2000 ;;;
        success <- sendTransactionWithRetry w submitRequest
                     [VUint id; VString title] None ;;
        if success : bool then ret (performed + 1) else ret performed
    | None => ret performed
    end
  else ret performed.

Definition agentTask (taskData : option Payload) (performed : Z) : M Z :=
  if negb (is_done p_is_create_agent taskData) then
    name <- getRandomAgentName w ;;
    description <- getRandomItem w AGENT_DESCRIPTIONS ;;
    agentRes <- requestWithRetry w depth "post"
                  (createRepositories (endpoints (CONFIG w)))
                  (BodyCreateAgent name description) None ;;
    d <- data_of agentRes ;;
    match created_id d with
    | Some id =>
        sleep 2000 ;;;
        description' <- getRandomItem w AGENT_DESCRIPTIONS ;;
        success <- sendTransactionWithRetry w submitAgent
                     [VUint id; VString name; VString description'] None ;;
        if success : bool then ret (performed + 1) else ret performed
    | None => ret performed
    end
  else ret performed.

(** [userRes.data.data?.credit || 0] *)
Definition creditOf (d : ApiData) : Points :=
  match d_data d with
  | Some p => PNum (default 0 (p_credit p))
  | None => PNum 0
  end.

Definition runDailyTasks : M TaskResult :=
  loggedIn <- login w depth ;;
  if negb loggedIn then ret (mkTaskResult false None "Login Failed")
  else
    try_catch
      (taskRes <- requestWithRetry w depth "post"
                    (verifyDailyTask (endpoints (CONFIG w))) BodyDefault None ;;
       taskData <- taskData_of taskRes ;;
       performed <- requestTask taskData 0 ;;
       performed <- agentTask taskData performed ;;
       try_catch
         (userRes <- requestWithRetry w depth "post"
                       (userInfo (endpoints (CONFIG w))) BodyDefault None ;;
          d <- data_of userRes ;;
          ret (mkTaskResult true (Some (creditOf d)) (status_of performed)))
         (fun err => ret (mkTaskResult true (Some (PStr "?")) (status_of performed))))
      (fun e => ret (mkTaskResult false None "Error")).

End Tasks.
End IndexJs.

(** ** The cooldown store [WalletDB] *)

(** The object: [this.data], and what [wallet_db.json] parses to for as
    long as the read that [load()] awaits is in flight.  The constructor
    sets [this.data = {}] and calls [load()] without awaiting it. *)
Record WalletDB := mkWalletDB {
  data : gmap string Z;
  loading : option (gmap string Z)
}.

(** [new WalletDB()].  [file] is what [wallet_db.json] parses to: nothing
    when the file does not exist, the empty object when it cannot be
    parsed ([load] catches the error and sets [this.data = {}]). *)
Definition newWalletDB (file : option (gmap string Z)) : WalletDB :=
  mkWalletDB ∅ file.

(** The rest of [load()], run once the read has finished:
    [this.data = JSON.parse(content)]. *)
Definition load_finished (d : WalletDB) : WalletDB :=
  match loading d with
  | Some content => mkWalletDB content None
  | None => d
  end.

(** [getNextRunTime(address)]: [this.data[address.toLowerCase()] || 0] *)
Definition getNextRunTime (d : WalletDB) (address : string) : Z :=
  match data d !! toLowerCase address with
  | Some t => if t =? 0 then 0 else t
  | None => 0
  end.

(** [updateNextRunTime(address, nextTime)], before the write to disk *)
Definition updateNextRunTime (d : WalletDB) (address : string)
    (nextTime : Z) : WalletDB :=
  mkWalletDB (<[toLowerCase address := nextTime]> (data d)) (loading d).

(** ** The account loop of [main] *)

Record Account := mkAccount { privateKey : string; proxy : option string }.

Inductive NextRun :=
| NextAt (t : Z)
| RetryNextLoop.

(** A row of [summaryData] *)
Record Row := mkRow {
  row_account : nat;
  row_points : Points;
  row_status : string;
  row_next : NextRun
}.

(** The variables of [main] that the loop over the accounts changes. *)
Record Main := mkMain {
  db : WalletDB;
  summaryData : list Row;
  (** how many times [Date.now()] was read by the loop *)
  clock_reads : nat
}.

Inductive MainEvent :=
| MClient (i : nat) (tr : list Event)
| MSave (data : gmap string Z)
| MSleep (ms : Z).

Record Env := mkEnv {
  env_config : Config;
  (** the [n]-th reading of [Date.now()] by the loop *)
  date_now : nat -> Z;
  (** what the client made for an account meets *)
  client_world : nat -> Account -> World
}.

(** [res.points || '-'] *)
Definition points_or_dash (p : option Points) : Points :=
  match p with
  | Some (PNum 0) => PStr "-"
  | Some (PStr EmptyString) => PStr "-"
  | Some p => p
  | None => PStr "-"
  end.

Section MainLoop.

Variable env : Env.
(** [client.runDailyTasks()], of either revision *)
Variable runDailyTasks : World -> nat -> M TaskResult.
Variable depth : nat.

(** The body of [for (let i = 0; i < accounts.length; i++)].  Up to
    [await client.runDailyTasks()] the loop does not give up control, so a
    read of the store that is in flight cannot finish before the cooldown
    is checked; it is taken to have finished when the tasks, which wait
    for the network several times, return. *)
Definition processAccount (i : nat) (acc : Account) (s : Main)
    : option (Res unit * Main * list MainEvent) :=
  let w := client_world env i acc in
  let nextRun := getNextRunTime (db s) (w_address w) in
  let now := date_now env (clock_reads s) in
  if now <? nextRun then
    (* continue *)
    Some (Ok tt,
          mkMain (db s)
            (summaryData s ++
               [mkRow (i + 1) (PStr "-") "Skipped (Cooldown)" (NextAt nextRun)])
            (S (clock_reads s)),
          [])
  else
    match runDailyTasks w depth newClient with
    | None => None
    | Some (Throw e, _, tr) =>
        Some (Throw e,
              mkMain (load_finished (db s)) (summaryData s) (S (clock_reads s)),
              [MClient i tr])
    | Some (Ok res, _, tr) =>
        if success res then
          let now2 := date_now env (S (clock_reads s)) in
          let now3 := date_now env (S (S (clock_reads s))) in
          let db' := updateNextRunTime (load_finished (db s)) (w_address w)
                       (now2 + loopInterval (env_config env)) in
          Some (Ok tt,
                mkMain db'
                  (summaryData s ++
                     [mkRow (i + 1) (points_or_dash (points res))
                        (result_status res)
                        (NextAt (now3 + loopInterval (env_config env)))])
                  (S (S (S (clock_reads s)))),
                [MClient i tr; MSave (data db'); MSleep 2000])
        else
          Some (Ok tt,
                mkMain (load_finished (db s))
                  (summaryData s ++
                     [mkRow (i + 1) (PStr "-") "Failed" RetryNextLoop])
                  (S (clock_reads s)),
                [MClient i tr; MSleep 2000])
    end.

Fixpoint accounts_loop (i : nat) (accounts : list Account) (s : Main)
    : option (Res unit * Main * list MainEvent) :=
  match accounts with
  | [] => Some (Ok tt, s, [])
  | acc :: rest =>
      match processAccount i acc s with
      | None => None
      | Some (Throw e, s1, tr1) => Some (Throw e, s1, tr1)
      | Some (Ok _, s1, tr1) =>
          match accounts_loop (S i) rest s1 with
          | None => None
          | Some (r, s2, tr2) => Some (r, s2, tr1 ++ tr2)
          end
      end
  end.

(** One pass of [while (true)], up to the summary: [summaryData] starts
    empty and the accounts are visited in order. *)
Definition runCycle (accounts : list Account) (d : WalletDB)
    (reads : nat) : option (Res unit * Main * list MainEvent) :=
  accounts_loop 0 accounts (mkMain d [] reads).

End MainLoop.

(** * Vocabulary of the specifications *)

(** [m] returns from every state: it neither hangs nor runs out of
    re-login depth. *)
Definition returns {A} (m : M A) : Prop :=
  forall c, exists r c' tr, m c = Some (r, c', tr).

(** The runs of a [for_loop] whose body satisfies [S]: the trace is the
    concatenation of the traces of the iterations, all but the last of
    which asked for the next iteration. *)
Inductive loop_run {R} (S : Z -> list Event -> Res (Ctl R unit) -> Prop)
    (S_after : list Event -> Res R -> Prop)
    : nat -> Z -> list Event -> Res R -> Prop :=
| LR_exit i tr r :
    S_after tr r -> loop_run S S_after O i tr r
| LR_return n i tr r :
    S i tr (Ok (Return r)) -> loop_run S S_after (Datatypes.S n) i tr (Ok r)
| LR_throw n i tr e :
    S i tr (Throw e) -> loop_run S S_after (Datatypes.S n) i tr (Throw e)
| LR_next n i tr tr' r :
    S i tr (Ok (Next tt)) ->
    loop_run S S_after n (i + 1) tr' r ->
    loop_run S S_after (Datatypes.S n) i (tr ++ tr') r.

(** A property of every event of a trace together with what follows it. *)
Fixpoint each_suffix {A} (P : A -> list A -> Prop) (l : list A) : Prop :=
  match l with
  | [] => True
  | x :: l' => P x l' /\ each_suffix P l'
  end.

(** The timer of [runWithTimeout] wins the race. *)
Definition timed_out {A} (p : Promise A) (ms : Z) : Prop :=
  match p with
  | Settles t _ => ms <= t
  | Pending => True
  end.

(** ** The chain submitters *)

(** The gas limit [sendRawTransaction] chooses from the settled
    estimation, or its early [return false]. *)
Definition raw_gas_decision (r : Res Z) : Ctl bool Z :=
  match r with
  | Ok est => Next (Z.quot (est * 120) 100)
  | Throw gasError =>
      if String.eqb (err_message gasError) "Gas Estimate Timeout" then Next 300000
      else if isRevert gasError then Return false
      else Next 200000
  end.

(** What the outer [catch] block of a submitter does with an error. *)
Definition submit_catch (retries i : Z) (error : JsError)
    : Ctl bool unit * list Event :=
  if isRevert error then (Return false, [])
  else if i <? retries - 1 then (Next tt, [EvSleep 5000])
  else (Return false, []).

(** The four ways an iteration of [sendRawTransaction] can go once the
    call data [req] is built. *)
Inductive raw_attempt (req : TxRequest) (retries i : Z)
    : list Event -> Ctl bool unit -> Prop :=
| RA_estimate p t r b :
    runWithTimeout p 10000 "Gas Estimate Timeout" = Settles t r ->
    raw_gas_decision r = Return b ->
    raw_attempt req retries i [EvEstimateGas req p t] (Return b)
| RA_send p t r g p2 t2 e ctl tr :
    runWithTimeout p 10000 "Gas Estimate Timeout" = Settles t r ->
    raw_gas_decision r = Next g ->
    runWithTimeout p2 30000 "Tx Send Timeout" = Settles t2 (Throw e) ->
    submit_catch retries i e = (ctl, tr) ->
    raw_attempt req retries i
      (EvEstimateGas req p t :: EvSendTx req g p2 t2 :: tr) ctl
| RA_wait p t r g p2 t2 tx p3 t3 e ctl tr :
    runWithTimeout p 10000 "Gas Estimate Timeout" = Settles t r ->
    raw_gas_decision r = Next g ->
    runWithTimeout p2 30000 "Tx Send Timeout" = Settles t2 (Ok tx) ->
    runWithTimeout p3 60000 "Tx Wait Timeout" = Settles t3 (Throw e) ->
    submit_catch retries i e = (ctl, tr) ->
    raw_attempt req retries i
      (EvEstimateGas req p t :: EvSendTx req g p2 t2 :: EvWait tx p3 t3 :: tr) ctl
| RA_receipt p t r g p2 t2 tx p3 t3 receipt :
    runWithTimeout p 10000 "Gas Estimate Timeout" = Settles t r ->
    raw_gas_decision r = Next g ->
    runWithTimeout p2 30000 "Tx Send Timeout" = Settles t2 (Ok tx) ->
    runWithTimeout p3 60000 "Tx Wait Timeout" = Settles t3 (Ok receipt) ->
    raw_attempt req retries i
      [EvEstimateGas req p t; EvSendTx req g p2 t2; EvWait tx p3 t3]
      (Return (status_is receipt 1)).

(** An iteration of [sendRawTransaction]: it never throws, and either the
    encoder threw before any call data existed or the iteration went one
    of the four ways above. *)
Definition raw_attempt_spec (w : World) (selector : string)
    (paramTypes : list string) (paramValues : list AbiValue) (retries i : Z)
    (tr : list Event) (res : Res (Ctl bool unit)) : Prop :=
  exists ctl, res = Ok ctl /\
    match w_abi_encode w paramTypes paramValues with
    | Throw e => (ctl, tr) = submit_catch retries i e
    | Ok encodedParams =>
        raw_attempt
          (mkTxRequest (agentContract (CONFIG w)) (selector +:+ slice 2 encodedParams))
          retries i tr ctl
    end.

(** What follows an estimation in a run of [sendRawTransaction] that
    returns [b]: the estimation was awaited for at most 10 seconds; when
    the timer won, a broadcast with a gas limit of 300000 follows; when the
    node rejected the estimation in time, a revert ends the run with
    [false] and any other error is followed by a broadcast with 200000;
    an estimate obtained in time is followed by a broadcast with the
    estimate times 120 over 100.  The code recognises the timer by the
    message of its error, so an error of the node with that very message
    would count as the timer. *)
Definition gas_policy (b : bool) (ev : Event) (post : list Event) : Prop :=
  match ev with
  | EvEstimateGas req p elapsed =>
      elapsed <= 10000 /\
      (timed_out p 10000 ->
         exists p2 t2 post', post = EvSendTx req 300000 p2 t2 :: post') /\
      (forall t e,
         p = Settles t (Throw e) -> t < 10000 ->
         if String.eqb (err_message e) "Gas Estimate Timeout"
         then exists p2 t2 post', post = EvSendTx req 300000 p2 t2 :: post'
         else if isRevert e then post = [] /\ b = false
         else exists p2 t2 post', post = EvSendTx req 200000 p2 t2 :: post') /\
      (forall t est,
         p = Settles t (Ok est) -> t < 10000 ->
         exists p2 t2 post',
           post = EvSendTx req (Z.quot (est * 120) 100) p2 t2 :: post')
  | _ => True
  end.

(** A revert as [sendRawTransaction] detects it: the estimation, the
    broadcast or the confirmation is rejected in time with a revert error,
    or the receipt arrives in time with a status other than 1.  The
    message of the timer is not an error of the node. *)
Definition revert_detected (ev : Event) : Prop :=
  match ev with
  | EvEstimateGas _ p _ =>
      exists t e, p = Settles t (Throw e) /\ t < 10000 /\ isRevert e = true /\
                  err_message e <> "Gas Estimate Timeout"
  | EvSendTx _ _ p _ =>
      exists t e, p = Settles t (Throw e) /\ t < 30000 /\ isRevert e = true
  | EvWait _ p _ =>
      exists t, t < 60000 /\
        ((exists e, p = Settles t (Throw e) /\ isRevert e = true) \/
         (exists receipt, p = Settles t (Ok receipt) /\ status_is receipt 1 = false))
  | _ => False
  end.

Definition terminal_revert (b : bool) (ev : Event) (post : list Event) : Prop :=
  revert_detected ev -> post = [] /\ b = false.

(** The call data of the RPC calls of a submission: the selector, then the
    encoded parameters without their [0x]. *)
Definition selector_first (w : World) (selector : string)
    (paramTypes : list string) (paramValues : list AbiValue) (ev : Event) : Prop :=
  let ok req :=
    exists encodedParams,
      w_abi_encode w paramTypes paramValues = Ok encodedParams /\
      tx_data req = selector +:+ slice 2 encodedParams /\
      tx_to req = agentContract (CONFIG w) in
  match ev with
  | EvEstimateGas req _ _ => ok req
  | EvSendTx req _ _ _ => ok req
  | _ => True
  end.

(** The gas limit [sendTransactionWithRetry] chooses from the settled
    estimation, or its early [return false]. *)
Definition legacy_gas_decision (r : Res Z) : Ctl bool Z :=
  match r with
  | Ok est => Next (Z.quot (est * 120) 100)
  | Throw gasError =>
      if isRevert gasError then Return false else Next 500000
  end.

(** The four ways an iteration of [sendTransactionWithRetry] can go once
    ethers has built the transaction [req]; nothing is raced against a
    timer. *)
Inductive legacy_attempt (req : TxRequest) (retries i : Z)
    : list Event -> Ctl bool unit -> Prop :=
| LA_estimate t r b :
    legacy_gas_decision r = Return b ->
    legacy_attempt req retries i [EvEstimateGas req (Settles t r) t] (Return b)
| LA_send t r g t2 e ctl tr :
    legacy_gas_decision r = Next g ->
    submit_catch retries i e = (ctl, tr) ->
    legacy_attempt req retries i
      (EvEstimateGas req (Settles t r) t
         :: EvSendTx req g (Settles t2 (Throw e)) t2 :: tr) ctl
| LA_wait t r g t2 tx t3 e ctl tr :
    legacy_gas_decision r = Next g ->
    submit_catch retries i e = (ctl, tr) ->
    legacy_attempt req retries i
      (EvEstimateGas req (Settles t r) t
         :: EvSendTx req g (Settles t2 (Ok tx)) t2
         :: EvWait tx (Settles t3 (Throw e)) t3 :: tr) ctl
| LA_done t r g t2 tx t3 receipt :
    legacy_gas_decision r = Next g ->
    legacy_attempt req retries i
      [EvEstimateGas req (Settles t r) t;
       EvSendTx req g (Settles t2 (Ok tx)) t2;
       EvWait tx (Settles t3 (Ok receipt)) t3]
      (Return true).

Definition legacy_attempt_spec (w : World) (contractFunc : ContractFunc)
    (args : list AbiValue) (retries i : Z) (tr : list Event)
    (res : Res (Ctl bool unit)) : Prop :=
  exists ctl, res = Ok ctl /\
    match w_populate w contractFunc args with
    | Throw e => (ctl, tr) = submit_catch retries i e
    | Ok req => legacy_attempt req retries i tr ctl
    end.

(** Every RPC call of the world settles. *)
Definition settling (w : World) : Prop :=
  (forall n req, w_estimateGas w n req <> Pending) /\
  (forall n req g, w_sendTransaction w n req g <> Pending) /\
  (forall n tx, w_wait w n tx <> Pending).

(** A revert as [sendTransactionWithRetry] detects it: a rejection with a
    revert error.  ethers rejects [tx.wait()] with [CALL_EXCEPTION] when
    the receipt has status 0. *)
Definition legacy_revert_detected (ev : Event) : Prop :=
  match ev with
  | EvEstimateGas _ p _ => exists t e, p = Settles t (Throw e) /\ isRevert e = true
  | EvSendTx _ _ p _ => exists t e, p = Settles t (Throw e) /\ isRevert e = true
  | EvWait _ p _ => exists t e, p = Settles t (Throw e) /\ isRevert e = true
  | _ => False
  end.

Definition terminal_revert_legacy (b : bool) (ev : Event) (post : list Event) : Prop :=
  legacy_revert_detected ev -> post = [] /\ b = false.

(** ** The request executor *)

(** What [login] does as seen by its caller: it returns a boolean, and its
    effects are one [EvLogin] event. *)
Definition login_like (login : M bool) : Prop :=
  forall c r c' tr,
    login c = Some (r, c', tr) -> exists sub b, r = Ok b /\ tr = [EvLogin sub b].

(** The [catch] block of [requestWithRetry] on the error [e]. *)
Inductive request_catch (retries i : Z) (e : JsError)
    : list Event -> Res (Ctl (option Response) unit) -> Prop :=
| QC_auth_reissue sub cfg res :
    isAuthError e = true ->
    request_catch retries i e
      [EvLogin sub true; EvAxios SiteReissue cfg (Ok res)]
      (Ok (Return (Some res)))
| QC_auth_reissue_fail sub cfg e' :
    isAuthError e = true ->
    request_catch retries i e
      [EvLogin sub true; EvAxios SiteReissue cfg (Throw e')]
      (Throw e')
| QC_auth_login_fail sub :
    isAuthError e = true ->
    request_catch retries i e [EvLogin sub false] (Throw e)
| QC_retry :
    isAuthError e = false ->
    i < retries - 1 ->
    request_catch retries i e
      (EvSleep ((i + 1) * 3000) :: if isNetworkError e then [EvInitAxios] else [])
      (Ok (Next tt))
| QC_give_up :
    isAuthError e = false ->
    retries - 1 <= i ->
    request_catch retries i e [] (Throw e).

(** The ways an iteration of [requestWithRetry] can go.  An error thrown
    inside the [try] block, by the reissued call or by the code itself
    after a failed re-login, reaches the [catch] block of the same
    iteration. *)
Inductive request_attempt (retries i : Z)
    : list Event -> Res (Ctl (option Response) unit) -> Prop :=
| QA_ok cfg res :
    session_expired res = false ->
    request_attempt retries i
      [EvAxios (SiteAttempt i) cfg (Ok res)]
      (Ok (Return (Some res)))
| QA_expired_reissue cfg res sub cfg' res' :
    session_expired res = true ->
    request_attempt retries i
      [EvAxios (SiteAttempt i) cfg (Ok res); EvLogin sub true;
       EvAxios SiteReissue cfg' (Ok res')]
      (Ok (Return (Some res')))
| QA_expired_reissue_fail cfg res sub cfg' e' tr r :
    session_expired res = true ->
    request_catch retries i e' tr r ->
    request_attempt retries i
      (EvAxios (SiteAttempt i) cfg (Ok res) :: EvLogin sub true
         :: EvAxios SiteReissue cfg' (Throw e') :: tr)
      r
| QA_expired_login_fail cfg res sub tr r :
    session_expired res = true ->
    request_catch retries i (Error "Re-login failed during retry") tr r ->
    request_attempt retries i
      (EvAxios (SiteAttempt i) cfg (Ok res) :: EvLogin sub false :: tr)
      r
| QA_rejected cfg e tr r :
    request_catch retries i e tr r ->
    request_attempt retries i (EvAxios (SiteAttempt i) cfg (Throw e) :: tr) r.

(** The attempts and the pauses of a run of [requestWithRetry], in order. *)
Inductive Sched :=
| At (i : Z)
| Wait (ms : Z).

Fixpoint schedule (tr : list Event) : list Sched :=
  match tr with
  | [] => []
  | EvAxios (SiteAttempt i) _ _ :: tr' => At i :: schedule tr'
  | EvSleep ms :: tr' => Wait ms :: schedule tr'
  | _ :: tr' => schedule tr'
  end.

(** [k] attempts from index [i] on, with a pause of [index * 3000] ms
    after the attempt of that (1-based) index. *)
Fixpoint backoff_schedule (k : nat) (i : Z) : list Sched :=
  match k with
  | O => []
  | S k' =>
      match k' with
      | O => [At i]
      | S _ => At i :: Wait ((i + 1) * 3000) :: backoff_schedule k' (i + 1)
      end
  end.

(** An axios outcome that triggers no re-login. *)
Definition no_relogin (out : Res Response) : Prop :=
  match out with
  | Ok res => session_expired res = false
  | Throw e => isAuthError e = false
  end.

(** What follows the rejection of the attempt of index [last] with an
    error that is not an auth error, in a run that ends in [res]. *)
Definition last_error_propagates (last : Z) (res : Res (option Response))
    (ev : Event) (post : list Event) : Prop :=
  match ev with
  | EvAxios (SiteAttempt j) _ (Throw e) =>
      j = last -> isAuthError e = false -> post = [] /\ res = Throw e
  | _ => True
  end.

(** How the result of the last iteration becomes the result of the loop. *)
Definition loop_result {R} (r : Res (Ctl R unit)) (res : Res R) : Prop :=
  match r with
  | Ok (Return x) => res = Ok x
  | Ok (Next _) => False
  | Throw e => res = Throw e
  end.

(** ** Concrete worlds *)

Definition demo_endpoints : Endpoints :=
  mkEndpoints "/api/login" "/api/auth" "/api/verify" "/api/request"
    "/api/agent" "/api/user".

Definition demo_config : Config :=
  mkConfig "https://four.example" demo_endpoints "0xA9e17" 86400000.

(** A world with the given server and node, an encoder that always
    answers [0xabcdef], and the wallet [0xAbC1]. *)
Definition demo_world (axios : nat -> AxiosConfig -> Res Response)
    (estimateGas : nat -> Promise Z) (sendTransaction : nat -> Promise Tx)
    (wait : nat -> Promise Receipt) : World :=
  mkWorld demo_config axios
    (fun nonce => "signed:" +:+ nonce)
    (fun _ _ => Ok "0xabcdef")
    (fun _ _ => Ok (mkTxRequest "0xA9e17" "0x00"))
    (fun n _ => estimateGas n)
    (fun n _ _ => sendTransaction n)
    (fun n _ => wait n)
    (fun n => n)
    "0xAbC1"
    (fun _ => None).

(** [{ data: { code, message, data } }] *)
Definition response (code : Z) (message : string) (data : option Payload)
    : Response :=
  mkResponse (Some (mkApiData (Some code) (Some message) data)).

(** The server answers every call but the nonce request with the
    expired-session message, and refuses the nonce request with code 1. *)
Definition expired_server (n : nat) (cfg : AxiosConfig) : Res Response :=
  if String.eqb (ax_url cfg) "/api/login"
  then Ok (response 1 "denied" None)
  else Ok (response 401 "TOKEN_INVALID" None).

Definition expired_world : World :=
  demo_world expired_server (fun _ => Pending) (fun _ => Pending) (fun _ => Pending).

(** The server answers every call, the nonce request too, with the
    expired-session message. *)
Definition always_expired_world : World :=
  demo_world (fun _ _ => Ok (response 401 "TOKEN_INVALID" None))
    (fun _ => Pending) (fun _ => Pending) (fun _ => Pending).

Definition is_login (ev : Event) : bool :=
  match ev with
  | EvLogin _ _ => true
  | _ => false
  end.

(** ** The orchestrator and the account loop *)

(** A login that the server refuses with a non-zero code, at the nonce
    request or at the token request; it ends in the state [c'] after the
    effects [sub]. *)
Definition login_refused (w : World) (depth : nat) (c c' : Client)
    (sub : list Event) : Prop :=
  (exists res d,
      requestWithRetry w depth "post" (loginWallet (endpoints (CONFIG w)))
        (BodyAddr (w_address w)) None c = Some (Ok (Some res), c', sub) /\
      r_data res = Some d /\ code_is_zero d = false)
  \/
  (exists res d p nonce c1 tr1 res2 d2 tr2,
      requestWithRetry w depth "post" (loginWallet (endpoints (CONFIG w)))
        (BodyAddr (w_address w)) None c = Some (Ok (Some res), c1, tr1) /\
      r_data res = Some d /\ code_is_zero d = true /\
      d_data d = Some p /\ p_nonce p = Some nonce /\
      requestWithRetry w depth "post" (authWallet (endpoints (CONFIG w)))
        (BodyAuth (w_address w) (w_signMessage w nonce) nonce) None c1
        = Some (Ok (Some res2), c', tr2) /\
      r_data res2 = Some d2 /\ code_is_zero d2 = false /\
      sub = tr1 ++ tr2).

(** The account is due: its stored time is not in the future. *)
Definition due (env : Env) (i : nat) (acc : Account) (s : Main) : Prop :=
  getNextRunTime (db s) (w_address (client_world env i acc))
    <= date_now env (clock_reads s).

(** An environment whose only account is on cooldown until time 5000,
    read at time 1000. *)
Definition resting_env : Env :=
  mkEnv demo_config (fun _ => 1000) (fun _ _ => expired_world).

Definition resting_main : Main :=
  mkMain (mkWalletDB {[ "0xabc1" := 5000 ]} None) [] 0.

Definition demo_account : Account := mkAccount "0xkey" None.

(** The call data of the RPC calls of a cycle: one of the two fixed
    selectors, then encoded parameters of the matching types. *)
Definition task_calldata (w : World) (ev : Event) : Prop :=
  (exists paramValues,
      selector_first w FUNCTION_SELECTORS_SUBMIT_REQUEST ["uint256"; "string"]
        paramValues ev) \/
  (exists paramValues,
      selector_first w FUNCTION_SELECTORS_SUBMIT_AGENT
        ["uint256"; "string"; "string"] paramValues ev).

Definition is_rpc (ev : Event) : bool :=
  match ev with
  | EvEstimateGas _ _ _ | EvSendTx _ _ _ _ | EvWait _ _ _ => true
  | _ => false
  end.

(** The world [w] with another name-based encoder. *)
Definition with_populate (w : World)
    (populate : ContractFunc -> list AbiValue -> Res TxRequest) : World :=
  mkWorld (CONFIG w) (w_axios w) (w_signMessage w) (w_abi_encode w) populate
    (w_estimateGas w) (w_sendTransaction w) (w_wait w) (w_random w)
    (w_address w) (w_match_pts w).

(** A hex string of four bytes: [0x] and eight digits. *)
Definition four_bytes (s : string) : Prop :=
  String.prefix "0x" s = true /\ String.length s = 10%nat /\
  forallb (fun c => existsb (Ascii.eqb c) (list_ascii_of_string "0123456789abcdef"))
    (list_ascii_of_string (slice 2 s)) = true.

(** The create-call of an action, issued in state [c], came back in state
    [c'] with a success code and the identifier [id]. *)
Definition created (w : World) (depth : nat) (url : string) (body : Body)
    (c : Client) (id : Z) (c' : Client) (tr : list Event) : Prop :=
  exists res d,
    requestWithRetry w depth "post" url body None c = Some (Ok (Some res), c', tr) /\
    r_data res = Some d /\ created_id d = Some id.

(** The end-to-end scenario: nothing is done yet; both create-calls
    succeed, with identifiers 42 and 99; the first submission is confirmed
    (the third RPC call) and the second one is mined with a failure
    status (the sixth RPC call). *)
Definition scenario_server (n : nat) (cfg : AxiosConfig) : Res Response :=
  let url := ax_url cfg in
  if String.eqb url "/api/login" then
    Ok (response 0 "ok" (Some (mkPayload None (Some "nonce-1") None false false None None)))
  else if String.eqb url "/api/auth" then
    Ok (response 0 "ok" (Some (mkPayload None None (Some "token-1") false false None None)))
  else if String.eqb url "/api/verify" then
    Ok (response 0 "ok" (Some (mkPayload None None None false false None None)))
  else if String.eqb url "/api/request" then
    Ok (response 0 "ok" (Some (mkPayload (Some 42) None None false false None None)))
  else if String.eqb url "/api/agent" then
    Ok (response 0 "ok" (Some (mkPayload (Some 99) None None false false None None)))
  else Throw (mkJsError None "Request failed with status code 404" (Some 404)).

Definition scenario_world : World :=
  demo_world scenario_server
    (fun _ => Settles 120 (Ok 50000))
    (fun _ => Settles 300 (Ok (mkTx "0xfeed")))
    (fun n => Settles 4000 (Ok (mkReceipt (Some (if (n =? 2)%nat then 1 else 0))))).

Definition scenario_env : Env :=
  mkEnv demo_config (fun n => 1000 + Z.of_nat n) (fun _ _ => scenario_world).

(** A bot started at time 50000, with a loop interval of one hour. *)
Definition restart_env : Env :=
  mkEnv (mkConfig "https://four.example" demo_endpoints "0xA9e17" 3600000)
    (fun n => 50000 + Z.of_nat n) (fun _ _ => scenario_world).

(** [m'] returns whatever [m] returns: the order in which a larger
    re-login depth refines a smaller one. *)
Definition refines {A} (m m' : M A) : Prop :=
  forall c x, m c = Some x -> m' c = Some x.

(** The estimation never settles; the broadcast and the confirmation
    succeed. *)
Definition hung_estimate_world : World :=
  demo_world (fun _ _ => Throw (Error "unused"))
    (fun _ => Pending)
    (fun _ => Settles 300 (Ok (mkTx "0xfeed")))
    (fun _ => Settles 4000 (Ok (mkReceipt (Some 1)))).

(** The node answers the estimation with an error that is no revert. *)
Definition failing_estimate_world : World :=
  demo_world (fun _ _ => Throw (Error "unused"))
    (fun _ => Settles 50 (Throw (mkJsError (Some "SERVER_ERROR") "bad gateway" None)))
    (fun _ => Settles 300 (Ok (mkTx "0xfeed")))
    (fun _ => Settles 4000 (Ok (mkReceipt (Some 1)))).

(** Every call is reset by the peer. *)
Definition offline_world : World :=
  demo_world (fun n _ => Throw (mkJsError (Some "ECONNRESET")
                                  ("socket hang up #" +:+ pretty n) None))
    (fun _ => Pending) (fun _ => Pending) (fun _ => Pending).

(** * Further vocabulary: whole runs *)

(** ** Whole runs of the submitters *)

(** The time an awaited effect takes, in milliseconds. *)
Definition duration (ev : Event) : Z :=
  match ev with
  | EvSleep ms => ms
  | EvEstimateGas _ _ t => t
  | EvSendTx _ _ _ t => t
  | EvWait _ _ t => t
  | _ => 0
  end.

(** The time a run spends awaiting its effects. *)
Fixpoint elapsed_time (tr : list Event) : Z :=
  match tr with
  | [] => 0
  | ev :: tr' => duration ev + elapsed_time tr'
  end.

Definition is_estimate (ev : Event) : bool :=
  match ev with
  | EvEstimateGas _ _ _ => true
  | _ => false
  end.

Definition is_send (ev : Event) : bool :=
  match ev with
  | EvSendTx _ _ _ _ => true
  | _ => false
  end.

(** The runs of the loop of [sendRawTransaction] from the iteration of
    index [i] on, once the call data [req] is built: the budget is used
    up, or an iteration returns, or it asks for the next one. *)
Inductive raw_run (req : TxRequest) (retries : Z) : Z -> list Event -> bool -> Prop :=
| RR_exhausted i :
    retries <= i -> raw_run req retries i [] false
| RR_return i tr b :
    i < retries ->
    raw_attempt req retries i tr (Return b) ->
    raw_run req retries i tr b
| RR_next i tr tr' b :
    i < retries - 1 ->
    raw_attempt req retries i tr (Next tt) ->
    raw_run req retries (i + 1) tr' b ->
    raw_run req retries i (tr ++ tr') b.

(** What an RPC event may directly follow: a broadcast follows the
    estimation of the same request, and the wait for a confirmation
    follows the broadcast that was answered in time with its
    transaction. *)
Definition follows (prev : option Event) (ev : Event) : Prop :=
  match ev with
  | EvSendTx req _ _ _ => exists p t, prev = Some (EvEstimateGas req p t)
  | EvWait tx _ _ =>
      exists req g t, prev = Some (EvSendTx req g (Settles t (Ok tx)) t) /\ t < 30000
  | _ => True
  end.

(** Every event of the trace follows what it may follow; [prev] is the
    event before the trace. *)
Fixpoint well_ordered (prev : option Event) (tr : list Event) : Prop :=
  match tr with
  | [] => True
  | ev :: tr' => follows prev ev /\ well_ordered (Some ev) tr'
  end.

(** A broadcast or a confirmation that the timer of [runWithTimeout] cut
    off. *)
Definition cut_off (ev : Event) : Prop :=
  match ev with
  | EvSendTx _ _ p _ => timed_out p 30000
  | EvWait _ p _ => timed_out p 60000
  | _ => False
  end.

(** A world whose encoder rejects the parameters, as ethers does with
    [INVALID_ARGUMENT] for a value that does not fit its type. *)
Definition bad_encoder_world : World :=
  mkWorld demo_config (fun _ _ => Throw (Error "unused"))
    (fun nonce => "signed:" +:+ nonce)
    (fun _ _ => Throw (mkJsError (Some "INVALID_ARGUMENT") "invalid BigNumberish value" None))
    (fun _ _ => Ok (mkTxRequest "0xA9e17" "0x00"))
    (fun _ _ => Pending)
    (fun _ _ _ => Pending)
    (fun _ _ => Pending)
    (fun n => n)
    "0xAbC1"
    (fun _ => None).

(** How many events of a trace satisfy [f]. *)
Fixpoint count_events (f : Event -> bool) (tr : list Event) : nat :=
  match tr with
  | [] => O
  | ev :: tr' => (if f ev then 1 else 0) + count_events f tr'
  end.

(** The client after one more RPC call. *)
Definition after_rpc (c : Client) : Client :=
  mkClient (authorization c) (http_calls c) (S (rpc_calls c)) (tids c) (draws c).

(** The node never answers the wait for a confirmation: estimations and
    broadcasts succeed, [tx.wait()] stays pending. *)
Definition unconfirmed_world : World :=
  demo_world (fun _ _ => Throw (Error "unused"))
    (fun _ => Settles 120 (Ok 50000))
    (fun _ => Settles 300 (Ok (mkTx "0xfeed")))
    (fun _ => Pending).

(** The node reports a revert when asked to estimate. *)
Definition reverting_world : World :=
  demo_world (fun _ _ => Throw (Error "unused"))
    (fun _ => Settles 80 (Throw (mkJsError (Some "CALL_EXCEPTION") "execution reverted" None)))
    (fun _ => Pending)
    (fun _ => Pending).

(** ** Whole runs of [requestWithRetry] *)

(** What a call makes of the outcome of a request it reissued. *)
Definition reissued (out : Res Response) : Res (option Response) :=
  match out with
  | Ok res => Ok (Some res)
  | Throw e => Throw e
  end.

(** What follows an attempt that was rejected with a 401 or a 403, in a
    run that ends in [res]: one re-login and, when it succeeded, the
    request once more, whose outcome is the outcome of the call; when it
    failed, the rejection itself is thrown. *)
Definition auth_error_handled (res : Res (option Response)) (ev : Event)
    (post : list Event) : Prop :=
  match ev with
  | EvAxios (SiteAttempt _) _ (Throw e) =>
      isAuthError e = true ->
      (exists sub, post = [EvLogin sub false] /\ res = Throw e) \/
      (exists sub cfg out,
          post = [EvLogin sub true; EvAxios SiteReissue cfg out] /\
          res = reissued out)
  | _ => True
  end.

(** Where the result of a run of [requestWithRetry] comes from. *)
Definition result_origin (retries : Z) (tr : list Event)
    (res : Res (option Response)) : Prop :=
  match res with
  | Ok (Some r) => exists site cfg, last tr = Some (EvAxios site cfg (Ok r))
  | Ok None => tr = [] /\ retries <= 0
  | Throw e =>
      (exists site cfg, last tr = Some (EvAxios site cfg (Throw e))) \/
      (exists sub, last tr = Some (EvLogin sub false) /\
                   (isAuthError e = true \/ e = Error "Re-login failed during retry"))
  end.

(** A server that is down for the first call of a client and answers
    [ok] from then on. *)
Definition flaky_server (n : nat) (cfg : AxiosConfig) : Res Response :=
  match n with
  | O => Throw (mkJsError (Some "ECONNRESET") "socket hang up" None)
  | S _ => Ok (response 0 "ok" None)
  end.

Definition flaky_world : World :=
  demo_world flaky_server (fun _ => Pending) (fun _ => Pending) (fun _ => Pending).

(** A server that answers the first call of a client with a 401, accepts
    the login that follows and then answers [ok]. *)
Definition unauthorized_once_server (n : nat) (cfg : AxiosConfig) : Res Response :=
  match n with
  | O => Throw (mkJsError (Some "ERR_BAD_REQUEST") "Request failed with status code 401"
                  (Some 401))
  | S _ => scenario_server n cfg
  end.

Definition unauthorized_once_world : World :=
  demo_world unauthorized_once_server (fun _ => Pending) (fun _ => Pending)
    (fun _ => Pending).

(** ** Outcomes of [login] and [runDailyTasks] *)

(** A login that went through: both requests came back with code 0, the
    second one for the wallet's signature of the nonce of the first. *)
Definition login_accepted (w : World) (depth : nat) (c c' : Client)
    (sub : list Event) : Prop :=
  exists nonceRes nd np nonce c1 tr1 authRes ad ap c2 tr2,
    requestWithRetry w depth "post" (loginWallet (endpoints (CONFIG w)))
      (BodyAddr (w_address w)) None c = Some (Ok (Some nonceRes), c1, tr1) /\
    r_data nonceRes = Some nd /\ code_is_zero nd = true /\
    d_data nd = Some np /\ p_nonce np = Some nonce /\
    requestWithRetry w depth "post" (authWallet (endpoints (CONFIG w)))
      (BodyAuth (w_address w) (w_signMessage w nonce) nonce) None c1
    = Some (Ok (Some authRes), c2, tr2) /\
    r_data authRes = Some ad /\ code_is_zero ad = true /\ d_data ad = Some ap /\
    sub = tr1 ++ tr2 /\
    authorization c' = Some ("Bearer " +:+ default "undefined" (p_token ap)).

(** The results [runDailyTasks] can have. *)
Definition result_classes (res : TaskResult) : Prop :=
  (success res = false /\ points res = None /\
   (result_status res = "Login Failed" \/ result_status res = "Error")) \/
  (success res = true /\ points res <> None /\
   (result_status res = "Work Done" \/ result_status res = "Already Done")).

(** The server reports both actions as done. *)
Definition done_server (n : nat) (cfg : AxiosConfig) : Res Response :=
  if String.eqb (ax_url cfg) "/api/verify" then
    Ok (response 0 "ok"
          (Some (mkPayload None None None true true (Some "You have 150 pts") None)))
  else scenario_server n cfg.

Definition done_world : World :=
  mkWorld demo_config done_server
    (fun nonce => "signed:" +:+ nonce)
    (fun _ _ => Ok "0xabcdef")
    (fun _ _ => Ok (mkTxRequest "0xA9e17" "0x00"))
    (fun _ _ => Pending)
    (fun _ _ _ => Pending)
    (fun _ _ => Pending)
    (fun n => n)
    "0xAbC1"
    (fun m => if String.eqb m "You have 150 pts" then Some "150" else None).

(** The create-call of the agent action meets a dead connection; the
    rest is as in the end-to-end scenario. *)
Definition agent_down_server (n : nat) (cfg : AxiosConfig) : Res Response :=
  if String.eqb (ax_url cfg) "/api/agent" then
    Throw (mkJsError (Some "ECONNRESET") "socket hang up" None)
  else scenario_server n cfg.

Definition agent_down_world : World :=
  demo_world agent_down_server
    (fun _ => Settles 120 (Ok 50000))
    (fun _ => Settles 300 (Ok (mkTx "0xfeed")))
    (fun _ => Settles 4000 (Ok (mkReceipt (Some 1)))).

(** ** The account loop *)

(** The content of the last write of the store in a trace of [main]. *)
Fixpoint last_saved (tr : list MainEvent) : option (gmap string Z) :=
  match tr with
  | [] => None
  | MSave m :: tr' =>
      match last_saved tr' with
      | Some m' => Some m'
      | None => Some m
      end
  | _ :: tr' => last_saved tr'
  end.

(** An environment in which the agent action meets a dead connection. *)
Definition agent_down_env : Env :=
  mkEnv demo_config (fun n => 1000 + Z.of_nat n) (fun _ _ => agent_down_world).

(** Two accounts: the first one meets a dead connection at the agent
    action, the second one the server of the end-to-end scenario. *)
Definition mixed_env : Env :=
  mkEnv demo_config (fun n => 1000 + Z.of_nat n)
    (fun i _ =>
       match i with
       | O => agent_down_world
       | S _ =>
           mkWorld demo_config scenario_server
             (fun nonce => "signed:" +:+ nonce)
             (fun _ _ => Ok "0xabcdef")
             (fun _ _ => Ok (mkTxRequest "0xA9e17" "0x00"))
             (fun _ _ => Settles 120 (Ok 50000))
             (fun _ _ _ => Settles 300 (Ok (mkTx "0xfeed")))
             (fun _ _ => Settles 4000 (Ok (mkReceipt (Some 1))))
             (fun n => n)
             "0xDeF2"
             (fun _ => None)
       end).

(** What follows, while the budget lasts, an attempt that was rejected
    with an error other than a 401 or a 403: the pause, a new axios
    instance exactly when the error counts as a network error, and the
    next attempt. *)
Definition retry_rule (retries : Z) (ev : Event) (post : list Event) : Prop :=
  match ev with
  | EvAxios (SiteAttempt i) _ (Throw e) =>
      isAuthError e = false -> i < retries - 1 ->
      exists cfg out post',
        post = EvSleep ((i + 1) * 3000)
                 :: (if isNetworkError e then [EvInitAxios] else [])
                 ++ EvAxios (SiteAttempt (i + 1)) cfg out :: post'
  | _ => True
  end.

(** A server that answers the first call of a client with an HTTP 500
    and the following ones with [ok]. *)
Definition failing_once_server (n : nat) (cfg : AxiosConfig) : Res Response :=
  match n with
  | O => Throw (mkJsError (Some "ERR_BAD_RESPONSE") "Request failed with status code 500"
                  (Some 500))
  | S _ => Ok (response 0 "ok" None)
  end.

Definition failing_once_world : World :=
  demo_world failing_once_server (fun _ => Pending) (fun _ => Pending) (fun _ => Pending).

(** The points of a cycle of [src/index.js], from the outcome of the
    score request: [userRes.data.data?.credit || 0], or [?] when the
    request threw or brought no [data]. *)
Definition score_result (r : Res (option Response)) : Points :=
  match r with
  | Ok (Some userRes) =>
      match r_data userRes with
      | Some d => IndexJs.creditOf d
      | None => PStr "?"
      end
  | _ => PStr "?"
  end.

(** ** The two submitters side by side *)

(** What follows an estimation in a run of [sendTransactionWithRetry] that
    returns [b].  Nothing is raced against a timer, so the estimation has
    settled, after however long; a revert ends the run with [false]; any
    other error is followed by a broadcast with a gas limit of 500000; an
    estimate is followed by a broadcast with the estimate times 120 over
    100. *)
Definition legacy_gas_policy (b : bool) (ev : Event) (post : list Event) : Prop :=
  match ev with
  | EvEstimateGas req p elapsed =>
      exists r, p = Settles elapsed r /\
        match r with
        | Ok est =>
            exists p2 t2 post',
              post = EvSendTx req (Z.quot (est * 120) 100) p2 t2 :: post'
        | Throw e =>
            if isRevert e then post = [] /\ b = false
            else exists p2 t2 post', post = EvSendTx req 500000 p2 t2 :: post'
        end
  | _ => True
  end.

(** The call data of the RPC calls that [sendTransactionWithRetry] makes
    for [contractFunc(...args)]: the transaction that ethers builds by
    resolving the method by its name in [AGENT_ABI]. *)
Definition name_resolved (w : World) (contractFunc : ContractFunc)
    (args : list AbiValue) (ev : Event) : Prop :=
  match ev with
  | EvEstimateGas req _ _ => w_populate w contractFunc args = Ok req
  | EvSendTx req _ _ _ => w_populate w contractFunc args = Ok req
  | _ => True
  end.

(** The call data of the RPC calls of a cycle of [src/index.js]. *)
Definition task_name_resolved (w : World) (ev : Event) : Prop :=
  (exists args, name_resolved w submitRequest args ev) \/
  (exists args, name_resolved w submitAgent args ev).

(** ** Clients that cannot be constructed *)

(** What [new FourBSCClient(acc.privateKey, acc.proxy, i + 1)] throws for
    an account, if it throws: [new ethers.Wallet] rejects a private key
    that is not 32 bytes of hex, and the proxy agents that [initAxios]
    makes reject a proxy that is no URL. *)
Definition ConstructorError : Type := Account -> option JsError.

Section Visits.

Variable env : Env.
Variable runDailyTasks : World -> nat -> M TaskResult.
Variable depth : nat.
Variable constructorError : ConstructorError.

(** The body of the loop of [main] from its first statement: the client
    is constructed outside any [try], so what the constructor throws
    leaves the loop, and [main]. *)
Definition visitAccount (i : nat) (acc : Account) (s : Main)
    : option (Res unit * Main * list MainEvent) :=
  match constructorError acc with
  | Some e => Some (Throw e, s, [])
  | None => processAccount env runDailyTasks depth i acc s
  end.

Fixpoint visit_accounts (i : nat) (accounts : list Account) (s : Main)
    : option (Res unit * Main * list MainEvent) :=
  match accounts with
  | [] => Some (Ok tt, s, [])
  | acc :: rest =>
      match visitAccount i acc s with
      | None => None
      | Some (Throw e, s1, tr1) => Some (Throw e, s1, tr1)
      | Some (Ok _, s1, tr1) =>
          match visit_accounts (S i) rest s1 with
          | None => None
          | Some (r, s2, tr2) => Some (r, s2, tr1 ++ tr2)
          end
      end
  end.

(** One pass of [while (true)], up to the summary. *)
Definition runPass (accounts : list Account) (d : WalletDB) (reads : nat)
    : option (Res unit * Main * list MainEvent) :=
  visit_accounts 0 accounts (mkMain d [] reads).

(** The states of [main] that come after a state, in the same process:
    after further visits, and after the start of further passes, which
    empties [summaryData]. *)
Inductive visits_after : Main -> Main -> Prop :=
| VA_here s : visits_after s s
| VA_visit s i acc s1 tr s2 :
    processAccount env runDailyTasks depth i acc s = Some (Ok tt, s1, tr) ->
    visits_after s1 s2 ->
    visits_after s s2
| VA_pass s s2 :
    visits_after (mkMain (db s) [] (clock_reads s)) s2 ->
    visits_after s s2.

End Visits.

(** A private key that ethers rejects. *)
Definition bad_account : Account := mkAccount "not-a-key" None.

Definition rejects_bad_key : ConstructorError :=
  fun acc =>
    if String.eqb (privateKey acc) "not-a-key"
    then Some (mkJsError (Some "INVALID_ARGUMENT") "invalid private key" None)
    else None.

(** * Reasoning about [async] methods *)

Lemma bind_Some {A B} (m : M A) (k : A -> M B) c r c2 tr :
  bind m k c = Some (r, c2, tr) ->
  (exists e, m c = Some (Throw e, c2, tr) /\ r = Throw e) \/
  (exists a c1 tr1 tr2,
      m c = Some (Ok a, c1, tr1) /\ k a c1 = Some (r, c2, tr2) /\ tr = tr1 ++ tr2).
Proof.
  unfold bind. destruct (m c) as [[[[a|e] c1] tr1]|]; [| |discriminate].
  - destruct (k a c1) as [[[r' c2'] tr2]|] eqn:Hk; [|discriminate].
    intros [= <- <- <-]. right. eauto 10.
  - intros [= <- <- <-]. left. eauto.
Qed.

Lemma try_catch_Some {A} (m : M A) (h : JsError -> M A) c r c2 tr :
  try_catch m h c = Some (r, c2, tr) ->
  (exists a, m c = Some (Ok a, c2, tr) /\ r = Ok a) \/
  (exists e c1 tr1 tr2,
      m c = Some (Throw e, c1, tr1) /\ h e c1 = Some (r, c2, tr2) /\ tr = tr1 ++ tr2).
Proof.
  unfold try_catch. destruct (m c) as [[[[a|e] c1] tr1]|]; [| |discriminate].
  - intros [= <- <- <-]. left. eauto.
  - destruct (h e c1) as [[[r' c2'] tr2]|] eqn:Hh; [|discriminate].
    intros [= <- <- <-]. right. eauto 10.
Qed.

Lemma ret_Some {A} (a : A) c r c' tr :
  ret a c = Some (r, c', tr) -> r = Ok a /\ c' = c /\ tr = [].
Proof. intros [= <- <- <-]. done. Qed.

Lemma throw_Some {A} e c (r : Res A) c' tr :
  throw e c = Some (r, c', tr) -> r = Throw e /\ c' = c /\ tr = [].
Proof. intros [= <- <- <-]. done. Qed.

Lemma lift_Some {A} (x : Res A) c r c' tr :
  lift x c = Some (r, c', tr) -> r = x /\ c' = c /\ tr = [].
Proof. intros [= <- <- <-]. done. Qed.

Lemma sleep_Some ms c r c' tr :
  sleep ms c = Some (r, c', tr) -> r = Ok tt /\ c' = c /\ tr = [EvSleep ms].
Proof. intros [= <- <- <-]. done. Qed.

Lemma generateTid_Some c r c' tr :
  generateTid c = Some (r, c', tr) -> r = Ok (tids c) /\ tr = [].
Proof. intros [= <- <- <-]. done. Qed.

Lemma axios_call_Some w site method url data tid c r c' tr :
  axios_call w site method url data tid c = Some (r, c', tr) ->
  exists cfg, tr = [EvAxios site cfg r] /\ ax_url cfg = url /\ ax_tid cfg = tid.
Proof. intros [= <- <- <-]. eauto. Qed.

Lemma initAxios_Some c r c' tr :
  initAxios c = Some (r, c', tr) -> r = Ok tt /\ tr = [EvInitAxios].
Proof. intros [= <- <- <-]. done. Qed.

Lemma set_authorization_Some v c r c' tr :
  set_authorization v c = Some (r, c', tr) -> r = Ok tt /\ tr = [].
Proof. intros [= <- <- <-]. done. Qed.

Lemma random_below_Some w k c r c' tr :
  random_below w k c = Some (r, c', tr) -> exists n, r = Ok n /\ tr = [].
Proof. intros [= <- <- <-]. eauto. Qed.

Lemma await_rpc_Some {A} (call : nat -> Promise A) race ev c r c' tr :
  await_rpc call race ev c = Some (r, c', tr) ->
  exists t, race (call (rpc_calls c)) = Settles t r /\
            tr = [ev (call (rpc_calls c)) t].
Proof.
  unfold await_rpc. destruct (race _) as [t r'|]; [|discriminate].
  intros [= <- <- <-]. eauto.
Qed.

(** Symbolic execution of a run that is known to return. *)

Ltac inv_run :=
  repeat match goal with
  | H : bind _ _ _ = Some _ |- _ =>
      apply bind_Some in H as [(? & H & ?)|(? & ? & ? & ? & ? & H & ?)]
  | H : try_catch _ _ _ = Some _ |- _ =>
      apply try_catch_Some in H as [(? & H & ?)|(? & ? & ? & ? & ? & H & ?)]
  | H : ret _ _ = Some _ |- _ => apply ret_Some in H as (? & ? & ?)
  | H : throw _ _ = Some _ |- _ => apply throw_Some in H as (? & ? & ?)
  | H : lift _ _ = Some _ |- _ => apply lift_Some in H as (? & ? & ?)
  | H : sleep _ _ = Some _ |- _ => apply sleep_Some in H as (? & ? & ?)
  | H : await_rpc _ _ _ _ = Some _ |- _ => apply await_rpc_Some in H as (? & ? & ?)
  | H : generateTid _ = Some _ |- _ => apply generateTid_Some in H as (? & ?)
  | H : axios_call _ _ _ _ _ _ _ = Some _ |- _ =>
      apply axios_call_Some in H as (? & ? & ? & ?)
  | H : initAxios _ = Some _ |- _ => apply initAxios_Some in H as (? & ?)
  | H : set_authorization _ _ = Some _ |- _ =>
      apply set_authorization_Some in H as (? & ?)
  | H : random_below _ _ _ = Some _ |- _ => apply random_below_Some in H as (? & ? & ?)
  | H : (if ?b then _ else _) _ = Some _ |- _ => destruct b eqn:?
  | H : match ?x with _ => _ end _ = Some _ |- _ => destruct x eqn:?
  | H : _ = Some _ |- _ => progress cbv beta in H
  | _ => progress simplify_eq
  end.

Lemma returns_ret {A} (a : A) : returns (ret a).
Proof. intros c. unfold ret. eauto. Qed.

Lemma returns_throw {A} e : returns (@throw A e).
Proof. intros c. unfold throw. eauto. Qed.

Lemma returns_lift {A} (x : Res A) : returns (lift x).
Proof. intros c. unfold lift. eauto. Qed.

Lemma returns_sleep ms : returns (sleep ms).
Proof. intros c. unfold sleep, emit. eauto. Qed.

Lemma returns_bind {A B} (m : M A) (k : A -> M B) :
  returns m -> (forall a, returns (k a)) -> returns (bind m k).
Proof.
  intros Hm Hk c. unfold bind.
  destruct (Hm c) as ([a|e] & c1 & tr1 & ->); [|eauto].
  destruct (Hk a c1) as (r & c2 & tr2 & ->). eauto.
Qed.

Lemma returns_try_catch {A} (m : M A) (h : JsError -> M A) :
  returns m -> (forall e, returns (h e)) -> returns (try_catch m h).
Proof.
  intros Hm Hh c. unfold try_catch.
  destruct (Hm c) as ([a|e] & c1 & tr1 & ->); [eauto|].
  destruct (Hh e c1) as (r & c2 & tr2 & ->). eauto.
Qed.

(** An RPC call raced against a timer always settles. *)

Lemma returns_await_rpc_timeout {A} (call : nat -> Promise A) ms msg ev :
  returns (await_rpc call (fun p => runWithTimeout p ms msg) ev).
Proof.
  intros c. unfold await_rpc, runWithTimeout.
  destruct (call (rpc_calls c)) as [t r|]; [destruct (t <? ms)|]; eauto.
Qed.

Ltac solve_returns :=
  repeat (cbv beta zeta;
          lazymatch goal with
          | |- returns (ret _) => apply returns_ret
          | |- returns (throw _) => apply returns_throw
          | |- returns (lift _) => apply returns_lift
          | |- returns (sleep _) => apply returns_sleep
          | |- returns (await_rpc _ (fun p => runWithTimeout p _ _) _) =>
              apply returns_await_rpc_timeout
          | |- returns (bind _ _) => apply returns_bind
          | |- returns (try_catch _ _) => apply returns_try_catch
          | |- returns (if ?b then _ else _) => destruct b
          | |- returns (match ?x with _ => _ end) => destruct x
          | |- forall _, _ => intros ?
          end).

Lemma for_loop_returns {R} (body : Z -> M (Ctl R unit)) (after : M R) :
  (forall i, returns (body i)) -> returns after ->
  forall n i, returns (for_loop n i body after).
Proof.
  intros Hbody Hafter. induction n as [|n IH]; intros i; simpl; [done|].
  apply returns_bind; [done|]. intros [r|[]]; [apply returns_ret|apply IH].
Qed.

Lemma for_loop_run {R} (body : Z -> M (Ctl R unit)) (after : M R) S S_after :
  (forall i c res c' tr, body i c = Some (res, c', tr) -> S i tr res) ->
  (forall c res c' tr, after c = Some (res, c', tr) -> S_after tr res) ->
  forall n i c res c' tr,
    for_loop n i body after c = Some (res, c', tr) ->
    loop_run S S_after n i tr res.
Proof.
  intros Hbody Hafter. induction n as [|n IH]; intros i c res c' tr; simpl.
  - intros H. apply LR_exit. eauto.
  - intros H. apply bind_Some in H as [(e & Hb & ->)|(ctl & c1 & tr1 & tr2 & Hb & Hk & ->)].
    + apply LR_throw. eauto.
    + destruct ctl as [r|[]].
      * injection Hk as <- <- <-. rewrite app_nil_r. apply LR_return. eauto.
      * eapply LR_next; eauto.
Qed.

Lemma each_suffix_split {A} (P : A -> list A -> Prop) l :
  each_suffix P l <-> forall pre x post, l = pre ++ x :: post -> P x post.
Proof.
  split.
  - intros H pre. revert l H. induction pre as [|y pre IH]; intros l H x post ->.
    + apply H.
    + simpl in H. eapply IH; [apply H|reflexivity].
  - induction l as [|y l IH]; simpl; [done|]. intros H. split.
    + apply (H [] y l). reflexivity.
    + apply IH. intros pre x post ->. apply (H (y :: pre) x post). reflexivity.
Qed.

(** * The chain submitters *)

Ltac solve_decision :=
  unfold raw_gas_decision, legacy_gas_decision, submit_catch;
  repeat match goal with
  | H : ?b = true |- context [?b] => rewrite H
  | H : ?b = false |- context [?b] => rewrite H
  end;
  reflexivity.

Section ChainProofs.

Variable w : World.

Lemma runWithTimeout_in_time {A} (p : Promise A) ms msg t r :
  p = Settles t r -> t < ms -> runWithTimeout p ms msg = Settles t r.
Proof. intros -> Ht. simpl. destruct (Z.ltb_spec t ms); [done|lia]. Qed.

Lemma runWithTimeout_timed_out {A} (p : Promise A) ms msg :
  timed_out p ms -> runWithTimeout p ms msg = Settles ms (Throw (Error msg)).
Proof.
  destruct p as [t r|]; simpl; [|done]. intros Ht.
  destruct (Z.ltb_spec t ms); [lia|done].
Qed.

Lemma runWithTimeout_elapsed {A} (p : Promise A) ms msg t r :
  runWithTimeout p ms msg = Settles t r -> t <= ms.
Proof.
  destruct p as [t0 r0|]; simpl.
  - destruct (Z.ltb_spec t0 ms); intros [= <- <-]; lia.
  - intros [= <- <-]. lia.
Qed.

Lemma estimate_facts p t r :
  runWithTimeout p 10000 "Gas Estimate Timeout" = Settles t r ->
  t <= 10000 /\
  (timed_out p 10000 -> raw_gas_decision r = Next 300000) /\
  (forall t0 e, p = Settles t0 (Throw e) -> t0 < 10000 ->
     raw_gas_decision r
     = if String.eqb (err_message e) "Gas Estimate Timeout" then Next 300000
       else if isRevert e then Return false else Next 200000) /\
  (forall t0 est, p = Settles t0 (Ok est) -> t0 < 10000 ->
     raw_gas_decision r = Next (Z.quot (est * 120) 100)).
Proof.
  intros Hrace. split; [eauto using runWithTimeout_elapsed|]. split; [|split].
  - intros Hout. rewrite (runWithTimeout_timed_out _ _ _ Hout) in Hrace.
    injection Hrace as <- <-. reflexivity.
  - intros t0 e Hp Ht.
    rewrite (runWithTimeout_in_time _ _ _ _ _ Hp Ht) in Hrace.
    injection Hrace as <- <-. reflexivity.
  - intros t0 est Hp Ht.
    rewrite (runWithTimeout_in_time _ _ _ _ _ Hp Ht) in Hrace.
    injection Hrace as <- <-. reflexivity.
Qed.

Local Opaque runWithTimeout isRevert String.eqb slice.

Lemma sendRawTransaction_attempt_spec selector paramTypes paramValues retries i c
    res c' tr :
  sendRawTransaction_attempt w selector paramTypes paramValues retries i c
    = Some (res, c', tr) ->
  raw_attempt_spec w selector paramTypes paramValues retries i tr res.
Proof.
  unfold sendRawTransaction_attempt, raw_attempt_spec. intros H.
  inv_run.
  all: eexists; split; [reflexivity|].
  all: match goal with H : _ = w_abi_encode _ _ _ |- _ => rewrite <- H end.
  all: cbn [app].
  all: try solve_decision.
  all: try match goal with
       | H : status_is _ _ = _ |- _ => rewrite <- H
       end.
  all: first
    [ solve [eapply RA_estimate; [eassumption|solve_decision]]
    | solve [eapply RA_receipt; [eassumption|solve_decision|eassumption..]]
    | solve [eapply RA_send; [eassumption|solve_decision|eassumption|solve_decision]]
    | solve [eapply RA_wait; [eassumption|solve_decision|eassumption..|solve_decision]]
    | idtac ].
Qed.

Lemma sendRawTransaction_attempt_returns selector paramTypes paramValues retries i :
  returns (sendRawTransaction_attempt w selector paramTypes paramValues retries i).
Proof. unfold sendRawTransaction_attempt. solve_returns. Qed.

Lemma sendRawTransaction_run selector paramTypes paramValues retries c :
  exists b c' tr,
    sendRawTransaction w selector paramTypes paramValues retries c
      = Some (Ok b, c', tr) /\
    loop_run (raw_attempt_spec w selector paramTypes paramValues (default 3 retries))
      (fun tr r => tr = [] /\ r = Ok false)
      (Z.to_nat (default 3 retries)) 0 tr (Ok b).
Proof.
  destruct (for_loop_returns
              (sendRawTransaction_attempt w selector paramTypes paramValues
                 (default 3 retries))
              (ret false)
              (sendRawTransaction_attempt_returns _ _ _ _)
              (returns_ret _)
              (Z.to_nat (default 3 retries)) 0 c) as (res & c' & tr & Hrun).
  pose proof Hrun as Hspec.
  eapply (for_loop_run _ _
            (raw_attempt_spec w selector paramTypes paramValues (default 3 retries))
            (fun tr r => tr = [] /\ r = Ok false)) in Hspec.
  2:{ intros. eapply sendRawTransaction_attempt_spec; eauto. }
  2:{ intros ? ? ? ? H. apply ret_Some in H as (-> & _ & ->). done. }
  assert (exists b, res = Ok b) as [b ->].
  { clear Hrun. induction Hspec as [i tr r [_ ->]|n i tr r _|n i tr e (ctl & Habs & _)|];
      [eauto|eauto|discriminate|assumption]. }
  exists b, c', tr. split; [exact Hrun|exact Hspec].
Qed.

(** A property of the events of every run of [sendRawTransaction] follows
    from the property of one iteration. *)

Lemma sendRawTransaction_each_suffix (P : bool -> Event -> list Event -> Prop)
    selector paramTypes paramValues retries c :
  (forall b ms rest, P b (EvSleep ms) rest) ->
  (forall encodedParams b i tr ctl rest,
      w_abi_encode w paramTypes paramValues = Ok encodedParams ->
      raw_attempt
        (mkTxRequest (agentContract (CONFIG w)) (selector +:+ slice 2 encodedParams))
        (default 3 retries) i tr ctl ->
      (ctl = Return b /\ rest = []) \/ ctl = Next tt ->
      each_suffix (P b) rest ->
      each_suffix (P b) (tr ++ rest)) ->
  exists b c' tr,
    sendRawTransaction w selector paramTypes paramValues retries c
      = Some (Ok b, c', tr) /\
    forall pre ev post, tr = pre ++ ev :: post -> P b ev post.
Proof.
  intros Hsleep Hattempt.
  destruct (sendRawTransaction_run selector paramTypes paramValues retries c)
    as (b & c' & tr & Hrun & Hloop).
  exists b, c', tr. split; [exact Hrun|]. apply each_suffix_split.
  clear Hrun. remember (Ok b) as res eqn:Hres. revert b Hres.
  induction Hloop as [i tr r [-> _]|n i tr r Hspec|n i tr e Hspec
                     |n i tr tr' r Hspec Hloop IH]; intros b Hres.
  - exact I.
  - injection Hres as ->. destruct Hspec as (ctl & [= ?] & Hspec). subst ctl.
    rewrite <- (app_nil_r tr).
    destruct (w_abi_encode w paramTypes paramValues) as [enc|e] eqn:Henc.
    + eapply Hattempt; eauto. exact I.
    + unfold submit_catch in Hspec.
      destruct (isRevert e); [|destruct (_ <? _)]; simplify_eq; exact I.
  - destruct Hspec as (ctl & [=] & _).
  - destruct Hspec as (ctl & [= ?] & Hspec). subst ctl.
    destruct (w_abi_encode w paramTypes paramValues) as [enc|e] eqn:Henc.
    + eapply Hattempt; eauto.
    + unfold submit_catch in Hspec.
      destruct (isRevert e); [|destruct (_ <? _)]; simplify_eq.
      simpl. split; [apply Hsleep|eauto].
Qed.

Lemma gas_policy_return req p t r b :
  runWithTimeout p 10000 "Gas Estimate Timeout" = Settles t r ->
  raw_gas_decision r = Return b ->
  gas_policy b (EvEstimateGas req p t) [].
Proof.
  intros Hrace Hdec. destruct (estimate_facts _ _ _ Hrace) as (Ht & Hout & Herr & Hok).
  split; [exact Ht|]. split; [|split].
  - intros H. rewrite (Hout H) in Hdec. discriminate.
  - intros t0 e Hp Ht0. rewrite (Herr _ _ Hp Ht0) in Hdec.
    destruct (String.eqb _ _); [discriminate|].
    destruct (isRevert e); [|discriminate]. injection Hdec as <-. done.
  - intros t0 est Hp Ht0. rewrite (Hok _ _ Hp Ht0) in Hdec. discriminate.
Qed.

Lemma gas_policy_next req p t r g b p2 t2 post :
  runWithTimeout p 10000 "Gas Estimate Timeout" = Settles t r ->
  raw_gas_decision r = Next g ->
  gas_policy b (EvEstimateGas req p t) (EvSendTx req g p2 t2 :: post).
Proof.
  intros Hrace Hdec. destruct (estimate_facts _ _ _ Hrace) as (Ht & Hout & Herr & Hok).
  split; [exact Ht|]. split; [|split].
  - intros H. rewrite (Hout H) in Hdec. injection Hdec as <-. eauto.
  - intros t0 e Hp Ht0. rewrite (Herr _ _ Hp Ht0) in Hdec.
    destruct (String.eqb _ _); [injection Hdec as <-; eauto|].
    destruct (isRevert e); [discriminate|]. injection Hdec as <-. eauto.
  - intros t0 est Hp Ht0. rewrite (Hok _ _ Hp Ht0) in Hdec.
    injection Hdec as <-. eauto.
Qed.

Lemma submit_catch_events (P : Event -> list Event -> Prop) retries i e ctl tr rest :
  submit_catch retries i e = (ctl, tr) ->
  (forall ms post, P (EvSleep ms) post) ->
  each_suffix P rest -> each_suffix P (tr ++ rest).
Proof.
  unfold submit_catch. intros H Hsleep Hrest.
  destruct (isRevert e); [|destruct (_ <? _)]; simplify_eq; simpl; eauto.
Qed.

(** Every run of [sendRawTransaction] returns, and each of its gas
    estimations is awaited for at most 10 seconds and followed as
    [gas_policy] says. *)
Lemma sendRawTransaction_gas_policy selector paramTypes paramValues retries c :
  exists b c' tr,
    sendRawTransaction w selector paramTypes paramValues retries c
      = Some (Ok b, c', tr) /\
    forall pre ev post, tr = pre ++ ev :: post -> gas_policy b ev post.
Proof.
  apply sendRawTransaction_each_suffix; [done|].
  intros enc b i tr ctl rest _ Hatt Hctl Hrest.
  destruct Hatt as [p t r b0 Hrace Hdec
                   |p t r g p2 t2 e ctl tr Hrace Hdec Hsend Hcatch
                   |p t r g p2 t2 tx p3 t3 e ctl tr Hrace Hdec Hsend Hwait Hcatch
                   |p t r g p2 t2 tx p3 t3 receipt Hrace Hdec Hsend Hwait].
  - destruct Hctl as [[[= <-] ->]|[=]]. simpl.
    split; [|done]. eapply gas_policy_return; eauto.
  - cbn [app each_suffix]. split; [eapply gas_policy_next; eauto|].
    split; [exact I|]. eapply submit_catch_events; eauto. done.
  - cbn [app each_suffix]. split; [eapply gas_policy_next; eauto|].
    split; [exact I|]. split; [exact I|].
    eapply submit_catch_events; eauto. done.
  - destruct Hctl as [[_ ->]|[=]]. cbn [app each_suffix].
    split; [eapply gas_policy_next; eauto|]. done.
Qed.


Lemma submit_catch_revert retries i e ctl tr :
  submit_catch retries i e = (ctl, tr) -> isRevert e = true ->
  ctl = Return false /\ tr = [].
Proof. unfold submit_catch. intros H Hrev. rewrite Hrev in H. by injection H as <- <-. Qed.

Lemma no_revert_estimate req p t r g post b :
  runWithTimeout p 10000 "Gas Estimate Timeout" = Settles t r ->
  raw_gas_decision r = Next g ->
  terminal_revert b (EvEstimateGas req p t) post.
Proof.
  intros Hrace Hdec (t0 & e & Hp & Ht0 & Hrev & Hmsg).
  destruct (estimate_facts _ _ _ Hrace) as (_ & _ & Herr & _).
  apply String.eqb_neq in Hmsg.
  rewrite (Herr _ _ Hp Ht0), Hmsg, Hrev in Hdec. discriminate.
Qed.

Lemma no_revert_fulfilled {A} (p : Promise A) ms msg t a t0 e :
  runWithTimeout p ms msg = Settles t (Ok a) ->
  p = Settles t0 (Throw e) -> t0 < ms -> False.
Proof.
  intros Hrace Hp Ht0. rewrite (runWithTimeout_in_time _ _ _ _ _ Hp Ht0) in Hrace.
  discriminate.
Qed.

Lemma revert_rejected {A} (p : Promise A) ms msg t e t0 e0 :
  runWithTimeout p ms msg = Settles t (Throw e) ->
  p = Settles t0 (Throw e0) -> t0 < ms -> e = e0.
Proof.
  intros Hrace Hp Ht0. rewrite (runWithTimeout_in_time _ _ _ _ _ Hp Ht0) in Hrace.
  congruence.
Qed.

(** C2.  Every run of [sendRawTransaction] returns, and a revert detected
    in it (at the estimation, at the broadcast, or by a receipt without
    the success status) is the last thing that happens in it: no pause, no
    further estimation and no further broadcast follow, whatever the
    retry budget, and the result is [false]. *)
Theorem revert_is_terminal selector paramTypes paramValues retries c :
  exists b c' tr,
    sendRawTransaction w selector paramTypes paramValues retries c
      = Some (Ok b, c', tr) /\
    forall pre ev post,
      tr = pre ++ ev :: post -> revert_detected ev -> post = [] /\ b = false.
Proof.
  apply (sendRawTransaction_each_suffix terminal_revert); [by intros ? ? ? []|].
  intros enc b i tr ctl rest _ Hatt Hctl Hrest.
  destruct Hatt as [p t r b0 Hrace Hdec
                   |p t r g p2 t2 e ctl tr Hrace Hdec Hsend Hcatch
                   |p t r g p2 t2 tx p3 t3 e ctl tr Hrace Hdec Hsend Hwait Hcatch
                   |p t r g p2 t2 tx p3 t3 receipt Hrace Hdec Hsend Hwait].
  - destruct Hctl as [[[= <-] ->]|[=]]. simpl. split; [|done].
    intros (t0 & e & Hp & Ht0 & Hrev & Hmsg).
    destruct (estimate_facts _ _ _ Hrace) as (_ & _ & Herr & _).
    apply String.eqb_neq in Hmsg.
    rewrite (Herr _ _ Hp Ht0), Hmsg, Hrev in Hdec. by injection Hdec as <-.
  - cbn [app each_suffix]. split; [eapply no_revert_estimate; eauto|]. split.
    + intros (t0 & e0 & Hp & Ht0 & Hrev).
      rewrite <- (revert_rejected _ _ _ _ _ _ _ Hsend Hp Ht0) in Hrev.
      destruct (submit_catch_revert _ _ _ _ _ Hcatch Hrev) as [-> ->].
      destruct Hctl as [[[= <-] ->]|[=]]. done.
    + eapply submit_catch_events; eauto. by intros ? ? [].
  - cbn [app each_suffix]. split; [eapply no_revert_estimate; eauto|]. split.
    { intros (t0 & e0 & Hp & Ht0 & _). destruct (no_revert_fulfilled _ _ _ _ _ _ _ Hsend Hp Ht0). }
    split.
    + intros (t0 & Ht0 & [(e0 & Hp & Hrev)|(receipt & Hp & _)]).
      * rewrite <- (revert_rejected _ _ _ _ _ _ _ Hwait Hp Ht0) in Hrev.
        destruct (submit_catch_revert _ _ _ _ _ Hcatch Hrev) as [-> ->].
        destruct Hctl as [[[= <-] ->]|[=]]. done.
      * rewrite (runWithTimeout_in_time _ _ _ _ _ Hp Ht0) in Hwait. discriminate.
    + eapply submit_catch_events; eauto. by intros ? ? [].
  - destruct Hctl as [[[= <-] ->]|[=]]. cbn [app each_suffix].
    split; [eapply no_revert_estimate; eauto|]. split.
    { intros (t0 & e0 & Hp & Ht0 & _). destruct (no_revert_fulfilled _ _ _ _ _ _ _ Hsend Hp Ht0). }
    split; [|done].
    intros (t0 & Ht0 & [(e0 & Hp & _)|(receipt0 & Hp & Hst)]).
    + destruct (no_revert_fulfilled _ _ _ _ _ _ _ Hwait Hp Ht0).
    + rewrite (runWithTimeout_in_time _ _ _ _ _ Hp Ht0) in Hwait.
      injection Hwait as _ <-. done.
Qed.

Lemma sendRawTransaction_selector_first selector paramTypes paramValues retries c :
  exists b c' tr,
    sendRawTransaction w selector paramTypes paramValues retries c
      = Some (Ok b, c', tr) /\
    Forall (selector_first w selector paramTypes paramValues) tr.
Proof.
  destruct (sendRawTransaction_each_suffix
              (fun _ ev _ => selector_first w selector paramTypes paramValues ev)
              selector paramTypes paramValues retries c)
    as (b & c' & tr & Hrun & Hall).
  - done.
  - intros enc b i tr ctl rest Henc Hatt _ Hrest.
    assert (Hreq : exists encodedParams,
               w_abi_encode w paramTypes paramValues = Ok encodedParams /\
               tx_data (mkTxRequest (agentContract (CONFIG w))
                          (selector +:+ slice 2 enc))
                 = selector +:+ slice 2 encodedParams /\
               tx_to (mkTxRequest (agentContract (CONFIG w))
                        (selector +:+ slice 2 enc))
                 = agentContract (CONFIG w)) by eauto.
    destruct Hatt; cbn [app each_suffix selector_first]; repeat split; try done;
      eapply submit_catch_events; eauto; done.
  - exists b, c', tr. split; [done|]. apply Forall_forall. intros ev Hin.
    apply list_elem_of_split in Hin as (pre & post & ->). eauto.
Qed.

End ChainProofs.

(** * [sendTransactionWithRetry] *)

Section LegacyProofs.

Variable w : World.

Lemma await_rpc_id_Some {A} (call : nat -> Promise A) ev c r c' tr :
  await_rpc call (fun p => p) ev c = Some (r, c', tr) ->
  exists t, call (rpc_calls c) = Settles t r /\ tr = [ev (Settles t r) t].
Proof.
  intros H. apply await_rpc_Some in H as (t & Hp & ->). rewrite Hp. eauto.
Qed.

Local Opaque isRevert.

Lemma submit_catch_fst_revert retries i e :
  isRevert e = true -> submit_catch retries i e = (Return false, []).
Proof. unfold submit_catch. by intros ->. Qed.

Lemma sendTransactionWithRetry_attempt_spec contractFunc args retries i c res c' tr :
  sendTransactionWithRetry_attempt w contractFunc args retries i c
    = Some (res, c', tr) ->
  legacy_attempt_spec w contractFunc args retries i tr res.
Proof.
  unfold sendTransactionWithRetry_attempt, legacy_attempt_spec,
    contractFunc_estimateGas, contractFunc_send.
  intros H.
  inv_run.
  all: repeat match goal with
       | H1 : ?x = w_populate _ _ _, H2 : ?y = w_populate _ _ _ |- _ =>
           rewrite <- H1 in H2; simplify_eq
       end.
  all: eexists; split; [reflexivity|].
  all: repeat match goal with
       | H : _ = w_populate _ _ _ |- _ => rewrite <- H; clear H
       | H : ?p = Settles _ _ |- context [?p] => rewrite H
       end.
  all: cbn [app].
  all: try (rewrite submit_catch_fst_revert by done; reflexivity).
  all: try solve_decision.
  all: first
    [ solve [eapply LA_estimate; solve_decision]
    | solve [eapply LA_done; solve_decision]
    | solve [eapply LA_send; solve_decision]
    | solve [eapply LA_wait; solve_decision]
    | idtac ].
Qed.

Lemma returns_await_rpc_settling {A} (call : nat -> Promise A) ev :
  (forall n, call n <> Pending) ->
  returns (await_rpc call (fun p => p) ev).
Proof.
  intros Hcall c. unfold await_rpc.
  destruct (call (rpc_calls c)) as [t r|] eqn:Hp; [eauto|].
  by destruct (Hcall (rpc_calls c)).
Qed.

Lemma sendTransactionWithRetry_attempt_returns contractFunc args retries i :
  settling w ->
  returns (sendTransactionWithRetry_attempt w contractFunc args retries i).
Proof.
  intros (Hest & Hsend & Hwait).
  unfold sendTransactionWithRetry_attempt, contractFunc_estimateGas, contractFunc_send.
  repeat first
    [ apply returns_await_rpc_settling; intros ?; first [apply Hest|apply Hsend|apply Hwait]
    | progress solve_returns ].
Qed.

Lemma sendTransactionWithRetry_run contractFunc args retries c res c' tr :
  sendTransactionWithRetry w contractFunc args retries c = Some (res, c', tr) ->
  exists b, res = Ok b /\
    loop_run (legacy_attempt_spec w contractFunc args (default 3 retries))
      (fun tr r => tr = [] /\ r = Ok false)
      (Z.to_nat (default 3 retries)) 0 tr (Ok b).
Proof.
  unfold sendTransactionWithRetry. intros Hrun.
  eapply (for_loop_run _ _
            (legacy_attempt_spec w contractFunc args (default 3 retries))
            (fun tr r => tr = [] /\ r = Ok false)) in Hrun.
  2:{ intros. eapply sendTransactionWithRetry_attempt_spec; eauto. }
  2:{ intros ? ? ? ? H. apply ret_Some in H as (-> & _ & ->). done. }
  assert (exists b, res = Ok b) as [b ->]; [|eauto].
  induction Hrun as [i tr r [_ ->]|n i tr r _|n i tr e (ctl & Habs & _)|];
    [eauto|eauto|discriminate|assumption].
Qed.

Lemma sendTransactionWithRetry_each_suffix (P : bool -> Event -> list Event -> Prop)
    contractFunc args retries c b c' tr :
  (forall b ms rest, P b (EvSleep ms) rest) ->
  (forall req b i tr ctl rest,
      w_populate w contractFunc args = Ok req ->
      legacy_attempt req (default 3 retries) i tr ctl ->
      (ctl = Return b /\ rest = []) \/ ctl = Next tt ->
      each_suffix (P b) rest ->
      each_suffix (P b) (tr ++ rest)) ->
  sendTransactionWithRetry w contractFunc args retries c = Some (Ok b, c', tr) ->
  forall pre ev post, tr = pre ++ ev :: post -> P b ev post.
Proof.
  intros Hsleep Hattempt Hrun.
  apply sendTransactionWithRetry_run in Hrun as (b' & [= <-] & Hloop).
  apply each_suffix_split.
  remember (Ok b) as res eqn:Hres. revert b Hres.
  induction Hloop as [i tr r [-> _]|n i tr r Hspec|n i tr e Hspec
                     |n i tr tr' r Hspec Hloop IH]; intros b Hres.
  - exact I.
  - injection Hres as ->. destruct Hspec as (ctl & [= ?] & Hspec). subst ctl.
    rewrite <- (app_nil_r tr).
    destruct (w_populate w contractFunc args) as [req|e] eqn:Hpop.
    + eapply Hattempt; eauto. exact I.
    + unfold submit_catch in Hspec.
      destruct (isRevert e); [|destruct (_ <? _)]; simplify_eq; exact I.
  - destruct Hspec as (ctl & [=] & _).
  - destruct Hspec as (ctl & [= ?] & Hspec). subst ctl.
    destruct (w_populate w contractFunc args) as [req|e] eqn:Hpop.
    + eapply Hattempt; eauto.
    + unfold submit_catch in Hspec.
      destruct (isRevert e); [|destruct (_ <? _)]; simplify_eq.
      simpl. split; [apply Hsleep|eauto].
Qed.

Lemma legacy_no_revert_estimate req t r g post b :
  legacy_gas_decision r = Next g ->
  terminal_revert_legacy b (EvEstimateGas req (Settles t r) t) post.
Proof.
  intros Hdec (t0 & e & [= -> ->] & Hrev). simpl in Hdec.
  rewrite Hrev in Hdec. discriminate.
Qed.

(** X22.  In [sendTransactionWithRetry] too a revert ends the call: when
    the estimation, the broadcast or [tx.wait()] is rejected with a
    revert error, nothing follows, whatever the budget, and the result is
    [false]. *)
Lemma sendTransactionWithRetry_revert_is_terminal contractFunc args retries c
    b c' tr :
  sendTransactionWithRetry w contractFunc args retries c = Some (Ok b, c', tr) ->
  forall pre ev post,
    tr = pre ++ ev :: post -> legacy_revert_detected ev -> post = [] /\ b = false.
Proof.
  apply (sendTransactionWithRetry_each_suffix terminal_revert_legacy);
    [by intros ? ? ? []|].
  intros req b0 i tr0 ctl rest _ Hatt Hctl Hrest.
  destruct Hatt as [t r b1 Hdec
                   |t r g t2 e ctl tr1 Hdec Hcatch
                   |t r g t2 tx t3 e ctl tr1 Hdec Hcatch
                   |t r g t2 tx t3 receipt Hdec].
  - destruct Hctl as [[[= <-] ->]|[=]]. simpl. split; [|done].
    intros (t0 & e & [= -> ->] & Hrev). simpl in Hdec. rewrite Hrev in Hdec.
    by injection Hdec as <-.
  - cbn [app each_suffix]. split; [eapply legacy_no_revert_estimate; eauto|]. split.
    + intros (t0 & e0 & [= -> ->] & Hrev).
      destruct (submit_catch_revert _ _ _ _ _ Hcatch Hrev) as [-> ->].
      destruct Hctl as [[[= <-] ->]|[=]]. done.
    + eapply submit_catch_events; eauto. by intros ? ? [].
  - cbn [app each_suffix]. split; [eapply legacy_no_revert_estimate; eauto|]. split.
    { by intros (t0 & e0 & [=] & _). }
    split.
    + intros (t0 & e0 & [= -> ->] & Hrev).
      destruct (submit_catch_revert _ _ _ _ _ Hcatch Hrev) as [-> ->].
      destruct Hctl as [[[= <-] ->]|[=]]. done.
    + eapply submit_catch_events; eauto. by intros ? ? [].
  - destruct Hctl as [[[= <-] ->]|[=]]. cbn [app each_suffix].
    split; [eapply legacy_no_revert_estimate; eauto|]. split.
    { by intros (t0 & e0 & [=] & _). }
    split; [|done]. by intros (t0 & e0 & [=] & _).
Qed.

End LegacyProofs.

(** * [requestWithRetry] *)

Ltac solve_request_catch :=
  first
    [ solve [eapply QC_auth_reissue; eassumption]
    | solve [eapply QC_auth_reissue_fail; eassumption]
    | solve [eapply QC_auth_login_fail; eassumption]
    | solve [eapply QC_give_up; [eassumption|lia]]
    | match goal with
      | H : isNetworkError ?e = _ |- request_catch ?r ?i ?e _ _ =>
          let X := fresh in
          pose proof (QC_retry r i e) as X; rewrite H in X; apply X;
          [assumption|lia]
      end ].

Section RequestProofs.

Variable w : World.

Local Opaque isAuthError isNetworkError session_expired.

Lemma requestWithRetry_attempt_spec login method url data retries i c res c' tr :
  login_like login ->
  requestWithRetry_attempt w login method url data retries i c = Some (res, c', tr) ->
  request_attempt retries i tr res.
Proof.
  intros Hlogin. unfold requestWithRetry_attempt. intros H.
  repeat (inv_run;
          try match goal with
              | H : login _ = Some _ |- _ => apply Hlogin in H as (? & ? & ? & ?)
              end).
  all: cbn [app].
  all: repeat match goal with
       | H : (_ <? _) = true |- _ => apply Z.ltb_lt in H
       | H : (_ <? _) = false |- _ => apply Z.ltb_ge in H
       end.
  all: first
    [ solve [eapply QA_ok; eauto]
    | solve [eapply QA_expired_reissue; eauto]
    | solve [eapply QA_expired_reissue_fail; [eauto|solve_request_catch]]
    | solve [eapply QA_expired_login_fail; [eauto|solve_request_catch]]
    | solve [eapply QA_rejected; solve_request_catch]
    | idtac ].
Qed.

Lemma login_with_like request : login_like (login_with w request).
Proof.
  intros c r c' tr. unfold login_with.
  destruct (try_catch _ _ c) as [[[[b|e] c1] tr1]|] eqn:Hrun; [| |discriminate].
  - intros [= <- <- <-]. eauto.
  - apply try_catch_Some in Hrun as [(a & _ & [=])|(e0 & c0 & tr0 & tr2 & _ & H & _)].
    apply ret_Some in H as ([=] & _).
Qed.

Lemma never_like : login_like never.
Proof. intros c r c' tr [=]. Qed.

Lemma requestWithRetry_run depth method url data retries c res c' tr :
  requestWithRetry w depth method url data retries c = Some (res, c', tr) ->
  loop_run (request_attempt (default 5 retries))
    (fun tr r => tr = [] /\ r = Ok None)
    (Z.to_nat (default 5 retries)) 0 tr res.
Proof.
  intros Hrun.
  assert (exists login, login_like login /\
            for_loop (Z.to_nat (default 5 retries)) 0
              (requestWithRetry_attempt w login method url data (default 5 retries))
              (ret None) c = Some (res, c', tr)) as (login & Hlogin & Hloop).
  { destruct depth as [|depth]; simpl in Hrun.
    - exists never. split; [apply never_like|exact Hrun].
    - eexists. split; [apply login_with_like|exact Hrun]. }
  eapply for_loop_run in Hloop; [exact Hloop| |].
  - intros. eapply requestWithRetry_attempt_spec; eauto.
  - intros ? ? ? ? H. apply ret_Some in H as (-> & _ & ->). done.
Qed.

Lemma schedule_app tr1 tr2 : schedule (tr1 ++ tr2) = schedule tr1 ++ schedule tr2.
Proof.
  induction tr1 as [|ev tr1 IH]; [done|].
  destruct ev as [[]| | | | | |]; simpl; by rewrite ?IH.
Qed.

Lemma request_catch_schedule retries i e tr r :
  request_catch retries i e tr r ->
  match r with
  | Ok (Next _) => schedule tr = [Wait ((i + 1) * 3000)] /\ i < retries - 1
  | _ => schedule tr = []
  end.
Proof. destruct 1; simpl; try done. split; [|done]. by destruct (isNetworkError e). Qed.

Lemma request_attempt_schedule retries i tr r :
  request_attempt retries i tr r ->
  match r with
  | Ok (Next _) => schedule tr = [At i; Wait ((i + 1) * 3000)] /\ i < retries - 1
  | _ => schedule tr = [At i]
  end.
Proof.
  destruct 1 as [| |? ? ? ? ? ? ? ? Hc|? ? ? ? ? ? Hc|? ? ? ? Hc]; simpl; try done.
  all: apply request_catch_schedule in Hc.
  all: destruct r as [[|[]]|]; simpl; try (by rewrite Hc).
  all: destruct Hc as [-> ?]; done.
Qed.

Lemma request_catch_last last retries i e tr r res rest :
  request_catch retries i e tr r ->
  each_suffix (last_error_propagates last res) rest ->
  each_suffix (last_error_propagates last res) (tr ++ rest).
Proof.
  destruct 1; cbn [app each_suffix last_error_propagates]; intros Hrest;
    repeat split; try done.
  by destruct (isNetworkError e).
Qed.

Lemma request_attempt_last retries i tr r res rest :
  request_attempt retries i tr r ->
  r = Ok (Next tt) \/ (rest = [] /\ loop_result r res) ->
  each_suffix (last_error_propagates (retries - 1) res) rest ->
  each_suffix (last_error_propagates (retries - 1) res) (tr ++ rest).
Proof.
  intros Hatt Hr Hrest.
  destruct Hatt as [| |? ? ? ? ? ? ? ? Hc|? ? ? ? ? ? Hc|cfg e tr r Hc];
    cbn [app each_suffix last_error_propagates].
  - done.
  - done.
  - do 3 (split; [done|]). eapply request_catch_last; eauto.
  - do 2 (split; [done|]). eapply request_catch_last; eauto.
  - split; [|eapply request_catch_last; eauto].
    intros Hi Hauth.
    destruct Hc as [| | | |_ _]; try congruence; try lia.
    destruct Hr as [[=]|[-> Hres]]. done.
Qed.

Lemma backoff_schedule_step k i :
  k <> O ->
  At i :: Wait ((i + 1) * 3000) :: backoff_schedule k (i + 1)
  = backoff_schedule (S k) i.
Proof. destruct k; [done|]. reflexivity. Qed.

Lemma request_loop_props retries n i tr res :
  loop_run (request_attempt retries) (fun tr r => tr = [] /\ r = Ok None) n i tr res ->
  Z.of_nat n = Z.max 0 (retries - i) ->
  (exists k, (k <= n)%nat /\ (n <> O -> k <> O) /\
             schedule tr = backoff_schedule k i) /\
  each_suffix (last_error_propagates (retries - 1) res) tr.
Proof.
  induction 1 as [i tr r [-> ->]|n i tr r Hatt|n i tr e Hatt
                 |n i tr tr' r Hatt Hloop IH]; intros Hn.
  - split; [|done]. exists O. done.
  - split.
    + exists 1%nat. apply request_attempt_schedule in Hatt.
      split; [lia|]. split; [done|]. exact Hatt.
    + rewrite <- (app_nil_r tr). eapply request_attempt_last; eauto; [by right|done].
  - split.
    + exists 1%nat. apply request_attempt_schedule in Hatt.
      split; [lia|]. split; [done|]. exact Hatt.
    + rewrite <- (app_nil_r tr). eapply request_attempt_last; eauto; [by right|done].
  - pose proof (request_attempt_schedule _ _ _ _ Hatt) as [Hsched Hi].
    destruct IH as [(k & Hk & Hk0 & Hrest) Hlast]; [lia|].
    split.
    + exists (S k). split; [lia|]. split; [done|].
      rewrite schedule_app, Hsched, Hrest. simpl.
      apply backoff_schedule_step. apply Hk0. lia.
    + eapply request_attempt_last; eauto.
Qed.

Lemma requestWithRetry_attempt_returns login method url data retries i :
  (forall n cfg, no_relogin (w_axios w n cfg)) ->
  returns (requestWithRetry_attempt w login method url data retries i).
Proof.
  intros Hw c.
  unfold requestWithRetry_attempt, try_catch, bind, generateTid, axios_call.
  cbn beta iota.
  match goal with
  | |- context [w_axios w ?n ?cfg] =>
      pose proof (Hw n cfg) as Hout; destruct (w_axios w n cfg) as [res|e]
  end; simpl in Hout; rewrite Hout.
  - unfold ret. eauto.
  - destruct (i <? retries - 1); [|unfold throw; eauto].
    unfold sleep, emit. cbn beta iota.
    destruct (isNetworkError e); unfold initAxios, ret; cbn beta iota; eauto.
Qed.

(** C8.  [requestWithRetry] makes at most [retries] attempts, 5 by
    default, numbered from 0; after the failed attempt of (1-based) index
    [j] and before the next one it sleeps exactly [j * 3000] ms; and when
    the attempt of the last index is rejected with an error other than an
    auth error, nothing more is done and that error is thrown to the
    caller.  When no response asks for a re-login the call returns. *)
Theorem request_backoff :
  (forall depth method url data retries c res c' tr,
      requestWithRetry w depth method url data retries c = Some (res, c', tr) ->
      (exists k, (k <= Z.to_nat (default 5%Z retries))%nat /\
                 schedule tr = backoff_schedule k 0) /\
      (forall pre cfg e post,
          tr = pre ++ EvAxios (SiteAttempt (default 5 retries - 1)) cfg (Throw e)
                      :: post ->
          isAuthError e = false ->
          post = [] /\ res = Throw e)) /\
  ((forall n cfg, no_relogin (w_axios w n cfg)) ->
   forall depth method url data retries c,
      exists res c' tr,
        requestWithRetry w depth method url data retries c = Some (res, c', tr)).
Proof.
  split.
  - intros depth method url data retries c res c' tr Hrun.
    apply requestWithRetry_run in Hrun.
    apply request_loop_props in Hrun as [(k & Hk & _ & Hsched) Hlast]; [|lia].
    split; [eauto|].
    intros pre cfg e post -> Hauth.
    pose proof (proj1 (each_suffix_split _ _) Hlast pre _ post eq_refl) as Hev.
    apply Hev; done.
  - intros Hw depth method url data retries c.
    assert (forall login,
              returns (for_loop (Z.to_nat (default 5 retries)) 0
                         (requestWithRetry_attempt w login method url data
                            (default 5 retries))
                         (ret None))) as Hret.
    { intros login. apply for_loop_returns; [|apply returns_ret].
      intros i. by apply requestWithRetry_attempt_returns. }
    destruct depth; simpl; apply Hret.
Qed.

End RequestProofs.

(** * The re-login depth

    A result obtained at some depth is the result at every larger depth:
    the depth only bounds how much of a run is explored. *)

Lemma refines_refl {A} (m : M A) : refines m m.
Proof. by intros c x. Qed.

Lemma refines_never {A} (m : M A) : refines never m.
Proof. by intros c x. Qed.

Lemma refines_bind {A B} (m m' : M A) (k k' : A -> M B) :
  refines m m' -> (forall a, refines (k a) (k' a)) ->
  refines (bind m k) (bind m' k').
Proof.
  intros Hm Hk c x. unfold bind.
  destruct (m c) as [[[[a|e] c1] tr1]|] eqn:Hmc; [| |discriminate];
    rewrite (Hm _ _ Hmc); [|done].
  destruct (k a c1) as [[[r c2] tr2]|] eqn:Hkc; [|discriminate].
  by rewrite (Hk _ _ _ Hkc).
Qed.

Lemma refines_try_catch {A} (m m' : M A) (h h' : JsError -> M A) :
  refines m m' -> (forall e, refines (h e) (h' e)) ->
  refines (try_catch m h) (try_catch m' h').
Proof.
  intros Hm Hh c x. unfold try_catch.
  destruct (m c) as [[[[a|e] c1] tr1]|] eqn:Hmc; [| |discriminate];
    rewrite (Hm _ _ Hmc); [done|].
  destruct (h e c1) as [[[r c2] tr2]|] eqn:Hhc; [|discriminate].
  by rewrite (Hh _ _ _ Hhc).
Qed.

Lemma refines_for_loop {R} (body body' : Z -> M (Ctl R unit)) (after : M R) n i :
  (forall i, refines (body i) (body' i)) ->
  refines (for_loop n i body after) (for_loop n i body' after).
Proof.
  intros Hbody. revert i. induction n as [|n IH]; intros i; simpl.
  - apply refines_refl.
  - apply refines_bind; [apply Hbody|]. intros [r|[]]; [apply refines_refl|apply IH].
Qed.

Ltac solve_refines :=
  repeat (cbv beta zeta;
          lazymatch goal with
          | |- refines (bind _ _) (bind _ _) => apply refines_bind
          | |- refines (try_catch _ _) (try_catch _ _) => apply refines_try_catch
          | |- refines (if ?b then _ else _) (if ?b then _ else _) => destruct b
          | |- refines (match ?x with _ => _ end) (match ?x with _ => _ end) =>
              destruct x
          | |- refines ?m ?m => apply refines_refl
          | |- forall _, _ => intros ?
          | |- _ => eassumption || (progress eauto)
          end).

Section DepthProofs.

Variable w : World.

Lemma requestWithRetry_attempt_refines login login' method url data retries i :
  refines login login' ->
  refines (requestWithRetry_attempt w login method url data retries i)
    (requestWithRetry_attempt w login' method url data retries i).
Proof. intros Hlogin. unfold requestWithRetry_attempt. solve_refines. Qed.

Lemma login_with_refines request request' :
  (forall method url data retries,
      refines (request method url data retries) (request' method url data retries)) ->
  refines (login_with w request) (login_with w request').
Proof.
  intros Hreq c x. unfold login_with.
  destruct (try_catch _ _ c) as [[[r c1] tr1]|] eqn:Hrun; [|discriminate].
  eapply refines_try_catch in Hrun; [rewrite Hrun; done| |intros e; apply refines_refl].
  solve_refines.
Qed.

Lemma requestWithRetry_step depth method url data retries :
  refines (requestWithRetry w depth method url data retries)
    (requestWithRetry w (S depth) method url data retries).
Proof.
  revert method url data retries.
  induction depth as [|depth IH]; intros method url data retries;
    cbn [requestWithRetry]; apply refines_for_loop; intros i;
    apply requestWithRetry_attempt_refines.
  - apply refines_never.
  - apply login_with_refines, IH.
Qed.

Lemma requestWithRetry_deeper depth depth' method url data retries :
  (depth <= depth')%nat ->
  refines (requestWithRetry w depth method url data retries)
    (requestWithRetry w depth' method url data retries).
Proof.
  induction 1 as [|depth' _ IH]; [apply refines_refl|].
  intros c x Hrun. by apply requestWithRetry_step, IH.
Qed.

Lemma login_deeper depth depth' :
  (depth <= depth')%nat -> refines (login w depth) (login w depth').
Proof.
  intros Hle. apply login_with_refines. intros.
  by apply requestWithRetry_deeper.
Qed.

Lemma runDailyTasks_deeper depth depth' :
  (depth <= depth')%nat ->
  refines (Part000.runDailyTasks w depth) (Part000.runDailyTasks w depth') /\
  refines (IndexJs.runDailyTasks w depth) (IndexJs.runDailyTasks w depth').
Proof.
  intros Hle.
  pose proof (requestWithRetry_deeper depth depth') as Hreq.
  pose proof (login_deeper depth depth' Hle) as Hlogin.
  split.
  - unfold Part000.runDailyTasks, Part000.requestTask, Part000.agentTask.
    solve_refines.
  - unfold IndexJs.runDailyTasks, IndexJs.requestTask, IndexJs.agentTask.
    solve_refines.
Qed.

End DepthProofs.

(** * Re-login inside [requestWithRetry] *)

(** C3.  The server answers the status request with the expired-session
    message and refuses every re-login.  The error thrown after the
    failed re-login is caught by the [catch] block of the same iteration,
    which treats it as a network error: the call sleeps and tries again,
    five attempts and five re-logins in all, before the error reaches the
    caller. *)
Theorem relogin_failure_is_retried :
  forall depth, exists c' tr,
    requestWithRetry expired_world (S depth) "post" "/api/verify" BodyDefault None
      newClient
    = Some (Throw (Error "Re-login failed during retry"), c', tr) /\
    schedule tr
    = [At 0; Wait 3000; At 1; Wait 6000; At 2; Wait 9000; At 3; Wait 12000; At 4] /\
    length (filter is_login tr) = 5%nat.
Proof.
  intros depth. eexists _, _. split; [|split].
  - apply (requestWithRetry_deeper expired_world 1 (S depth)); [lia|].
    vm_compute. reflexivity.
  - vm_compute. reflexivity.
  - vm_compute. reflexivity.
Qed.

Lemma bind_None {A B} (m : M A) (k : A -> M B) c :
  m c = None -> bind m k c = None.
Proof. unfold bind. by intros ->. Qed.

Lemma try_catch_None {A} (m : M A) h c :
  m c = None -> try_catch m h c = None.
Proof. unfold try_catch. by intros ->. Qed.

Lemma login_with_None w request c :
  (forall method url data c, request method url data None c = None) ->
  login_with w request c = None.
Proof.
  intros Hreq. unfold login_with.
  rewrite try_catch_None; [done|]. apply bind_None, Hreq.
Qed.

Lemma attempt_expired_None w login method url data retries i c :
  (forall n cfg, exists res, w_axios w n cfg = Ok res /\ session_expired res = true) ->
  (forall c, login c = None) ->
  requestWithRetry_attempt w login method url data retries i c = None.
Proof.
  intros Hw Hlogin. unfold requestWithRetry_attempt.
  apply try_catch_None. unfold bind at 1, generateTid. cbn beta iota.
  unfold bind at 1, axios_call. cbn beta iota.
  match goal with
  | |- context [w_axios w ?n ?cfg] => destruct (Hw n cfg) as (res & -> & Hexp)
  end.
  cbn beta iota. rewrite Hexp. rewrite bind_None; [done|]. apply Hlogin.
Qed.

(** When the login endpoints answer with the expired-session message as
    well, a call that makes at least one attempt re-logs in without end:
    at no depth does it return. *)
Lemma persistent_expiry_never_returns depth method url data c :
  requestWithRetry always_expired_world depth method url data None c = None.
Proof.
  assert (Hw : forall n cfg, exists res,
               w_axios always_expired_world n cfg = Ok res /\
               session_expired res = true) by (intros; eexists; split; reflexivity).
  revert method url data c. induction depth as [|depth IH]; intros method url data c.
  - cbn [requestWithRetry]. cbn. apply bind_None, attempt_expired_None; done.
  - cbn [requestWithRetry]. cbn [default Z.to_nat Pos.to_nat Pos.iter_op Nat.add for_loop].
    apply bind_None, attempt_expired_None; [done|].
    intros c0. apply login_with_None. intros. apply IH.
Qed.

(** * The orchestrator and the account loop *)

Section LoginProofs.

Variable w : World.
Variable depth : nat.

Lemma login_refused_false c c' sub :
  login_refused w depth c c' sub ->
  login w depth c = Some (Ok false, c', [EvLogin sub false]).
Proof.
  unfold login, login_with, try_catch, bind, data_of.
  intros [(res & d & -> & Hd & Hcode)
         |(res & d & p & nonce & c1 & tr1 & res2 & d2 & tr2
           & -> & Hd & Hcode & Hp & Hnonce & Hauth & Hd2 & Hcode2 & ->)].
  - rewrite Hd. unfold ret at 1. cbn beta iota. rewrite Hcode. simpl.
    by rewrite !app_nil_r.
  - rewrite Hd. unfold ret at 1. cbn beta iota. rewrite Hcode. cbn [negb].
    rewrite Hp. unfold ret at 1. cbn beta iota. rewrite Hnonce.
    unfold ret at 1. cbn beta iota. rewrite Hauth. rewrite Hd2.
    unfold ret at 1. cbn beta iota. rewrite Hcode2. simpl.
    by rewrite !app_nil_r.
Qed.

Lemma login_refused_Part000 c c' sub :
  login_refused w depth c c' sub ->
  Part000.runDailyTasks w depth c
  = Some (Ok (mkTaskResult false None "Login Failed"), c', [EvLogin sub false]).
Proof.
  intros H. unfold Part000.runDailyTasks, bind.
  by rewrite (login_refused_false _ _ _ H).
Qed.

Lemma login_refused_IndexJs c c' sub :
  login_refused w depth c c' sub ->
  IndexJs.runDailyTasks w depth c
  = Some (Ok (mkTaskResult false None "Login Failed"), c', [EvLogin sub false]).
Proof.
  intros H. unfold IndexJs.runDailyTasks, bind.
  by rewrite (login_refused_false _ _ _ H).
Qed.

End LoginProofs.

(** C6.  When the server refuses the login of a due account with a
    non-zero code at either step, [runDailyTasks] (of either revision)
    returns the failure [Login Failed], and the account loop makes no
    update of the cooldown store and writes nothing: the store is what it
    was (what the file holds, if its read was still in flight); the loop
    records a failed row and pauses. *)
Theorem login_failure_keeps_cooldown env depth i acc s c' sub :
  due env i acc s ->
  login_refused (client_world env i acc) depth newClient c' sub ->
  forall run,
    run = Part000.runDailyTasks \/ run = IndexJs.runDailyTasks ->
    run (client_world env i acc) depth newClient
    = Some (Ok (mkTaskResult false None "Login Failed"), c', [EvLogin sub false]) /\
    exists s',
      processAccount env run depth i acc s
      = Some (Ok tt, s', [MClient i [EvLogin sub false]; MSleep 2000]) /\
      db s' = load_finished (db s) /\
      summaryData s'
      = summaryData s ++ [mkRow (i + 1) (PStr "-") "Failed" RetryNextLoop].
Proof.
  intros Hdue Hlogin run Hrun.
  assert (run (client_world env i acc) depth newClient
          = Some (Ok (mkTaskResult false None "Login Failed"), c',
                  [EvLogin sub false])) as Hres.
  { destruct Hrun as [-> | ->];
      [by apply login_refused_Part000|by apply login_refused_IndexJs]. }
  split; [exact Hres|].
  unfold processAccount. unfold due in Hdue.
  destruct (Z.ltb_spec (date_now env (clock_reads s))
              (getNextRunTime (db s) (w_address (client_world env i acc))));
    [lia|].
  rewrite Hres. simpl. eauto.
Qed.

Lemma expired_world_refuses :
  login_refused expired_world 0 newClient
    (mkClient None 1 0 1 0)
    [EvAxios (SiteAttempt 0)
       (mkAxiosConfig "post" "/api/login" (BodyAddr "0xAbC1") 0 None)
       (Ok (response 1 "denied" None))].
Proof. left. eexists _, _. split; [vm_compute; reflexivity|]. split; reflexivity. Qed.

Lemma login_failure_keeps_cooldown_witness :
  exists c' sub s',
    processAccount (mkEnv demo_config (fun _ => 1000) (fun _ _ => expired_world))
      Part000.runDailyTasks 0 0 demo_account
      (mkMain (mkWalletDB {[ "0xdef2" := 7000 ]} None) [] 0)
    = Some (Ok tt, s', [MClient 0 [EvLogin sub false]; MSleep 2000]) /\
    Part000.runDailyTasks expired_world 0 newClient
    = Some (Ok (mkTaskResult false None "Login Failed"), c', [EvLogin sub false]) /\
    db s' = mkWalletDB {[ "0xdef2" := 7000 ]} None.
Proof.
  edestruct (login_failure_keeps_cooldown
               (mkEnv demo_config (fun _ => 1000) (fun _ _ => expired_world))
               0 0 demo_account
               (mkMain (mkWalletDB {[ "0xdef2" := 7000 ]} None) [] 0))
    as (Hrun & s' & Hacc & Hdb & _).
  - unfold due. vm_compute. discriminate.
  - apply expired_world_refuses.
  - left. reflexivity.
  - eauto 10.
Defined.

(** * The cooldown store *)

Lemma getNextRunTime_update d address address' t :
  getNextRunTime (updateNextRunTime d address t) address'
  = if decide (toLowerCase address = toLowerCase address')
    then t else getNextRunTime d address'.
Proof.
  unfold getNextRunTime, updateNextRunTime. simpl. rewrite lookup_insert.
  case_decide; [|done]. destruct (Z.eqb_spec t 0); congruence.
Qed.

Lemma getNextRunTime_same_key d address address' :
  toLowerCase address = toLowerCase address' ->
  getNextRunTime d address = getNextRunTime d address'.
Proof. unfold getNextRunTime. by intros ->. Qed.

Lemma load_finished_loaded d : loading d = None -> load_finished d = d.
Proof. unfold load_finished. by intros ->. Qed.

Section CooldownProofs.

Variable env : Env.
Variable run : World -> nat -> M TaskResult.
Variable depth : nat.

Hypothesis interval_positive : 0 < loopInterval (env_config env).
Hypothesis clock_monotone : forall n, date_now env n <= date_now env (S n).

Lemma processAccount_loaded i acc s r s' tr :
  processAccount env run depth i acc s = Some (r, s', tr) ->
  loading (db s) = None -> loading (db s') = None.
Proof.
  unfold processAccount. intros Hrun Hloaded.
  rewrite (load_finished_loaded _ Hloaded) in Hrun.
  destruct (_ <? _); [by injection Hrun as <- <- <-|].
  destruct (run _ _ _) as [[[[res|e] c'] trc]|]; [| |discriminate].
  - destruct (success res); by injection Hrun as <- <- <-.
  - by injection Hrun as <- <- <-.
Qed.

Lemma processAccount_monotone i acc s r s' tr address :
  processAccount env run depth i acc s = Some (r, s', tr) ->
  loading (db s) = None ->
  getNextRunTime (db s) address <= getNextRunTime (db s') address.
Proof.
  unfold processAccount. intros Hrun Hloaded.
  rewrite (load_finished_loaded _ Hloaded) in Hrun. revert Hrun.
  destruct (Z.ltb_spec (date_now env (clock_reads s))
              (getNextRunTime (db s) (w_address (client_world env i acc))))
    as [Hskip|Hdue].
  - intros [= <- <- <-]. simpl. lia.
  - destruct (run _ _ _) as [[[[res|e] c'] trc]|]; [| |discriminate].
    + destruct (success res); intros [= <- <- <-]; simpl; [|lia].
      rewrite getNextRunTime_update. case_decide as Hkey; [|lia].
      rewrite <- (getNextRunTime_same_key _ _ _ Hkey).
      pose proof (clock_monotone (clock_reads s)). lia.
    + intros [= <- <- <-]. simpl. lia.
Qed.

Lemma accounts_loop_monotone accounts i s r s' tr address :
  accounts_loop env run depth i accounts s = Some (r, s', tr) ->
  loading (db s) = None ->
  getNextRunTime (db s) address <= getNextRunTime (db s') address.
Proof.
  revert i s r s' tr.
  induction accounts as [|acc rest IH]; intros i s r s' tr; simpl.
  - intros [= <- <- <-]. lia.
  - destruct (processAccount env run depth i acc s) as [[[[[]|e] s1] tr1]|] eqn:Hacc;
      [| |discriminate].
    + destruct (accounts_loop env run depth (S i) rest s1)
        as [[[r2 s2] tr2]|] eqn:Hrest; [|discriminate].
      intros [= <- <- <-] Hloaded.
      pose proof (processAccount_monotone _ _ _ _ _ _ address Hacc Hloaded).
      pose proof (IH _ _ _ _ _ Hrest (processAccount_loaded _ _ _ _ _ _ Hacc Hloaded)).
      lia.
    + intros [= <- <- <-] Hloaded. eapply processAccount_monotone; eauto.
Qed.

Lemma processAccount_update i acc s r s' tr :
  processAccount env run depth i acc s = Some (r, s', tr) ->
  loading (db s) = None ->
  db s' <> db s ->
  getNextRunTime (db s) (w_address (client_world env i acc))
    <= date_now env (clock_reads s) /\
  db s' = updateNextRunTime (db s) (w_address (client_world env i acc))
            (date_now env (S (clock_reads s)) + loopInterval (env_config env)).
Proof.
  unfold processAccount. intros Hrun Hloaded.
  rewrite (load_finished_loaded _ Hloaded) in Hrun. revert Hrun.
  destruct (Z.ltb_spec (date_now env (clock_reads s))
              (getNextRunTime (db s) (w_address (client_world env i acc))))
    as [Hskip|Hdue].
  - intros [= <- <- <-]. done.
  - destruct (run _ _ _) as [[[[res|e] c'] trc]|]; [| |discriminate].
    + destruct (success res); intros [= <- <- <-]; simpl; done.
    + intros [= <- <- <-]. done.
Qed.

End CooldownProofs.

(** X24.  Once the store has been read: an identity without an entry is
    eligible from time 0; with a positive loop interval and a clock that
    does not run backwards, no pass over the accounts lowers the stored
    time of any identity; the store changes only for an account whose
    stored time the clock has reached, and the new value is the clock
    reading at the update plus the loop interval. *)
Lemma cooldown_monotone_once_loaded :
  (forall d address,
      data d !! toLowerCase address = None -> getNextRunTime d address = 0) /\
  (forall env run depth accounts d reads r s' tr address,
      0 < loopInterval (env_config env) ->
      (forall n, date_now env n <= date_now env (S n)) ->
      loading d = None ->
      runCycle env run depth accounts d reads = Some (r, s', tr) ->
      getNextRunTime d address <= getNextRunTime (db s') address) /\
  (forall env run depth i acc s r s' tr,
      loading (db s) = None ->
      processAccount env run depth i acc s = Some (r, s', tr) ->
      db s' <> db s ->
      getNextRunTime (db s) (w_address (client_world env i acc))
        <= date_now env (clock_reads s) /\
      db s' = updateNextRunTime (db s) (w_address (client_world env i acc))
                (date_now env (S (clock_reads s)) + loopInterval (env_config env))).
Proof.
  split; [|split].
  - intros d address H. unfold getNextRunTime. by rewrite H.
  - intros env run depth accounts d reads r s' tr address Hpos Hclock Hloaded Hrun.
    unfold runCycle in Hrun.
    by apply (accounts_loop_monotone env run depth Hpos Hclock _ _ _ _ _ _ address)
      in Hrun.
  - intros. eapply processAccount_update; eauto.
Qed.

(** C7.  [wallet_db.json] holds, for the first account, a time that the
    clock has not reached (it was written 49 seconds before the start,
    with a loop interval of a day).  The constructor of [WalletDB] has
    started the read of the file without awaiting it, so the first
    cooldown check finds the store empty and reads 0: the account is run
    and its entry overwritten, here (the interval is now an hour) with an
    earlier time.  Had the read been over, the account would have been
    skipped. *)
Theorem restart_ignores_cooldown :
  let file : gmap string Z := {[ "0xabc1" := 1000 + 86400000 ]} in
  (exists tr,
      processAccount restart_env Part000.runDailyTasks 1 0 demo_account
        (mkMain (newWalletDB (Some file)) [] 0)
      = Some (Ok tt,
              mkMain (mkWalletDB {[ "0xabc1" := 50001 + 3600000 ]} None)
                [mkRow 1 (PStr "-") "Work Done" (NextAt (50002 + 3600000))] 3,
              MClient 0 tr
                :: [MSave {[ "0xabc1" := 50001 + 3600000 ]}; MSleep 2000])) /\
  date_now restart_env 0 < 1000 + 86400000 /\
  50001 + 3600000 < 1000 + 86400000 /\
  processAccount restart_env Part000.runDailyTasks 1 0 demo_account
    (mkMain (mkWalletDB file None) [] 0)
  = Some (Ok tt,
          mkMain (mkWalletDB file None)
            [mkRow 1 (PStr "-") "Skipped (Cooldown)" (NextAt (1000 + 86400000))] 1,
          []).
Proof.
  split; [|split; [|split]].
  - eexists. vm_compute. reflexivity.
  - vm_compute. reflexivity.
  - lia.
  - vm_compute. reflexivity.
Qed.

(** * The pause between accounts *)

(** C9, as stated: every account, skipped ones included, is followed by
    a pause of 2000 ms.  An account on cooldown is left with [continue],
    before the pause. *)
Lemma pause_after_every_account_fails :
  ~ (forall env run depth i acc s r s' tr,
        processAccount env run depth i acc s = Some (r, s', tr) ->
        last tr = Some (MSleep 2000)).
Proof.
  intros H.
  specialize (H resting_env Part000.runDailyTasks 0%nat 0%nat demo_account
                resting_main (Ok tt)
                (mkMain (mkWalletDB {[ "0xabc1" := 5000 ]} None)
                   [mkRow 1 (PStr "-") "Skipped (Cooldown)" (NextAt 5000)] 1)
                [] eq_refl).
  discriminate H.
Qed.

(** C9, amended.  An account that is due is followed by a pause of
    2000 ms whether its tasks succeeded or failed; an account on cooldown
    is skipped without any effect, the pause included. *)
Theorem pause_after_account_run env run depth i acc s s' tr :
  processAccount env run depth i acc s = Some (Ok tt, s', tr) ->
  if date_now env (clock_reads s)
       <? getNextRunTime (db s) (w_address (client_world env i acc))
  then tr = []
  else last tr = Some (MSleep 2000).
Proof.
  unfold processAccount.
  destruct (_ <? _).
  - by intros [= <- <-].
  - destruct (run _ _ _) as [[[[res|e] c'] trc]|]; [| |discriminate].
    + destruct (success res); intros [= <- <-]; reflexivity.
    + discriminate.
Qed.

Lemma pause_after_account_run_witness :
  exists s' tr,
    processAccount (mkEnv demo_config (fun _ => 1000) (fun _ _ => expired_world))
      Part000.runDailyTasks 0 0 demo_account (mkMain (newWalletDB None) [] 0)
    = Some (Ok tt, s', tr) /\
    last tr = Some (MSleep 2000).
Proof.
  eexists _, _.
  assert (processAccount (mkEnv demo_config (fun _ => 1000) (fun _ _ => expired_world))
            Part000.runDailyTasks 0 0 demo_account (mkMain (newWalletDB None) [] 0)
          = Some (Ok tt, _, _)) as H by (vm_compute; reflexivity).
  split; [exact H|].
  exact (pause_after_account_run _ _ _ _ _ _ _ _ H).
Defined.

(** * The submitters as boolean functions *)

(** C10.  [sendRawTransaction] returns [true] or [false] from every state,
    in every world and for every retry budget: it neither throws nor
    hangs.  [sendTransactionWithRetry] never throws, and returns [true] or
    [false] whenever the calls it awaits settle (it races none of them
    against a timer).  With a budget of zero or less both return [false]
    without any effect. *)
Theorem chain_submitters_return_bool :
  (forall w selector paramTypes paramValues retries c,
      exists b c' tr,
        sendRawTransaction w selector paramTypes paramValues retries c
        = Some (Ok b, c', tr)) /\
  (forall w contractFunc args retries c,
      (forall res c' tr,
          sendTransactionWithRetry w contractFunc args retries c
          = Some (res, c', tr) ->
          exists b, res = Ok b) /\
      (settling w ->
       exists b c' tr,
         sendTransactionWithRetry w contractFunc args retries c
         = Some (Ok b, c', tr))) /\
  (forall w selector paramTypes paramValues contractFunc args retries c,
      retries <= 0 ->
      sendRawTransaction w selector paramTypes paramValues (Some retries) c
      = Some (Ok false, c, []) /\
      sendTransactionWithRetry w contractFunc args (Some retries) c
      = Some (Ok false, c, [])).
Proof.
  split; [|split].
  - intros w selector paramTypes paramValues retries c.
    destruct (sendRawTransaction_run w selector paramTypes paramValues retries c)
      as (b & c' & tr & Hrun & _).
    eauto.
  - intros w contractFunc args retries c. split.
    + intros res c' tr Hrun.
      apply sendTransactionWithRetry_run in Hrun as (b & -> & _). eauto.
    + intros Hsettling.
      destruct (for_loop_returns
                  (sendTransactionWithRetry_attempt w contractFunc args
                     (default 3 retries))
                  (ret false)
                  (fun i => sendTransactionWithRetry_attempt_returns w contractFunc
                              args (default 3 retries) i Hsettling)
                  (returns_ret _)
                  (Z.to_nat (default 3 retries)) 0 c) as (res & c' & tr & Hrun).
      destruct (sendTransactionWithRetry_run w _ _ _ _ _ _ _ Hrun) as (b & -> & _).
      eauto.
  - intros w selector paramTypes paramValues contractFunc args retries c Hle.
    unfold sendRawTransaction, sendTransactionWithRetry. simpl.
    replace (Z.to_nat retries) with O by lia. done.
Qed.

(** * Call data *)

Section CalldataProofs.

Variable w : World.

Lemma request_catch_no_rpc retries i e tr r :
  request_catch retries i e tr r -> Forall (fun ev => is_rpc ev = false) tr.
Proof. destruct 1; repeat constructor. by destruct (isNetworkError e); repeat constructor. Qed.

Lemma request_attempt_no_rpc retries i tr r :
  request_attempt retries i tr r -> Forall (fun ev => is_rpc ev = false) tr.
Proof.
  destruct 1 as [| |? ? ? ? ? ? ? ? Hc|? ? ? ? ? ? Hc|? ? ? ? Hc];
    repeat (constructor; [done|]); try done; eapply request_catch_no_rpc; eauto.
Qed.

Lemma requestWithRetry_no_rpc depth method url data retries c res c' tr :
  requestWithRetry w depth method url data retries c = Some (res, c', tr) ->
  Forall (fun ev => is_rpc ev = false) tr.
Proof.
  intros Hrun. apply requestWithRetry_run in Hrun.
  induction Hrun as [i tr r [-> _]|n i tr r Hatt|n i tr e Hatt
                    |n i tr tr' r Hatt Hloop IH].
  - constructor.
  - eapply request_attempt_no_rpc; eauto.
  - eapply request_attempt_no_rpc; eauto.
  - apply Forall_app. split; [eapply request_attempt_no_rpc; eauto|done].
Qed.

Lemma login_no_rpc depth c res c' tr :
  login w depth c = Some (res, c', tr) -> Forall (fun ev => is_rpc ev = false) tr.
Proof.
  intros H. apply login_with_like in H as (sub & b & _ & ->). by repeat constructor.
Qed.

Lemma no_rpc_task_calldata tr :
  Forall (fun ev => is_rpc ev = false) tr -> Forall (task_calldata w) tr.
Proof.
  induction 1 as [|ev tr Hev _ IH]; constructor; [|exact IH].
  destruct ev; try discriminate; left; exists []; exact I.
Qed.

Lemma sendRawTransaction_selector_first_run selector paramTypes paramValues retries
    c res c' tr :
  sendRawTransaction w selector paramTypes paramValues retries c = Some (res, c', tr) ->
  Forall (selector_first w selector paramTypes paramValues) tr.
Proof.
  intros Hrun.
  destruct (sendRawTransaction_selector_first w selector paramTypes paramValues
              retries c) as (b & c0 & tr0 & Hrun0 & Hall).
  congruence.
Qed.

Lemma getRandomItem_Some arr c r c' tr :
  getRandomItem w arr c = Some (r, c', tr) -> tr = [].
Proof. unfold getRandomItem. intros H. inv_run. done. Qed.

Lemma getRandomContent_Some c r c' tr :
  getRandomContent w c = Some (r, c', tr) -> tr = [].
Proof.
  unfold getRandomContent. intros H. inv_run.
  by match goal with H : getRandomItem _ _ _ = _ |- _ => apply getRandomItem_Some in H as -> end.
Qed.

Lemma getRandomAgentName_Some c r c' tr :
  getRandomAgentName w c = Some (r, c', tr) -> tr = [].
Proof.
  unfold getRandomAgentName. intros H. inv_run.
  all: repeat match goal with
       | H : getRandomItem _ _ _ = _ |- _ => apply getRandomItem_Some in H as ->
       end; done.
Qed.

End CalldataProofs.

Section TaskCalldata.

Variable w : World.
Variable depth : nat.

Lemma selector_first_request paramValues tr :
  Forall (selector_first w FUNCTION_SELECTORS_SUBMIT_REQUEST ["uint256"; "string"]
            paramValues) tr ->
  Forall (task_calldata w) tr.
Proof. induction 1; constructor; [left; eauto|done]. Qed.

Lemma selector_first_agent paramValues tr :
  Forall (selector_first w FUNCTION_SELECTORS_SUBMIT_AGENT
            ["uint256"; "string"; "string"] paramValues) tr ->
  Forall (task_calldata w) tr.
Proof. induction 1; constructor; [right; eauto|done]. Qed.

Ltac trace_facts :=
  repeat match goal with
  | H : getRandomItem _ _ _ = Some _ |- _ => apply getRandomItem_Some in H
  | H : getRandomContent _ _ = Some _ |- _ => apply getRandomContent_Some in H
  | H : getRandomAgentName _ _ = Some _ |- _ => apply getRandomAgentName_Some in H
  | H : requestWithRetry _ _ _ _ _ _ _ = Some _ |- _ =>
      apply requestWithRetry_no_rpc, (no_rpc_task_calldata w) in H
  | H : login _ _ _ = Some _ |- _ =>
      apply login_no_rpc, (no_rpc_task_calldata w) in H
  | H : sendRawTransaction _ FUNCTION_SELECTORS_SUBMIT_REQUEST _ _ _ _ = Some _ |- _ =>
      apply sendRawTransaction_selector_first_run, selector_first_request in H
  | H : sendRawTransaction _ FUNCTION_SELECTORS_SUBMIT_AGENT _ _ _ _ = Some _ |- _ =>
      apply sendRawTransaction_selector_first_run, selector_first_agent in H
  | H : data_of _ _ = Some _ |- _ => unfold data_of in H
  | H : taskData_of _ _ = Some _ |- _ => unfold taskData_of in H
  end.

Lemma sleep_task_calldata ms : task_calldata w (EvSleep ms).
Proof. left. exists []. exact I. Qed.

Ltac solve_calldata :=
  subst; rewrite ?Forall_app, ?Forall_cons, ?Forall_nil;
  repeat split; try done; try apply sleep_task_calldata.

Lemma requestTask_calldata taskData performed c r c' tr :
  Part000.requestTask w depth taskData performed c = Some (r, c', tr) ->
  Forall (task_calldata w) tr.
Proof.
  unfold Part000.requestTask. intros H.
  repeat (inv_run; trace_facts). all: solve_calldata.
Qed.

Lemma agentTask_calldata taskData performed c r c' tr :
  Part000.agentTask w depth taskData performed c = Some (r, c', tr) ->
  Forall (task_calldata w) tr.
Proof.
  unfold Part000.agentTask. intros H.
  repeat (inv_run; trace_facts). all: solve_calldata.
Qed.

Lemma runDailyTasks_calldata c r c' tr :
  Part000.runDailyTasks w depth c = Some (r, c', tr) ->
  Forall (task_calldata w) tr.
Proof.
  unfold Part000.runDailyTasks. intros H.
  repeat (inv_run; trace_facts;
          repeat match goal with
          | H : Part000.requestTask _ _ _ _ _ = Some _ |- _ =>
              apply requestTask_calldata in H
          | H : Part000.agentTask _ _ _ _ _ = Some _ |- _ =>
              apply agentTask_calldata in H
          end).
  all: solve_calldata.
Qed.

End TaskCalldata.

Lemma selectors_four_bytes :
  four_bytes FUNCTION_SELECTORS_SUBMIT_REQUEST /\
  four_bytes FUNCTION_SELECTORS_SUBMIT_AGENT.
Proof. by vm_compute. Qed.


(** * Counting the actions *)

Lemma created_id_spec d id :
  created_id d = Some id <->
  d_code d = Some 0 /\ exists p, d_data d = Some p /\ p_id p = Some id /\ id <> 0.
Proof.
  unfold created_id, code_is_zero. split.
  - intros H. destruct (d_code d) as [n|]; [|done].
    destruct (Z.eqb_spec n 0) as [Hn|]; [subst n|done].
    destruct (d_data d) as [p|]; [|done].
    destruct (p_id p) as [m|] eqn:Hid; [|done].
    destruct (Z.eqb_spec m 0); [done|]. injection H as <-. eauto 10.
  - intros (-> & p & -> & -> & Hne). simpl.
    destruct (Z.eqb_spec id 0); done.
Qed.

Section Counting.

Variable w : World.
Variable depth : nat.

Ltac step_tasks :=
  repeat (inv_run;
          repeat match goal with
          | H : data_of _ _ = Some _ |- _ => unfold data_of in H
          | H : taskData_of _ _ = Some _ |- _ => unfold taskData_of in H
          end).

Lemma requestTask_only_if taskData performed c p' c' tr :
  Part000.requestTask w depth taskData performed c = Some (Ok p', c', tr) ->
  p' = performed \/
  (p' = performed + 1 /\
   exists title content id c0 c1 tr1 tr2,
     created w depth (createRequest (endpoints (CONFIG w)))
       (BodyCreateRequest title content) c0 id c1 tr1 /\
     sendRawTransaction w FUNCTION_SELECTORS_SUBMIT_REQUEST ["uint256"; "string"]
       [VUint id; VString title] None c1 = Some (Ok true, c', tr2)).
Proof.
  unfold Part000.requestTask. intros H. step_tasks.
  all: try (left; reflexivity).
  right. split; [reflexivity|]. unfold created. eauto 20.
Qed.

Lemma agentTask_only_if taskData performed c p' c' tr :
  Part000.agentTask w depth taskData performed c = Some (Ok p', c', tr) ->
  p' = performed \/
  (p' = performed + 1 /\
   exists name description agentDescription id c0 c1 c2 tr1 tr2,
     created w depth (createRepositories (endpoints (CONFIG w)))
       (BodyCreateAgent name description) c0 id c1 tr1 /\
     sendRawTransaction w FUNCTION_SELECTORS_SUBMIT_AGENT
       ["uint256"; "string"; "string"]
       [VUint id; VString name; VString agentDescription] None c2
     = Some (Ok true, c', tr2)).
Proof.
  unfold Part000.agentTask. intros H. step_tasks.
  all: try (left; reflexivity).
  right. split; [reflexivity|]. unfold created. eauto 20.
Qed.

Lemma requestTask_run taskData performed c title ca content cb id c1 tr1 b c2 tr2 :
  is_done p_is_create_request taskData = false ->
  getRandomItem w TITLES c = Some (Ok title, ca, []) ->
  getRandomContent w ca = Some (Ok content, cb, []) ->
  created w depth (createRequest (endpoints (CONFIG w)))
    (BodyCreateRequest title content) cb id c1 tr1 ->
  sendRawTransaction w FUNCTION_SELECTORS_SUBMIT_REQUEST ["uint256"; "string"]
    [VUint id; VString title] None c1 = Some (Ok b, c2, tr2) ->
  Part000.requestTask w depth taskData performed c
  = Some (Ok (if b then performed + 1 else performed), c2,
          tr1 ++ EvSleep 2000 :: tr2).
Proof.
  intros Hdone Htitle Hcontent (res & d & Hreq & Hd & Hid) Hsend.
  unfold Part000.requestTask. rewrite Hdone. cbn [negb].
  unfold bind at 1. rewrite Htitle.
  unfold bind at 1. rewrite Hcontent.
  unfold bind at 1. rewrite Hreq.
  unfold bind at 1, data_of. rewrite Hd. unfold ret at 1. rewrite Hid.
  unfold bind at 1, sleep, emit.
  unfold bind at 1. rewrite Hsend.
  destruct b; unfold ret; simpl; by rewrite ?app_nil_r.
Qed.

Lemma agentTask_run taskData performed c name ca description cb id c1 tr1
    agentDescription cd b c2 tr2 :
  is_done p_is_create_agent taskData = false ->
  getRandomAgentName w c = Some (Ok name, ca, []) ->
  getRandomItem w AGENT_DESCRIPTIONS ca = Some (Ok description, cb, []) ->
  created w depth (createRepositories (endpoints (CONFIG w)))
    (BodyCreateAgent name description) cb id c1 tr1 ->
  getRandomItem w AGENT_DESCRIPTIONS c1 = Some (Ok agentDescription, cd, []) ->
  sendRawTransaction w FUNCTION_SELECTORS_SUBMIT_AGENT
    ["uint256"; "string"; "string"]
    [VUint id; VString name; VString agentDescription] None cd
  = Some (Ok b, c2, tr2) ->
  Part000.agentTask w depth taskData performed c
  = Some (Ok (if b then performed + 1 else performed), c2,
          tr1 ++ EvSleep 2000 :: tr2).
Proof.
  intros Hdone Hname Hdesc (res & d & Hreq & Hd & Hid) Hdesc2 Hsend.
  unfold Part000.agentTask. rewrite Hdone. cbn [negb].
  unfold bind at 1. rewrite Hname.
  unfold bind at 1. rewrite Hdesc.
  unfold bind at 1. rewrite Hreq.
  unfold bind at 1, data_of. rewrite Hd. unfold ret at 1. rewrite Hid.
  unfold bind at 1, sleep, emit.
  unfold bind at 1. rewrite Hdesc2.
  unfold bind at 1. rewrite Hsend.
  destruct b; unfold ret; simpl; by rewrite ?app_nil_r.
Qed.

Lemma runDailyTasks_success c res c' tr :
  Part000.runDailyTasks w depth c = Some (Ok res, c', tr) ->
  success res = true ->
  exists taskData p1 p2 c1 c2 tr1 tr2,
    Part000.requestTask w depth taskData 0 c1 = Some (Ok p1, c2, tr1) /\
    Part000.agentTask w depth taskData p1 c2 = Some (Ok p2, c', tr2) /\
    result_status res = status_of p2.
Proof.
  unfold Part000.runDailyTasks. intros H Hsuccess. step_tasks.
  all: try discriminate Hsuccess.
  all: eauto 20.
Qed.

Lemma runDailyTasks_run c c0 tr0 taskRes d c1 tr1 p1 c2 tr2 p2 c3 tr3 :
  login w depth c = Some (Ok true, c0, tr0) ->
  requestWithRetry w depth "post" (verifyDailyTask (endpoints (CONFIG w)))
    BodyDefault None c0 = Some (Ok (Some taskRes), c1, tr1) ->
  r_data taskRes = Some d ->
  Part000.requestTask w depth (d_data d) 0 c1 = Some (Ok p1, c2, tr2) ->
  Part000.agentTask w depth (d_data d) p1 c2 = Some (Ok p2, c3, tr3) ->
  Part000.runDailyTasks w depth c
  = Some (Ok (mkTaskResult true (Some (Part000.pointsOf w (d_data d))) (status_of p2)),
          c3, tr0 ++ tr1 ++ tr2 ++ tr3).
Proof.
  intros Hlogin Hverify Hd Hreq Hagent.
  unfold Part000.runDailyTasks.
  unfold bind at 1. rewrite Hlogin. cbn [negb].
  unfold try_catch at 1, bind at 1. rewrite Hverify.
  unfold bind at 1, taskData_of, data_of, bind at 1. rewrite Hd. unfold ret at 1 2.
  cbn beta iota.
  unfold bind at 1. rewrite Hreq.
  unfold bind at 1. rewrite Hagent.
  unfold try_catch, ret. simpl. by rewrite ?app_nil_r.
Qed.

Lemma status_of_spec p :
  (status_of p = "Work Done" <-> 0 < p) /\
  (status_of p = "Already Done" <-> p <= 0).
Proof. unfold status_of. destruct (Z.ltb_spec 0 p); split; split; (done || lia). Qed.


End Counting.

(** C4.  An action adds one to the count only if its create-call came
    back with a success code and an identifier and its submission returned
    [true]; once the create-call has so come back the action returns
    normally whatever the submission returns, counting it exactly when it
    returned [true]; a successful cycle ran both actions, one after the
    other, and its status is [Work Done] exactly when at least one of them
    counted and [Already Done] exactly when none did; and a cycle whose
    login, status request and create-calls return is successful. *)
Theorem performed_counting w depth :
  (forall taskData performed c p' c' tr,
      Part000.requestTask w depth taskData performed c = Some (Ok p', c', tr) ->
      p' = performed \/
      (p' = performed + 1 /\
       exists title content id c0 c1 tr1 tr2,
         created w depth (createRequest (endpoints (CONFIG w)))
           (BodyCreateRequest title content) c0 id c1 tr1 /\
         sendRawTransaction w FUNCTION_SELECTORS_SUBMIT_REQUEST
           ["uint256"; "string"] [VUint id; VString title] None c1
         = Some (Ok true, c', tr2))) /\
  (forall taskData performed c p' c' tr,
      Part000.agentTask w depth taskData performed c = Some (Ok p', c', tr) ->
      p' = performed \/
      (p' = performed + 1 /\
       exists name description agentDescription id c0 c1 c2 tr1 tr2,
         created w depth (createRepositories (endpoints (CONFIG w)))
           (BodyCreateAgent name description) c0 id c1 tr1 /\
         sendRawTransaction w FUNCTION_SELECTORS_SUBMIT_AGENT
           ["uint256"; "string"; "string"]
           [VUint id; VString name; VString agentDescription] None c2
         = Some (Ok true, c', tr2))) /\
  (forall taskData performed c title ca content cb id c1 tr1 b c2 tr2,
      is_done p_is_create_request taskData = false ->
      getRandomItem w TITLES c = Some (Ok title, ca, []) ->
      getRandomContent w ca = Some (Ok content, cb, []) ->
      created w depth (createRequest (endpoints (CONFIG w)))
        (BodyCreateRequest title content) cb id c1 tr1 ->
      sendRawTransaction w FUNCTION_SELECTORS_SUBMIT_REQUEST ["uint256"; "string"]
        [VUint id; VString title] None c1 = Some (Ok b, c2, tr2) ->
      Part000.requestTask w depth taskData performed c
      = Some (Ok (if b then performed + 1 else performed), c2,
              tr1 ++ EvSleep 2000 :: tr2)) /\
  (forall taskData performed c name ca description cb id c1 tr1
          agentDescription cd b c2 tr2,
      is_done p_is_create_agent taskData = false ->
      getRandomAgentName w c = Some (Ok name, ca, []) ->
      getRandomItem w AGENT_DESCRIPTIONS ca = Some (Ok description, cb, []) ->
      created w depth (createRepositories (endpoints (CONFIG w)))
        (BodyCreateAgent name description) cb id c1 tr1 ->
      getRandomItem w AGENT_DESCRIPTIONS c1 = Some (Ok agentDescription, cd, []) ->
      sendRawTransaction w FUNCTION_SELECTORS_SUBMIT_AGENT
        ["uint256"; "string"; "string"]
        [VUint id; VString name; VString agentDescription] None cd
      = Some (Ok b, c2, tr2) ->
      Part000.agentTask w depth taskData performed c
      = Some (Ok (if b then performed + 1 else performed), c2,
              tr1 ++ EvSleep 2000 :: tr2)) /\
  (forall c res c' tr,
      Part000.runDailyTasks w depth c = Some (Ok res, c', tr) ->
      success res = true ->
      exists taskData p1 p2 c1 c2 tr1 tr2,
        Part000.requestTask w depth taskData 0 c1 = Some (Ok p1, c2, tr1) /\
        Part000.agentTask w depth taskData p1 c2 = Some (Ok p2, c', tr2) /\
        (result_status res = "Work Done" <-> p1 = 1 \/ p2 = p1 + 1) /\
        (result_status res = "Already Done" <-> p1 = 0 /\ p2 = p1)) /\
  (forall c c0 tr0 taskRes d c1 tr1 p1 c2 tr2 p2 c3 tr3,
      login w depth c = Some (Ok true, c0, tr0) ->
      requestWithRetry w depth "post" (verifyDailyTask (endpoints (CONFIG w)))
        BodyDefault None c0 = Some (Ok (Some taskRes), c1, tr1) ->
      r_data taskRes = Some d ->
      Part000.requestTask w depth (d_data d) 0 c1 = Some (Ok p1, c2, tr2) ->
      Part000.agentTask w depth (d_data d) p1 c2 = Some (Ok p2, c3, tr3) ->
      Part000.runDailyTasks w depth c
      = Some (Ok (mkTaskResult true (Some (Part000.pointsOf w (d_data d)))
                    (status_of p2)),
              c3, tr0 ++ tr1 ++ tr2 ++ tr3)).
Proof.
  split; [|split; [|split; [|split; [|split]]]].
  - apply requestTask_only_if.
  - apply agentTask_only_if.
  - apply requestTask_run.
  - apply agentTask_run.
  - intros c res c' tr Hrun Hsuccess.
    destruct (runDailyTasks_success w depth _ _ _ _ Hrun Hsuccess)
      as (taskData & p1 & p2 & c1 & c2 & tr1 & tr2 & Hreq & Hagent & ->).
    exists taskData, p1, p2, c1, c2, tr1, tr2.
    split; [exact Hreq|]. split; [exact Hagent|].
    destruct (requestTask_only_if w depth _ _ _ _ _ _ Hreq) as [Hp1|[Hp1 _]];
      destruct (agentTask_only_if w depth _ _ _ _ _ _ Hagent) as [Hp2|[Hp2 _]];
      destruct (status_of_spec p2) as [Hwork Halready];
      rewrite Hwork, Halready; lia.
  - apply runDailyTasks_run.
Qed.

(** The end-to-end scenario: the request is confirmed on chain, the agent
    is mined with a failure status and is not retried; the cycle succeeds
    with one action counted and the cooldown moves to the clock reading at
    the update plus the loop interval. *)
Example end_to_end_scenario :
  exists c' tr tr',
    Part000.runDailyTasks scenario_world 1 newClient
    = Some (Ok (mkTaskResult true (Some (PStr "-")) "Work Done"), c', tr) /\
    length (filter is_rpc tr) = 6%nat /\
    processAccount scenario_env Part000.runDailyTasks 1 0 demo_account
      (mkMain (newWalletDB None) [] 0)
    = Some (Ok tt,
            mkMain (mkWalletDB {[ "0xabc1" := 1001 + 86400000 ]} None)
              [mkRow 1 (PStr "-") "Work Done" (NextAt (1002 + 86400000))] 3,
            tr').
Proof.
  eexists _, _, _. split; [vm_compute; reflexivity|].
  split; [vm_compute; reflexivity|]. vm_compute. reflexivity.
Qed.

(** * Runs in concrete worlds *)

(** An estimation that hangs is cut off after 10 seconds, and the
    submission goes on with a gas limit of 300000. *)
Example hung_estimate_falls_back :
  sendRawTransaction hung_estimate_world FUNCTION_SELECTORS_SUBMIT_REQUEST
    ["uint256"; "string"] [VUint 42; VString "title"] None newClient
  = Some (Ok true, mkClient None 0 3 0 0,
          [EvEstimateGas (mkTxRequest "0xA9e17" "0xc9a5fadfabcdef") Pending 10000;
           EvSendTx (mkTxRequest "0xA9e17" "0xc9a5fadfabcdef") 300000
             (Settles 300 (Ok (mkTx "0xfeed"))) 300;
           EvWait (mkTx "0xfeed") (Settles 4000 (Ok (mkReceipt (Some 1)))) 4000]).
Proof. vm_compute. reflexivity. Qed.

(** On an estimation error that is no revert [sendRawTransaction] goes on
    with 200000 units, [sendTransactionWithRetry] with 500000. *)
Example failing_estimate_falls_back :
  (exists c' p t tr,
      sendRawTransaction failing_estimate_world FUNCTION_SELECTORS_SUBMIT_REQUEST
        ["uint256"; "string"] [VUint 42; VString "title"] None newClient
      = Some (Ok true, c',
              [EvEstimateGas (mkTxRequest "0xA9e17" "0xc9a5fadfabcdef") p t;
               EvSendTx (mkTxRequest "0xA9e17" "0xc9a5fadfabcdef") 200000
                 (Settles 300 (Ok (mkTx "0xfeed"))) 300] ++ tr)) /\
  (exists c' p t tr,
      sendTransactionWithRetry failing_estimate_world submitRequest
        [VUint 42; VString "title"] None newClient
      = Some (Ok true, c',
              [EvEstimateGas (mkTxRequest "0xA9e17" "0x00") p t;
               EvSendTx (mkTxRequest "0xA9e17" "0x00") 500000
                 (Settles 300 (Ok (mkTx "0xfeed"))) 300] ++ tr)).
Proof. split; eexists _, _, _, _; vm_compute; reflexivity. Qed.

(** Five attempts, pauses of 3, 6, 9 and 12 seconds between them, and the
    error of the fifth attempt for the caller. *)
Example offline_backoff :
  exists c' tr,
    requestWithRetry offline_world 0 "post" "/api/verify" BodyDefault None newClient
    = Some (Throw (mkJsError (Some "ECONNRESET") "socket hang up #4" None), c', tr) /\
    schedule tr
    = [At 0; Wait 3000; At 1; Wait 6000; At 2; Wait 9000; At 3; Wait 12000; At 4].
Proof. eexists _, _. split; vm_compute; reflexivity. Qed.

(** * Whole runs of [sendRawTransaction] *)

Lemma runWithTimeout_fulfilled {A} (p : Promise A) ms msg t a :
  runWithTimeout p ms msg = Settles t (Ok a) -> p = Settles t (Ok a) /\ t < ms.
Proof.
  destruct p as [t0 r0|]; simpl; [|discriminate].
  destruct (Z.ltb_spec t0 ms); intros [= <- <-]. done.
Qed.

Lemma runWithTimeout_rejected {A} (p : Promise A) ms msg t e :
  runWithTimeout p ms msg = Settles t (Throw e) ->
  (p = Settles t (Throw e) /\ t < ms) \/
  (timed_out p ms /\ t = ms /\ e = Error msg).
Proof.
  destruct p as [t0 r0|]; simpl.
  - destruct (Z.ltb_spec t0 ms); intros [= <- <-]; [by left|by right].
  - intros [= <- <-]. by right.
Qed.

Lemma elapsed_time_app tr tr' :
  elapsed_time (tr ++ tr') = elapsed_time tr + elapsed_time tr'.
Proof. induction tr as [|ev tr IH]; simpl; lia. Qed.

Lemma submit_catch_cases retries i e ctl tr :
  submit_catch retries i e = (ctl, tr) ->
  (ctl = Return false /\ tr = [] /\ (isRevert e = true \/ retries - 1 <= i)) \/
  (ctl = Next tt /\ tr = [EvSleep 5000] /\ isRevert e = false /\ i < retries - 1).
Proof.
  unfold submit_catch. destruct (isRevert e) eqn:Hrev.
  - intros [= <- <-]. left. eauto.
  - destruct (Z.ltb_spec i (retries - 1)); intros [= <- <-]; [right|left]; eauto.
Qed.

Lemma raw_gas_decision_return r b : raw_gas_decision r = Return b -> b = false.
Proof.
  destruct r as [est|e]; simpl; [discriminate|].
  destruct (String.eqb _ _); [discriminate|].
  destruct (isRevert e); [|discriminate]. by intros [= <-].
Qed.

Section RawRuns.

Variable w : World.

Local Opaque runWithTimeout isRevert String.eqb slice.

Lemma raw_attempt_next req retries i tr :
  raw_attempt req retries i tr (Next tt) -> i < retries - 1.
Proof.
  inversion 1; subst;
    match goal with
    | H : submit_catch _ _ _ = _ |- _ =>
        apply submit_catch_cases in H as [(? & _)|(_ & _ & _ & ?)]; [discriminate|done]
    end.
Qed.

Lemma loop_run_raw_run selector paramTypes paramValues encodedParams retries n i tr b :
  w_abi_encode w paramTypes paramValues = Ok encodedParams ->
  loop_run (raw_attempt_spec w selector paramTypes paramValues retries)
    (fun tr r => tr = [] /\ r = Ok false) n i tr (Ok b) ->
  Z.of_nat n = Z.max 0 (retries - i) ->
  raw_run (mkTxRequest (agentContract (CONFIG w)) (selector +:+ slice 2 encodedParams))
    retries i tr b.
Proof.
  intros Henc Hloop. remember (Ok b) as res eqn:Hres. revert b Hres.
  induction Hloop as [i tr r [-> ->]|n i tr r Hspec|n i tr e Hspec
                     |n i tr tr' r Hspec Hloop IH]; intros b Hres Hn.
  - injection Hres as <-. apply RR_exhausted. lia.
  - injection Hres as ->. destruct Hspec as (ctl & [= <-] & Hspec).
    rewrite Henc in Hspec. apply RR_return; [lia|done].
  - discriminate.
  - destruct Hspec as (ctl & [= <-] & Hspec). rewrite Henc in Hspec.
    pose proof (raw_attempt_next _ _ _ _ Hspec).
    apply RR_next; [done|done|]. apply IH; [done|lia].
Qed.

(** A run of [sendRawTransaction] whose parameters encode. *)
Lemma sendRawTransaction_raw_run selector paramTypes paramValues encodedParams retries
    c b c' tr :
  w_abi_encode w paramTypes paramValues = Ok encodedParams ->
  sendRawTransaction w selector paramTypes paramValues retries c = Some (Ok b, c', tr) ->
  raw_run (mkTxRequest (agentContract (CONFIG w)) (selector +:+ slice 2 encodedParams))
    (default 3 retries) 0 tr b.
Proof.
  intros Henc Hrun.
  destruct (sendRawTransaction_run w selector paramTypes paramValues retries c)
    as (b0 & c0 & tr0 & Hrun0 & Hloop).
  rewrite Hrun in Hrun0. injection Hrun0 as <- <- <-.
  eapply loop_run_raw_run; eauto. lia.
Qed.

(** A run of [sendRawTransaction] whose parameters do not encode. *)
Lemma sendRawTransaction_encode_throws selector paramTypes paramValues retries c e :
  w_abi_encode w paramTypes paramValues = Throw e ->
  sendRawTransaction w selector paramTypes paramValues retries c
  = Some (Ok false, c,
          if isRevert e then []
          else repeat (EvSleep 5000) (Z.to_nat (default 3 retries) - 1)).
Proof.
  intros Henc. unfold sendRawTransaction. cbv zeta.
  generalize (default 3 retries). intros R.
  assert (forall n i, Z.of_nat n = Z.max 0 (R - i) ->
            for_loop n i (sendRawTransaction_attempt w selector paramTypes paramValues R)
              (ret false) c
            = Some (Ok false, c,
                    if isRevert e then [] else repeat (EvSleep 5000) (n - 1))) as Hloop.
  { induction n as [|n IH]; intros i Hn.
    - simpl. unfold ret. by destruct (isRevert e).
    - cbn [for_loop]. unfold bind at 1.
      unfold sendRawTransaction_attempt at 1, try_catch, bind at 1, lift.
      rewrite Henc. cbn beta iota.
      destruct (isRevert e) eqn:Hrev; [reflexivity|].
      destruct (Z.ltb_spec i (R - 1)).
      + unfold bind, sleep, emit, ret. cbn beta iota.
        rewrite IH by lia.
        destruct n as [|n]; [lia|]. simpl. by rewrite Nat.sub_0_r.
      + unfold ret. cbn beta iota.
        assert (n = O) as -> by lia. reflexivity. }
  apply Hloop. lia.
Qed.

Lemma raw_attempt_elapsed req retries i tr ctl :
  raw_attempt req retries i tr ctl ->
  elapsed_time tr <= match ctl with Next _ => 105000 | Return _ => 100000 end.
Proof.
  inversion 1; subst; cbn [elapsed_time duration];
    repeat match goal with
    | H : runWithTimeout _ _ _ = Settles _ _ |- _ => apply runWithTimeout_elapsed in H
    | H : submit_catch _ _ _ = _ |- _ =>
        apply submit_catch_cases in H as [(-> & -> & _)|(-> & -> & _)]
    end; cbn [elapsed_time duration]; try lia.
Qed.

Lemma raw_run_elapsed req retries i tr b :
  raw_run req retries i tr b ->
  elapsed_time tr <= Z.max 0 ((retries - i) * 105000 - 5000).
Proof.
  induction 1 as [i Hi|i tr b Hi Hatt|i tr tr' b Hi Hatt Hrun IH].
  - simpl. lia.
  - apply raw_attempt_elapsed in Hatt. lia.
  - apply raw_attempt_elapsed in Hatt. rewrite elapsed_time_app. lia.
Qed.

Lemma elapsed_time_pauses n : elapsed_time (repeat (EvSleep 5000) n) = Z.of_nat n * 5000.
Proof. induction n as [|n IH]; [done|]. cbn [repeat elapsed_time duration]. lia. Qed.

End RawRuns.

(** X1.  [sendRawTransaction] is over within a time fixed by its budget:
    each of its at most [retries] rounds awaits the estimation for at most
    10 s, the broadcast for at most 30 s and the confirmation for at most
    60 s, and the rounds are 5 s apart.  With the default budget of 3 the
    call takes at most 310 seconds. *)
Theorem sendRawTransaction_duration w selector paramTypes paramValues retries c :
  exists b c' tr,
    sendRawTransaction w selector paramTypes paramValues retries c
    = Some (Ok b, c', tr) /\
    elapsed_time tr <= Z.max 0 (default 3 retries * 105000 - 5000) /\
    (retries = None -> elapsed_time tr <= 310000).
Proof.
  assert (exists b c' tr,
             sendRawTransaction w selector paramTypes paramValues retries c
             = Some (Ok b, c', tr) /\
             elapsed_time tr <= Z.max 0 (default 3 retries * 105000 - 5000))
    as (b & c' & tr & Hrun & Hbound).
  { destruct (w_abi_encode w paramTypes paramValues) as [enc|e] eqn:Henc.
    - destruct (sendRawTransaction_run w selector paramTypes paramValues retries c)
        as (b & c' & tr & Hrun & _).
      exists b, c', tr. split; [exact Hrun|].
      pose proof (sendRawTransaction_raw_run w _ _ _ _ _ _ _ _ _ Henc Hrun) as Hraw.
      apply raw_run_elapsed in Hraw. lia.
    - eexists _, _, _. split; [by apply sendRawTransaction_encode_throws|].
      destruct (isRevert e); [simpl; lia|].
      rewrite elapsed_time_pauses. lia. }
  exists b, c', tr. split; [exact Hrun|]. split; [exact Hbound|].
  intros ->. simpl in Hbound. lia.
Qed.

Lemma count_events_app f tr tr' :
  count_events f (tr ++ tr') = (count_events f tr + count_events f tr')%nat.
Proof. induction tr as [|ev tr IH]; simpl; lia. Qed.

Lemma well_ordered_app prev tr tr' :
  well_ordered prev tr -> (forall p, well_ordered p tr') ->
  well_ordered prev (tr ++ tr').
Proof.
  revert prev. induction tr as [|ev tr IH]; intros prev; simpl; [done|].
  intros [? ?] ?. split; [done|]. by apply IH.
Qed.

Lemma well_ordered_pauses prev n : well_ordered prev (repeat (EvSleep 5000) n).
Proof. revert prev. induction n as [|n IH]; intros prev; simpl; [done|]. split; [done|apply IH]. Qed.

Lemma pauses_only n :
  Forall (fun ev => is_rpc ev = true \/ ev = EvSleep 5000) (repeat (EvSleep 5000) n).
Proof. induction n as [|n IH]; simpl; constructor; [by right|done]. Qed.

Lemma count_events_pauses f n :
  f (EvSleep 5000) = false -> count_events f (repeat (EvSleep 5000) n) = O.
Proof. intros Hf. induction n as [|n IH]; simpl; [done|]. by rewrite Hf. Qed.

Lemma status_is_success receipt : status_is receipt 1 = true <-> status receipt = Some 1.
Proof.
  unfold status_is. destruct (status receipt) as [s|]; [|done].
  destruct (Z.eqb_spec s 1); split; congruence.
Qed.

Lemma last_pauses n ev : last (repeat (EvSleep 5000) n) = Some ev -> ev = EvSleep 5000.
Proof.
  induction n as [|n IH]; simpl; [done|].
  destruct n as [|n]; simpl in *; [congruence|exact IH].
Qed.

(** Inverting one iteration. *)
Ltac raw_attempt_cases H :=
  inversion H; subst; clear H;
  repeat match goal with
  | H : submit_catch _ _ _ = _ |- _ =>
      apply submit_catch_cases in H as [(? & ? & ?)|(? & ? & ? & ?)]; simplify_eq
  | H : raw_gas_decision _ = Return _ |- _ => apply raw_gas_decision_return in H as ->
  end.

Section RawRounds.

Variable w : World.

Local Opaque runWithTimeout isRevert String.eqb slice.

Lemma raw_attempt_shape req retries i tr ctl :
  raw_attempt req retries i tr ctl ->
  (forall prev, well_ordered prev tr) /\
  Forall (fun ev => is_rpc ev = true \/ ev = EvSleep 5000) tr /\
  count_events is_estimate tr = 1%nat /\
  (count_events is_send tr <= 1)%nat /\
  exists p t tr', tr = EvEstimateGas req p t :: tr'.
Proof.
  intros H. raw_attempt_cases H.
  all: repeat match goal with
       | H : runWithTimeout _ 30000 _ = Settles _ (Ok _) |- _ =>
           apply runWithTimeout_fulfilled in H as [-> ?]
       end.
  all: split; [by intros prev; simpl; repeat split; eauto 10|].
  all: split;
    [repeat first [apply Forall_nil_2|apply Forall_cons_2; [by (left + right)|]]|].
  all: simpl; split; [reflexivity|]; split; [lia|]; eauto.
Qed.

Lemma raw_run_shape req retries i tr b :
  raw_run req retries i tr b ->
  (forall prev, well_ordered prev tr) /\
  Forall (fun ev => is_rpc ev = true \/ ev = EvSleep 5000) tr /\
  (Z.of_nat (count_events is_estimate tr) <= Z.max 0 (retries - i)) /\
  (Z.of_nat (count_events is_send tr) <= Z.max 0 (retries - i)) /\
  (i < retries -> exists p t tr', tr = EvEstimateGas req p t :: tr').
Proof.
  induction 1 as [i Hi|i tr b Hi Hatt|i tr tr' b Hi Hatt Hrun IH].
  - simpl. repeat split; try done; lia.
  - apply raw_attempt_shape in Hatt as (Hwo & Hall & Hest & Hsend & Hhead).
    repeat split; try done; lia.
  - apply raw_attempt_shape in Hatt as (Hwo & Hall & Hest & Hsend & p & t & tr0 & ->).
    destruct IH as (Hwo' & Hall' & Hest' & Hsend' & _).
    split; [intros prev; by apply well_ordered_app|].
    split; [by apply Forall_app|].
    rewrite !count_events_app.
    split; [lia|]. split; [lia|]. intros _. simpl. eauto.
Qed.

Lemma raw_run_confirmed req retries i tr b :
  raw_run req retries i tr b ->
  b = true <->
  exists tx t receipt,
    last tr = Some (EvWait tx (Settles t (Ok receipt)) t) /\ t < 60000 /\
    status receipt = Some 1.
Proof.
  induction 1 as [i Hi|i tr b Hi Hatt|i tr tr' b Hi Hatt Hrun IH].
  - split; [done|]. by intros (? & ? & ? & [=] & _).
  - raw_attempt_cases Hatt.
    all: try (split; [done|]; intros (? & ? & ? & [=] & _); done).
    + split; [done|]. intros (tx0 & t0 & receipt & [= ? ? ?] & Ht & _). subst.
      match goal with
      | H : runWithTimeout _ _ _ = Settles _ (Throw _) |- _ =>
          rewrite (runWithTimeout_in_time _ 60000 _ _ _ eq_refl Ht) in H; discriminate
      end.
    + match goal with
      | H : runWithTimeout _ 60000 _ = Settles _ (Ok _) |- _ =>
          apply runWithTimeout_fulfilled in H as [-> ?]
      end.
      rewrite status_is_success. split.
      * intros Hs. simpl. eauto 10.
      * by intros (? & ? & ? & [= ? ? ?] & _ & ?); simplify_eq.
  - rewrite IH. rewrite last_app.
    destruct (last tr') as [ev|] eqn:Hlast; [done|].
    apply raw_attempt_shape in Hatt as (_ & _ & _ & _ & p & t & tr0 & ->).
    apply last_None in Hlast as ->.
    inversion Hrun as [i0 Hi0|i0 tr0' b0 Hi0 Hatt0|i0 tr1 tr2 b0 Hi0 Hatt0 Hrun0 Heq];
      subst; [lia| |].
    + apply raw_attempt_shape in Hatt0 as (_ & _ & _ & _ & ? & ? & ? & [=]).
    + apply raw_attempt_shape in Hatt0 as (_ & _ & _ & _ & ? & ? & ? & ->).
      discriminate.
Qed.

End RawRounds.

(** X2.  A run of [sendRawTransaction] is a sequence of rounds five
    seconds apart and makes no other effect: every broadcast directly
    follows an estimation of the same request, every wait for a
    confirmation directly follows the broadcast that returned its
    transaction within 30 s, and there are at most [retries] estimations
    and at most [retries] broadcasts. *)
Theorem sendRawTransaction_rounds w selector paramTypes paramValues retries c :
  exists b c' tr,
    sendRawTransaction w selector paramTypes paramValues retries c
    = Some (Ok b, c', tr) /\
    well_ordered None tr /\
    Forall (fun ev => is_rpc ev = true \/ ev = EvSleep 5000) tr /\
    Z.of_nat (count_events is_estimate tr) <= Z.max 0 (default 3 retries) /\
    Z.of_nat (count_events is_send tr) <= Z.max 0 (default 3 retries).
Proof.
  destruct (w_abi_encode w paramTypes paramValues) as [enc|e] eqn:Henc.
  - destruct (sendRawTransaction_run w selector paramTypes paramValues retries c)
      as (b & c' & tr & Hrun & _).
    exists b, c', tr. split; [exact Hrun|].
    pose proof (sendRawTransaction_raw_run w _ _ _ _ _ _ _ _ _ Henc Hrun) as Hraw.
    apply raw_run_shape in Hraw as (Hwo & Hall & Hest & Hsend & _).
    rewrite Z.sub_0_r in Hest, Hsend. done.
  - eexists _, _, _. split; [by apply sendRawTransaction_encode_throws|].
    destruct (isRevert e).
    + simpl. repeat split; try done; lia.
    + split; [apply well_ordered_pauses|]. split; [apply pauses_only|].
      rewrite !count_events_pauses by done. lia.
Qed.

(** X3.  [sendRawTransaction] returns [true] exactly when the last thing
    it did was to receive, within 60 s, a receipt whose status is 1. *)
Theorem sendRawTransaction_true_iff_confirmed w selector paramTypes paramValues
    retries c :
  exists b c' tr,
    sendRawTransaction w selector paramTypes paramValues retries c
    = Some (Ok b, c', tr) /\
    (b = true <->
     exists tx t receipt,
       last tr = Some (EvWait tx (Settles t (Ok receipt)) t) /\ t < 60000 /\
       status receipt = Some 1).
Proof.
  destruct (w_abi_encode w paramTypes paramValues) as [enc|e] eqn:Henc.
  - destruct (sendRawTransaction_run w selector paramTypes paramValues retries c)
      as (b & c' & tr & Hrun & _).
    exists b, c', tr. split; [exact Hrun|].
    eapply raw_run_confirmed, sendRawTransaction_raw_run; eauto.
  - eexists _, _, _. split; [by apply sendRawTransaction_encode_throws|].
    split; [done|]. intros (tx & t & receipt & Hlast & _).
    destruct (isRevert e); [done|]. by apply last_pauses in Hlast.
Qed.

(** X4.  Parameters that the encoder rejects are retried like a network
    failure: [sendRawTransaction] makes no RPC call, sleeps 5 s after each
    round but the last, and returns [false], leaving the client as it
    was. *)
Theorem encoding_error_is_retried w selector paramTypes paramValues retries c e :
  w_abi_encode w paramTypes paramValues = Throw e ->
  isRevert e = false ->
  sendRawTransaction w selector paramTypes paramValues retries c
  = Some (Ok false, c, repeat (EvSleep 5000) (Z.to_nat (default 3 retries) - 1)).
Proof.
  intros Henc Hrev.
  rewrite (sendRawTransaction_encode_throws w _ _ _ _ _ _ Henc). by rewrite Hrev.
Qed.

Lemma encoding_error_is_retried_witness :
  sendRawTransaction bad_encoder_world FUNCTION_SELECTORS_SUBMIT_REQUEST
    ["uint256"; "string"] [VString "not a number"; VString "title"] None newClient
  = Some (Ok false, newClient, [EvSleep 5000; EvSleep 5000]).
Proof.
  apply (encoding_error_is_retried bad_encoder_world FUNCTION_SELECTORS_SUBMIT_REQUEST
           ["uint256"; "string"] [VString "not a number"; VString "title"] None
           newClient
           (mkJsError (Some "INVALID_ARGUMENT") "invalid BigNumberish value" None)).
  - reflexivity.
  - vm_compute. reflexivity.
Defined.

Lemma app_eq_middle {A} (tr tr' pre : list A) ev post :
  tr ++ tr' = pre ++ ev :: post ->
  (exists post1, tr = pre ++ ev :: post1 /\ post = post1 ++ tr') \/
  (exists pre2, pre = tr ++ pre2 /\ tr' = pre2 ++ ev :: post).
Proof.
  revert pre. induction tr as [|x tr IH]; intros pre; simpl.
  - intros ->. right. by exists pre.
  - destruct pre as [|y pre]; simpl.
    + intros [= -> <-]. left. by exists tr.
    + intros [= -> H]. apply IH in H as [(post1 & -> & ->)|(pre2 & -> & ->)].
      * left. by exists post1.
      * right. by exists pre2.
Qed.

Lemma timer_errors_are_no_reverts :
  isRevert (Error "Tx Send Timeout") = false /\
  isRevert (Error "Tx Wait Timeout") = false.
Proof. split; reflexivity. Qed.

Section RawTimeouts.

Variable w : World.

Local Opaque runWithTimeout isRevert String.eqb slice.

Lemma raw_attempt_cut_off req retries i tr ctl pre ev post :
  raw_attempt req retries i tr ctl ->
  tr = pre ++ ev :: post -> cut_off ev ->
  count_events is_estimate pre = 1%nat /\
  ((ctl = Next tt /\ post = [EvSleep 5000] /\ i < retries - 1) \/
   (ctl = Return false /\ post = [] /\ retries - 1 <= i)).
Proof.
  destruct timer_errors_are_no_reverts as [Hsend Hwait].
  intros Hatt Heq Hcut. raw_attempt_cases Hatt.
  all: repeat (destruct pre as [|? pre]; simplify_eq/=; try done).
  all: try match goal with
       | H : runWithTimeout ?p ?ms ?msg = Settles _ _, Hc : timed_out ?p ?ms |- _ =>
           rewrite (runWithTimeout_timed_out p ms msg Hc) in H; simplify_eq
       end.
  all: repeat match goal with
       | H : _ \/ _ |- _ => destruct H
       | H : isRevert _ = true |- _ => congruence
       end.
  all: split; [reflexivity|]; first [by left|by right].
Qed.

Lemma raw_run_cut_off req retries i tr b :
  raw_run req retries i tr b ->
  forall pre ev post,
    tr = pre ++ ev :: post -> cut_off ev ->
    if i + Z.of_nat (count_events is_estimate pre) <? retries
    then exists p t post', post = EvSleep 5000 :: EvEstimateGas req p t :: post'
    else post = [] /\ b = false.
Proof.
  induction 1 as [i Hi|i tr b Hi Hatt|i tr tr' b Hi Hatt Hrun IH];
    intros pre ev post Heq Hcut.
  - by destruct pre.
  - destruct (raw_attempt_cut_off _ _ _ _ _ _ _ _ Hatt Heq Hcut)
      as (-> & [([=] & _)|([= <-] & -> & ?)]).
    destruct (Z.ltb_spec (i + Z.of_nat 1) retries); [lia|done].
  - apply app_eq_middle in Heq as [(post1 & -> & ->)|(pre2 & -> & ->)].
    + destruct (raw_attempt_cut_off _ _ _ _ _ _ _ _ Hatt eq_refl Hcut)
        as (-> & [(_ & -> & ?)|([=] & _)]).
      destruct (Z.ltb_spec (i + Z.of_nat 1) retries); [|lia].
      apply raw_run_shape in Hrun as (_ & _ & _ & _ & Hhead).
      destruct Hhead as (p & t & post' & ->); [lia|]. simpl. eauto.
    + rewrite count_events_app.
      apply raw_attempt_shape in Hatt as (_ & _ & -> & _).
      specialize (IH _ _ _ eq_refl Hcut).
      replace (i + Z.of_nat (1 + count_events is_estimate pre2))
        with (i + 1 + Z.of_nat (count_events is_estimate pre2)) by lia.
      exact IH.
Qed.

End RawTimeouts.

(** X5.  A broadcast or a confirmation that [sendRawTransaction] gives up
    waiting for is not taken for a failure of the transaction: as long as
    the budget lasts, the call sleeps 5 s and then estimates the same
    request again, on the way to broadcasting it again.  Only in the last
    round does the timeout end the call, with [false]. *)
Theorem timed_out_submission_is_repeated w selector paramTypes paramValues retries c :
  exists b c' tr,
    sendRawTransaction w selector paramTypes paramValues retries c
    = Some (Ok b, c', tr) /\
    forall pre ev post,
      tr = pre ++ ev :: post -> cut_off ev ->
      if Z.of_nat (count_events is_estimate pre) <? default 3 retries
      then exists encodedParams p t post',
             w_abi_encode w paramTypes paramValues = Ok encodedParams /\
             post = EvSleep 5000
                      :: EvEstimateGas
                           (mkTxRequest (agentContract (CONFIG w))
                              (selector +:+ slice 2 encodedParams)) p t
                      :: post'
      else post = [] /\ b = false.
Proof.
  destruct (w_abi_encode w paramTypes paramValues) as [enc|e] eqn:Henc.
  - destruct (sendRawTransaction_run w selector paramTypes paramValues retries c)
      as (b & c' & tr & Hrun & _).
    exists b, c', tr. split; [exact Hrun|].
    pose proof (sendRawTransaction_raw_run w _ _ _ _ _ _ _ _ _ Henc Hrun) as Hraw.
    intros pre ev post Heq Hcut.
    pose proof (raw_run_cut_off _ _ _ _ _ Hraw _ _ _ Heq Hcut) as H.
    rewrite Z.add_0_l in H.
    destruct (_ <? _); [|exact H].
    destruct H as (p & t & post' & ->). eauto 10.
  - eexists _, _, _. split; [by apply sendRawTransaction_encode_throws|].
    intros pre ev post Heq Hcut.
    assert (ev = EvSleep 5000) as ->; [|done].
    destruct (isRevert e); [by destruct pre|].
    eapply repeat_spec. rewrite Heq. apply in_elt.
Qed.

(** * Whole runs of [sendTransactionWithRetry] *)

Section LegacyRuns.

Variable w : World.

Lemma legacy_estimate_step contractFunc args req t r c :
  w_populate w contractFunc args = Ok req ->
  w_estimateGas w (rpc_calls c) req = Settles t r ->
  try_catch
    (gasLimit <- contractFunc_estimateGas w contractFunc args ;;
     ret (Next (Z.quot (gasLimit * 120) 100)))
    (fun gasError =>
       if isRevert gasError then ret (Return false) else ret (Next 500000)) c
  = Some (Ok (legacy_gas_decision r), after_rpc c,
          [EvEstimateGas req (Settles t r) t]).
Proof.
  intros Hpop Hest.
  unfold try_catch, bind, contractFunc_estimateGas, bind, lift, await_rpc.
  rewrite Hpop. cbn beta iota. rewrite Hest.
  destruct r as [est|e]; simpl; [reflexivity|].
  by destruct (isRevert e).
Qed.

Lemma legacy_attempt_hangs contractFunc args retries i c req :
  w_populate w contractFunc args = Ok req ->
  (w_estimateGas w (rpc_calls c) req = Pending \/
   exists t r g,
     w_estimateGas w (rpc_calls c) req = Settles t r /\
     legacy_gas_decision r = Next g /\
     (w_sendTransaction w (S (rpc_calls c)) req g = Pending \/
      exists t2 tx,
        w_sendTransaction w (S (rpc_calls c)) req g = Settles t2 (Ok tx) /\
        w_wait w (S (S (rpc_calls c))) tx = Pending)) ->
  sendTransactionWithRetry_attempt w contractFunc args retries i c = None.
Proof.
  intros Hpop [Hest|(t & r & g & Hest & Hdec & Hrest)];
    unfold sendTransactionWithRetry_attempt; apply try_catch_None.
  - apply bind_None, try_catch_None, bind_None.
    unfold contractFunc_estimateGas, bind, lift, await_rpc.
    rewrite Hpop. cbn beta iota. by rewrite Hest.
  - unfold bind at 1. rewrite (legacy_estimate_step _ _ _ _ _ _ Hpop Hest), Hdec.
    unfold contractFunc_send, bind, lift, await_rpc. rewrite Hpop. cbn.
    destruct Hrest as [Hsend|(t2 & tx & Hsend & Hwait)]; rewrite Hsend; [done|].
    cbn. by rewrite Hwait.
Qed.

Lemma legacy_gas_decision_return r b : legacy_gas_decision r = Return b -> b = false.
Proof.
  destruct r as [est|e]; simpl; [discriminate|].
  destruct (isRevert e); [|discriminate]. by intros [= <-].
Qed.

Lemma legacy_attempt_last req retries i tr ctl :
  legacy_attempt req retries i tr ctl ->
  tr <> [] /\
  match ctl with
  | Next _ => last tr = Some (EvSleep 5000)
  | Return b =>
      b = true <->
      exists tx t receipt, last tr = Some (EvWait tx (Settles t (Ok receipt)) t)
  end.
Proof.
  inversion 1; subst;
    repeat match goal with
    | H : submit_catch _ _ _ = _ |- _ =>
        apply submit_catch_cases in H as [(? & ? & ?)|(? & ? & ? & ?)]; simplify_eq
    | H : legacy_gas_decision _ = Return _ |- _ =>
        apply legacy_gas_decision_return in H as ->
    end; (split; [done|]); simpl; try done.
  all: try (split; [done|]; by intros (? & ? & ? & [=])).
  split; [eauto|done].
Qed.

Lemma legacy_loop_confirmed contractFunc args retries n i tr b :
  loop_run (legacy_attempt_spec w contractFunc args retries)
    (fun tr r => tr = [] /\ r = Ok false) n i tr (Ok b) ->
  b = true <->
  exists tx t receipt, last tr = Some (EvWait tx (Settles t (Ok receipt)) t).
Proof.
  intros Hloop. remember (Ok b) as res eqn:Hres. revert b Hres.
  induction Hloop as [i tr r [-> ->]|n i tr r Hspec|n i tr e Hspec
                     |n i tr tr' r Hspec Hloop IH]; intros b Hres.
  - injection Hres as <-. split; [done|]. by intros (? & ? & ? & [=]).
  - injection Hres as ->. destruct Hspec as (ctl & [= <-] & Hspec).
    destruct (w_populate w contractFunc args) as [req|e].
    + by apply legacy_attempt_last in Hspec as [_ Hspec].
    + symmetry in Hspec.
      apply submit_catch_cases in Hspec as [(? & ? & ?)|(? & ? & ? & ?)]; simplify_eq.
      split; [done|]. by intros (? & ? & ? & [=]).
  - discriminate.
  - subst r. rewrite (IH b eq_refl). rewrite last_app.
    destruct (last tr') as [ev|] eqn:Hlast; [done|].
    apply last_None in Hlast as ->.
    assert (last tr = Some (EvSleep 5000)) as ->.
    { destruct Hspec as (ctl & [= <-] & Hspec).
      destruct (w_populate w contractFunc args) as [req|e].
      - by apply legacy_attempt_last in Hspec as [_ Hspec].
      - symmetry in Hspec.
        apply submit_catch_cases in Hspec as [(? & ? & ?)|(? & ? & ? & ?)];
          by simplify_eq. }
    split; by intros (? & ? & ? & [=]).
Qed.

End LegacyRuns.

(** X6.  [sendTransactionWithRetry] races nothing against a timer: when the
    node leaves the estimation, the broadcast or the wait for the
    confirmation of the first round unanswered, the call never returns. *)
Theorem sendTransactionWithRetry_can_hang w contractFunc args retries c req :
  w_populate w contractFunc args = Ok req ->
  0 < default 3 retries ->
  (w_estimateGas w (rpc_calls c) req = Pending \/
   exists t r g,
     w_estimateGas w (rpc_calls c) req = Settles t r /\
     legacy_gas_decision r = Next g /\
     (w_sendTransaction w (S (rpc_calls c)) req g = Pending \/
      exists t2 tx,
        w_sendTransaction w (S (rpc_calls c)) req g = Settles t2 (Ok tx) /\
        w_wait w (S (S (rpc_calls c))) tx = Pending)) ->
  sendTransactionWithRetry w contractFunc args retries c = None.
Proof.
  intros Hpop Hpos Hhang. unfold sendTransactionWithRetry. cbv zeta.
  destruct (Z.to_nat (default 3 retries)) as [|n] eqn:Hn; [lia|].
  cbn [for_loop]. apply bind_None. by eapply legacy_attempt_hangs.
Qed.

Lemma sendTransactionWithRetry_can_hang_witness :
  sendTransactionWithRetry unconfirmed_world submitRequest
    [VUint 42; VString "title"] None newClient = None.
Proof.
  apply (sendTransactionWithRetry_can_hang unconfirmed_world submitRequest
           [VUint 42; VString "title"] None newClient (mkTxRequest "0xA9e17" "0x00")).
  - reflexivity.
  - reflexivity.
  - right. exists 120, (Ok 50000), 60000. split; [reflexivity|].
    split; [reflexivity|]. right. exists 300, (mkTx "0xfeed"). split; reflexivity.
Defined.

(** X7.  [sendTransactionWithRetry] returns [true] exactly when the last
    thing it did was to see [tx.wait()] fulfilled; it does not look at the
    receipt. *)
Theorem sendTransactionWithRetry_true_iff_waited w contractFunc args retries c
    res c' tr :
  sendTransactionWithRetry w contractFunc args retries c = Some (res, c', tr) ->
  exists b, res = Ok b /\
    (b = true <->
     exists tx t receipt, last tr = Some (EvWait tx (Settles t (Ok receipt)) t)).
Proof.
  intros Hrun.
  apply sendTransactionWithRetry_run in Hrun as (b & -> & Hloop).
  exists b. split; [done|]. by eapply legacy_loop_confirmed.
Qed.

Lemma sendTransactionWithRetry_true_iff_waited_witness :
  exists b c' tr,
    sendTransactionWithRetry failing_estimate_world submitRequest
      [VUint 42; VString "title"] None newClient = Some (Ok b, c', tr) /\
    (b = true <->
     exists tx t receipt, last tr = Some (EvWait tx (Settles t (Ok receipt)) t)).
Proof.
  destruct (sendTransactionWithRetry failing_estimate_world submitRequest
              [VUint 42; VString "title"] None newClient)
    as [[[res c'] tr]|] eqn:Hrun; [|by vm_compute in Hrun].
  destruct (sendTransactionWithRetry_true_iff_waited _ _ _ _ _ _ _ _ Hrun)
    as (b & -> & Hiff).
  eauto.
Defined.

(** * Whole runs of [requestWithRetry] *)

Lemma isAuthError_Error msg : isAuthError (Error msg) = false.
Proof. reflexivity. Qed.

Section RequestRuns.

Variable w : World.

Local Opaque isAuthError isNetworkError session_expired.

Lemma request_catch_auth retries i e tr r res rest :
  request_catch retries i e tr r ->
  r = Ok (Next tt) \/ (rest = [] /\ loop_result r res) ->
  each_suffix (auth_error_handled res) rest ->
  each_suffix (auth_error_handled res) (tr ++ rest) /\
  (isAuthError e = true ->
   (exists sub, tr ++ rest = [EvLogin sub false] /\ res = Throw e) \/
   (exists sub cfg out,
       tr ++ rest = [EvLogin sub true; EvAxios SiteReissue cfg out] /\
       res = reissued out)).
Proof.
  intros Hc Hr Hrest.
  destruct Hc as [sub cfg r0 Hauth|sub cfg e' Hauth|sub Hauth|Hauth Hi|Hauth Hi];
    cbn [app each_suffix auth_error_handled].
  - destruct Hr as [[=]|[-> Hres]]. simpl in Hres. subst res.
    split; [done|]. intros _. right. by exists sub, cfg, (Ok r0).
  - destruct Hr as [[=]|[-> Hres]]. simpl in Hres. subst res.
    split; [done|]. intros _. right. by exists sub, cfg, (Throw e').
  - destruct Hr as [[=]|[-> Hres]]. simpl in Hres. subst res.
    split; [done|]. intros _. left. by exists sub.
  - split; [|congruence]. split; [done|]. by destruct (isNetworkError e).
  - split; [done|congruence].
Qed.

Lemma request_attempt_auth retries i tr r res rest :
  request_attempt retries i tr r ->
  r = Ok (Next tt) \/ (rest = [] /\ loop_result r res) ->
  each_suffix (auth_error_handled res) rest ->
  each_suffix (auth_error_handled res) (tr ++ rest).
Proof.
  intros Hatt Hr Hrest.
  destruct Hatt as [| |? ? ? ? ? ? ? ? Hc|? ? ? ? ? ? Hc|cfg e tr r Hc];
    cbn [app each_suffix auth_error_handled].
  - done.
  - done.
  - do 3 (split; [done|]). by eapply request_catch_auth.
  - do 2 (split; [done|]). by eapply request_catch_auth.
  - destruct (request_catch_auth _ _ _ _ _ _ _ Hc Hr Hrest) as [Hall Hauth]. done.
Qed.

Lemma request_loop_auth retries n i tr res :
  loop_run (request_attempt retries) (fun tr r => tr = [] /\ r = Ok None) n i tr res ->
  each_suffix (auth_error_handled res) tr.
Proof.
  induction 1 as [i tr r [-> ->]|n i tr r Hatt|n i tr e Hatt
                 |n i tr tr' r Hatt Hloop IH].
  - done.
  - rewrite <- (app_nil_r tr). eapply request_attempt_auth; eauto; [by right|done].
  - rewrite <- (app_nil_r tr). eapply request_attempt_auth; eauto; [by right|done].
  - eapply request_attempt_auth; eauto.
Qed.

Lemma request_catch_origin retries i e pre tr r :
  request_catch retries i e tr r ->
  (exists site cfg, last pre = Some (EvAxios site cfg (Throw e))) \/
  (exists sub, last pre = Some (EvLogin sub false) /\
               e = Error "Re-login failed during retry") ->
  match r with
  | Ok (Return x) => result_origin retries (pre ++ tr) (Ok x) /\ x <> None
  | Ok (Next _) => i < retries - 1 /\ pre ++ tr <> []
  | Throw e' => result_origin retries (pre ++ tr) (Throw e')
  end.
Proof.
  intros Hc Hpre.
  assert (pre <> []) as Hne.
  { intros ->. by destruct Hpre as [(? & ? & [=])|(? & [=] & _)]. }
  destruct Hc as [sub cfg r0 Hauth|sub cfg e' Hauth|sub Hauth|Hauth Hi|Hauth Hi];
    cbn [result_origin].
  - split; [|done]. rewrite last_app. simpl. eauto.
  - left. rewrite last_app. simpl. eauto.
  - right. rewrite last_app. simpl. eauto.
  - split; [done|]. by destruct pre.
  - rewrite app_nil_r. destruct Hpre as [?|(sub & ? & ->)]; [by left|].
    right. eauto.
Qed.

Lemma request_attempt_origin retries i tr r :
  request_attempt retries i tr r ->
  match r with
  | Ok (Return x) => result_origin retries tr (Ok x) /\ x <> None
  | Ok (Next _) => i < retries - 1 /\ tr <> []
  | Throw e' => result_origin retries tr (Throw e')
  end.
Proof.
  destruct 1 as [cfg res Hexp|cfg res sub cfg' res' Hexp
                |cfg res sub cfg' e' tr r Hexp Hc|cfg res sub tr r Hexp Hc
                |cfg e tr r Hc].
  - simpl. eauto.
  - simpl. eauto.
  - apply (request_catch_origin _ _ _
             [EvAxios (SiteAttempt i) cfg (Ok res); EvLogin sub true;
              EvAxios SiteReissue cfg' (Throw e')]) in Hc; [|left; simpl; eauto].
    exact Hc.
  - apply (request_catch_origin _ _ _
             [EvAxios (SiteAttempt i) cfg (Ok res); EvLogin sub false]) in Hc;
      [|right; simpl; eauto].
    exact Hc.
  - apply (request_catch_origin _ _ _ [EvAxios (SiteAttempt i) cfg (Throw e)]) in Hc;
      [|left; simpl; eauto].
    exact Hc.
Qed.

Lemma result_origin_app retries tr tr' res :
  tr' <> [] -> result_origin retries tr' res -> res <> Ok None ->
  result_origin retries (tr ++ tr') res.
Proof.
  intros Hne Hres Hnone. destruct res as [[r|]|e]; [| done |];
    cbn [result_origin] in *; rewrite last_app.
  - destruct Hres as (site & cfg & ->). eauto.
  - destruct Hres as [(site & cfg & ->)|(sub & -> & ?)]; eauto.
Qed.

Lemma request_loop_origin retries n i tr res :
  loop_run (request_attempt retries) (fun tr r => tr = [] /\ r = Ok None) n i tr res ->
  Z.of_nat n = Z.max 0 (retries - i) ->
  (res = Ok None -> tr = [] /\ n = O) /\
  (n <> O -> tr <> [] /\ result_origin retries tr res).
Proof.
  induction 1 as [i tr r [-> ->]|n i tr r Hatt|n i tr e Hatt
                 |n i tr tr' r Hatt Hloop IH]; intros Hn.
  - done.
  - apply request_attempt_origin in Hatt as [Hres Hsome].
    split; [by intros [= ->]|]. intros _. split; [|done].
    intros ->. destruct r as [r|]; [|done]. by destruct Hres as (? & ? & [=]).
  - apply request_attempt_origin in Hatt.
    split; [done|]. intros _. split; [|done].
    intros ->. destruct Hatt as [(? & ? & [=])|(? & [=] & _)].
  - apply request_attempt_origin in Hatt as [Hi Hne].
    destruct IH as [Hnone Hrest]; [lia|].
    destruct Hrest as [Hne' Hres]; [lia|].
    split.
    + intros ->. destruct (Hnone eq_refl) as [_ ->]. lia.
    + intros _. split; [by destruct tr|].
      apply result_origin_app; [done|done|].
      intros ->. destruct (Hnone eq_refl) as [_ ->]. lia.
Qed.

End RequestRuns.

(** X8.  When an attempt of [requestWithRetry] is rejected with a 401 or a
    403, the call logs in again exactly once, without a pause; after a
    successful login it sends the request once more and the outcome of
    that request, whatever it is, is the outcome of the call; after a
    failed login it throws the rejection.  No further attempt is made. *)
Theorem auth_error_relogin_once w depth method url data retries c res c' tr :
  requestWithRetry w depth method url data retries c = Some (res, c', tr) ->
  forall pre i cfg e post,
    tr = pre ++ EvAxios (SiteAttempt i) cfg (Throw e) :: post ->
    isAuthError e = true ->
    (exists sub, post = [EvLogin sub false] /\ res = Throw e) \/
    (exists sub cfg' out,
        post = [EvLogin sub true; EvAxios SiteReissue cfg' out] /\
        res = reissued out).
Proof.
  intros Hrun pre i cfg e post Heq Hauth.
  apply requestWithRetry_run, request_loop_auth in Hrun.
  exact (proj1 (each_suffix_split _ _) Hrun pre _ post Heq Hauth).
Qed.

(** X9.  What [requestWithRetry] returns is the response of the last
    request it sent, and it returns [undefined] only when its budget is
    not positive, in which case it sends nothing; what it throws is the
    rejection of the last request it sent, unless the run ended on a
    failed re-login. *)
Theorem requestWithRetry_result_origin w depth method url data retries c res c' tr :
  requestWithRetry w depth method url data retries c = Some (res, c', tr) ->
  result_origin (default 5 retries) tr res.
Proof.
  intros Hrun. apply requestWithRetry_run in Hrun.
  destruct (request_loop_origin _ _ _ _ _ Hrun) as [Hnone Hsome]; [lia|].
  destruct (Z.to_nat (default 5 retries)) as [|n] eqn:Hn.
  - inversion Hrun as [i tr0 r [-> ->]| | |]; subst. simpl. split; [done|lia].
  - by destruct Hsome.
Qed.

Lemma auth_error_relogin_once_witness :
  exists res c' cfg e post,
    requestWithRetry unauthorized_once_world 1 "post" "/api/verify" BodyDefault None
      newClient
    = Some (res, c', EvAxios (SiteAttempt 0) cfg (Throw e) :: post) /\
    isAuthError e = true /\
    ((exists sub, post = [EvLogin sub false] /\ res = Throw e) \/
     (exists sub cfg' out,
         post = [EvLogin sub true; EvAxios SiteReissue cfg' out] /\
         res = reissued out)).
Proof.
  eexists _, _, _, _, _.
  assert (requestWithRetry unauthorized_once_world 1 "post" "/api/verify" BodyDefault
            None newClient
          = Some (_, _, EvAxios (SiteAttempt 0) _ (Throw _) :: _)) as Hrun
    by (vm_compute; reflexivity).
  split; [exact Hrun|]. split; [reflexivity|].
  exact (auth_error_relogin_once _ _ _ _ _ _ _ _ _ _ Hrun [] 0 _ _ _ eq_refl eq_refl).
Defined.

Lemma requestWithRetry_result_origin_witness :
  exists res c' tr,
    requestWithRetry flaky_world 0 "post" "/api/verify" BodyDefault None newClient
    = Some (res, c', tr) /\
    result_origin 5 tr res.
Proof.
  eexists _, _, _.
  assert (requestWithRetry flaky_world 0 "post" "/api/verify" BodyDefault None newClient
          = Some (_, _, _)) as Hrun by (vm_compute; reflexivity).
  split; [exact Hrun|].
  exact (requestWithRetry_result_origin _ _ _ _ _ _ _ _ _ _ Hrun).
Defined.

(** ** The header that [initAxios] drops *)

Lemma generateTid_state c r c' tr :
  generateTid c = Some (r, c', tr) ->
  r = Ok (tids c) /\ tr = [] /\ authorization c' = authorization c.
Proof. intros [= <- <- <-]. done. Qed.

Lemma axios_call_state w site method url data tid c r c' tr :
  axios_call w site method url data tid c = Some (r, c', tr) ->
  exists cfg, tr = [EvAxios site cfg r] /\ ax_authorization cfg = authorization c.
Proof. intros [= <- <- <-]. eauto. Qed.

Lemma initAxios_state c r c' tr :
  initAxios c = Some (r, c', tr) ->
  r = Ok tt /\ tr = [EvInitAxios] /\ authorization c' = None.
Proof. intros [= <- <- <-]. done. Qed.

Lemma set_authorization_state v c r c' tr :
  set_authorization v c = Some (r, c', tr) ->
  r = Ok tt /\ tr = [] /\ authorization c' = Some v.
Proof. intros [= <- <- <-]. done. Qed.

(** Symbolic execution that keeps track of the [Authorization] header. *)
Ltac inv_state :=
  repeat match goal with
  | H : bind _ _ _ = Some _ |- _ =>
      apply bind_Some in H as [(? & H & ?)|(? & ? & ? & ? & ? & H & ?)]
  | H : try_catch _ _ _ = Some _ |- _ =>
      apply try_catch_Some in H as [(? & H & ?)|(? & ? & ? & ? & ? & H & ?)]
  | H : ret _ _ = Some _ |- _ => apply ret_Some in H as (? & ? & ?)
  | H : throw _ _ = Some _ |- _ => apply throw_Some in H as (? & ? & ?)
  | H : sleep _ _ = Some _ |- _ => apply sleep_Some in H as (? & ? & ?)
  | H : generateTid _ = Some _ |- _ => apply generateTid_state in H as (? & ? & ?)
  | H : axios_call _ _ _ _ _ _ _ = Some _ |- _ =>
      apply axios_call_state in H as (? & ? & ?)
  | H : initAxios _ = Some _ |- _ => apply initAxios_state in H as (? & ? & ?)
  | H : set_authorization _ _ = Some _ |- _ =>
      apply set_authorization_state in H as (? & ? & ?)
  | H : (if ?b then _ else _) _ = Some _ |- _ => destruct b eqn:?
  | H : match ?x with _ => _ end _ = Some _ |- _ => destruct x eqn:?
  | H : _ = Some _ |- _ => progress cbv beta in H
  | _ => progress simplify_eq
  end.

Section DroppedHeader.

Variable w : World.

Local Opaque isAuthError isNetworkError session_expired.

(** An iteration starts with its request, sent with the header the client
    has; a new axios instance is the last thing an iteration makes, and
    the client is then left without the header. *)
Lemma requestWithRetry_attempt_header login method url data retries i c res c' tr :
  login_like login ->
  requestWithRetry_attempt w login method url data retries i c = Some (res, c', tr) ->
  (exists cfg out tr0,
      tr = EvAxios (SiteAttempt i) cfg out :: tr0 /\
      ax_authorization cfg = authorization c) /\
  (forall pre ev post, tr <> pre ++ EvInitAxios :: ev :: post) /\
  (last tr = Some EvInitAxios -> authorization c' = None).
Proof.
  intros Hlogin. unfold requestWithRetry_attempt. intros H.
  repeat (inv_state;
          try match goal with
              | H : login _ = Some _ |- _ => apply Hlogin in H as (? & ? & ? & ?)
              end).
  all: cbn [app].
  all: split; [eexists _, _, _; split; [reflexivity|congruence]|].
  all: split;
    [intros pre ev post Heq;
     repeat (destruct pre as [|? pre]; simplify_eq/=)|].
  all: simpl; intros Hlast; simplify_eq; try congruence.
Qed.

Lemma request_loop_header login method url data retries n i c res c' tr :
  login_like login ->
  for_loop n i (requestWithRetry_attempt w login method url data retries) (ret None) c
  = Some (res, c', tr) ->
  (tr = [] \/
   exists cfg out tr0,
     tr = EvAxios (SiteAttempt i) cfg out :: tr0 /\
     ax_authorization cfg = authorization c) /\
  (forall pre site cfg out post,
      tr = pre ++ EvInitAxios :: EvAxios site cfg out :: post ->
      ax_authorization cfg = None).
Proof.
  intros Hlogin. revert i c res c' tr.
  induction n as [|n IH]; intros i c res c' tr; simpl.
  - intros [= <- <- <-]. split; [by left|]. intros pre. by destruct pre.
  - intros H.
    apply bind_Some in H as [(e & Hb & ->)|(ctl & c1 & tr1 & tr2 & Hb & Hk & ->)].
    + apply requestWithRetry_attempt_header in Hb as (Hhead & Hpair & _); [|done].
      split; [by right|]. intros pre site cfg out post Heq. by destruct (Hpair _ _ _ Heq).
    + apply requestWithRetry_attempt_header in Hb as (Hhead & Hpair & Hlast); [|done].
      destruct ctl as [r|[]].
      * injection Hk as <- <- <-. rewrite app_nil_r.
        split; [by right|]. intros pre site cfg out post Heq.
        by destruct (Hpair _ _ _ Heq).
      * apply IH in Hk as [Hhead2 Hpairs2].
        split.
        { right. destruct Hhead as (cfg & out & tr0 & -> & ?). simpl. eauto. }
        intros pre site cfg out post Heq.
        apply app_eq_middle in Heq as [(post1 & -> & Hpost)|(pre2 & -> & ->)].
        -- destruct post1 as [|ev post1].
           ++ simpl in Hpost.
              destruct Hhead2 as [->|(cfg2 & out2 & tr0 & -> & Hauth)]; [done|].
              simplify_eq.
              rewrite Hauth. apply Hlast. rewrite last_app. done.
           ++ by destruct (Hpair pre ev post1).
        -- eauto.
Qed.

End DroppedHeader.

(** X10.  The axios instance that [requestWithRetry] makes anew after a
    network error starts from the generated headers, which hold no
    [Authorization]: the attempt that follows is sent without the header,
    whatever session the client had. *)
Theorem retry_after_network_error_drops_authorization w depth method url data
    retries c res c' tr :
  requestWithRetry w depth method url data retries c = Some (res, c', tr) ->
  forall pre site cfg out post,
    tr = pre ++ EvInitAxios :: EvAxios site cfg out :: post ->
    ax_authorization cfg = None.
Proof.
  intros Hrun.
  assert (exists login, login_like login /\
            for_loop (Z.to_nat (default 5 retries)) 0
              (requestWithRetry_attempt w login method url data (default 5 retries))
              (ret None) c = Some (res, c', tr)) as (login & Hlogin & Hloop).
  { destruct depth as [|depth]; simpl in Hrun.
    - exists never. split; [apply never_like|exact Hrun].
    - eexists. split; [apply login_with_like|exact Hrun]. }
  by apply request_loop_header in Hloop as [_ Hpairs].
Qed.

Lemma retry_after_network_error_drops_authorization_witness :
  exists res c' cfg0 out0 cfg out post,
    requestWithRetry flaky_world 0 "post" "/api/verify" BodyDefault None
      (mkClient (Some "Bearer token-1") 0 0 0 0)
    = Some (res, c',
            [EvAxios (SiteAttempt 0) cfg0 out0; EvSleep 3000]
              ++ EvInitAxios :: EvAxios (SiteAttempt 1) cfg out :: post) /\
    ax_authorization cfg0 = Some "Bearer token-1" /\
    ax_authorization cfg = None.
Proof.
  eexists _, _, _, _, _, _, _.
  assert (requestWithRetry flaky_world 0 "post" "/api/verify" BodyDefault None
            (mkClient (Some "Bearer token-1") 0 0 0 0)
          = Some (_, _,
                  [EvAxios (SiteAttempt 0) _ _; EvSleep 3000]
                    ++ EvInitAxios :: EvAxios (SiteAttempt 1) _ _ :: _)) as Hrun
    by (vm_compute; reflexivity).
  split; [exact Hrun|]. split; [reflexivity|].
  exact (retry_after_network_error_drops_authorization _ _ _ _ _ _ _ _ _ _ Hrun
           _ _ _ _ _ eq_refl).
Defined.

(** X11.  [login] sends its two requests through [requestWithRetry], which
    logs in again on an expired session.  When the server answers every
    request, those of the login included, with the expired-session
    message, a call with a positive budget logs in within the login
    without end: it returns at no depth of nesting. *)
Theorem relogin_recursion_never_returns w depth method url data retries c :
  (forall n cfg, exists res, w_axios w n cfg = Ok res /\ session_expired res = true) ->
  0 < default 5 retries ->
  requestWithRetry w depth method url data retries c = None.
Proof.
  intros Hw. revert method url data retries c.
  induction depth as [|depth IH]; intros method url data retries c Hpos.
  - cbn [requestWithRetry]. cbv zeta.
    destruct (Z.to_nat (default 5 retries)) as [|n] eqn:Hn; [lia|].
    cbn [for_loop]. apply bind_None, attempt_expired_None; done.
  - cbn [requestWithRetry]. cbv zeta.
    destruct (Z.to_nat (default 5 retries)) as [|n] eqn:Hn; [lia|].
    cbn [for_loop]. apply bind_None, attempt_expired_None; [done|].
    intros c0. apply login_with_None. intros. by apply IH.
Qed.

Lemma relogin_recursion_never_returns_witness :
  requestWithRetry always_expired_world 7 "post" "/api/verify" BodyDefault None newClient
  = None.
Proof.
  apply (relogin_recursion_never_returns always_expired_world 7 "post" "/api/verify"
           BodyDefault None newClient).
  - intros n cfg. eexists. split; reflexivity.
  - reflexivity.
Defined.

(** * Outcomes of [login] and [runDailyTasks] *)

Section Outcomes.

Variable w : World.
Variable depth : nat.

Lemma task_result_classes pts performed :
  result_classes (mkTaskResult true (Some pts) (status_of performed)).
Proof.
  right. simpl. split; [done|]. split; [done|].
  unfold status_of. destruct (0 <? performed); [by left|by right].
Qed.

Lemma status_of_not_login_failed performed : status_of performed <> "Login Failed".
Proof. unfold status_of. by destruct (0 <? performed). Qed.

Lemma runDailyTasks_result (run : M TaskResult) body c r c' tr :
  run = (loggedIn <- login w depth ;;
         if negb loggedIn then ret (mkTaskResult false None "Login Failed")
         else try_catch body (fun e => ret (mkTaskResult false None "Error"))) ->
  (forall c0 res c1 tr1,
      body c0 = Some (Ok res, c1, tr1) ->
      exists pts performed, res = mkTaskResult true (Some pts) (status_of performed)) ->
  run c = Some (r, c', tr) ->
  exists res, r = Ok res /\ result_classes res /\
    (result_status res = "Login Failed" <-> exists sub, tr = [EvLogin sub false]).
Proof.
  intros -> Hbody Hrun.
  apply bind_Some in Hrun as [(e & Hlogin & ->)|(b & c1 & tr1 & tr2 & Hlogin & Hk & ->)];
    apply (login_with_like w) in Hlogin as (sub & b0 & Hb & ->); [discriminate|].
  injection Hb as ->. destruct b0; cbn [negb] in Hk.
  - apply try_catch_Some in Hk as [(res & Hrun & ->)|(e & c2 & tr3 & tr4 & _ & Hh & ->)].
    + destruct (Hbody _ _ _ _ Hrun) as (pts & performed & ->).
      eexists. split; [done|]. split; [by apply task_result_classes|].
      simpl. split; [by intros ?%status_of_not_login_failed|]. by intros (? & [=]).
    + apply ret_Some in Hh as (-> & _ & ->).
      eexists. split; [done|]. split; [left; simpl; eauto|].
      simpl. split; [done|]. by intros (? & [=]).
  - apply ret_Some in Hk as (-> & _ & ->).
    eexists. split; [done|]. split; [left; simpl; eauto|]. simpl.
    split; [eauto|done].
Qed.

Lemma runDailyTasks_never_throws c r c' tr :
  Part000.runDailyTasks w depth c = Some (r, c', tr) \/
  IndexJs.runDailyTasks w depth c = Some (r, c', tr) ->
  exists res, r = Ok res.
Proof.
  assert (forall body,
            (loggedIn <- login w depth ;;
             if negb loggedIn then ret (mkTaskResult false None "Login Failed")
             else try_catch body (fun e => ret (mkTaskResult false None "Error"))) c
            = Some (r, c', tr) -> exists res, r = Ok res) as Hshape.
  { intros body Hrun.
    apply bind_Some in Hrun
        as [(e & Hlogin & ->)|(b & c1 & tr1 & tr2 & Hlogin & Hk & ->)].
    - apply (login_with_like w) in Hlogin as (sub & b0 & [=] & _).
    - destruct b; cbn [negb] in Hk.
      + apply try_catch_Some in Hk
            as [(res & _ & ->)|(e & c2 & tr3 & tr4 & _ & Hh & _)]; [eauto|].
        apply ret_Some in Hh as (-> & _). eauto.
      + apply ret_Some in Hk as (-> & _). eauto. }
  intros [Hrun|Hrun]; exact (Hshape _ Hrun).
Qed.

End Outcomes.

(** X12.  [login] never throws: whatever goes wrong inside, a request that
    fails or a field that is missing, becomes the result [false].  It
    returns [true] only when both requests came back with code 0, the
    second one carrying the wallet's signature of the nonce obtained by
    the first, and the client then sends [Bearer] followed by the token
    as its [Authorization]; a response without a token still counts as a
    success, with the header [Bearer undefined]. *)
Theorem login_outcome w depth c r c' tr :
  login w depth c = Some (r, c', tr) ->
  exists b sub, r = Ok b /\ tr = [EvLogin sub b] /\
    (b = true -> login_accepted w depth c c' sub).
Proof.
  unfold login, login_with.
  destruct (try_catch _ _ c) as [[[[b|e] c1] tr1]|] eqn:Hrun; [| |discriminate].
  - intros [= <- <- <-]. exists b, tr1. split; [done|]. split; [done|].
    intros ->. unfold data_of in Hrun.
    repeat (inv_state;
            repeat match goal with
            | H : context [negb ?b] |- _ => destruct b eqn:?; cbn [negb] in H
            end).
    unfold login_accepted.
    eexists _, _, _, _, _, _, _, _, _, _, _.
    repeat (split; [eassumption || reflexivity|]).
    split; [simpl; by rewrite ?app_nil_r|]. assumption.
  - apply try_catch_Some in Hrun as [(a & _ & [=])|(e0 & c0 & tr0 & tr2 & _ & H & _)].
    apply ret_Some in H as ([=] & _).
Qed.

Lemma login_outcome_witness :
  exists c' sub,
    login scenario_world 0 newClient = Some (Ok true, c', [EvLogin sub true]) /\
    login_accepted scenario_world 0 newClient c' sub /\
    authorization c' = Some "Bearer token-1".
Proof.
  eexists _, _.
  assert (login scenario_world 0 newClient = Some (Ok true, _, [EvLogin _ true])) as Hrun
    by (vm_compute; reflexivity).
  split; [exact Hrun|]. split; [|reflexivity].
  destruct (login_outcome _ _ _ _ _ _ Hrun) as (b & sub & [= <-] & [= <-] & Hacc).
  by apply Hacc.
Defined.

(** X13.  [runDailyTasks], in either revision, never throws.  Its result
    is a failure without points, with the status [Login Failed] or
    [Error], or a success with points and the status [Work Done] or
    [Already Done]; and it is [Login Failed] exactly when the failed
    login is all that the call did. *)
Theorem runDailyTasks_result_classes w depth c r c' tr :
  Part000.runDailyTasks w depth c = Some (r, c', tr) \/
  IndexJs.runDailyTasks w depth c = Some (r, c', tr) ->
  exists res, r = Ok res /\ result_classes res /\
    (result_status res = "Login Failed" <-> exists sub, tr = [EvLogin sub false]).
Proof.
  intros [Hrun|Hrun].
  - eapply runDailyTasks_result; [reflexivity| |exact Hrun].
    intros c0 res c1 tr1 H. inv_run; eauto.
  - eapply runDailyTasks_result; [reflexivity| |exact Hrun].
    intros c0 res c1 tr1 H. unfold data_of in H. inv_run; eauto.
Qed.

Lemma runDailyTasks_result_classes_witness :
  exists res c' tr,
    Part000.runDailyTasks scenario_world 1 newClient = Some (Ok res, c', tr) /\
    result_classes res /\
    (result_status res = "Login Failed" <-> exists sub, tr = [EvLogin sub false]).
Proof.
  eexists _, _, _.
  assert (Part000.runDailyTasks scenario_world 1 newClient = Some (Ok _, _, _)) as Hrun
    by (vm_compute; reflexivity).
  split; [exact Hrun|].
  destruct (runDailyTasks_result_classes _ _ _ _ _ _ (or_introl Hrun))
    as (res & [= <-] & Hclass & Hlogin).
  exact (conj Hclass Hlogin).
Defined.

(** * Cycles with nothing to do, and cycles that fail half-way *)

Section Cycles.

Variable w : World.
Variable depth : nat.

Lemma requestTask_done p performed c :
  p_is_create_request p = true ->
  Part000.requestTask w depth (Some p) performed c = Some (Ok performed, c, []) /\
  IndexJs.requestTask w depth (Some p) performed c = Some (Ok performed, c, []).
Proof.
  intros Hp. unfold Part000.requestTask, IndexJs.requestTask, is_done.
  by rewrite Hp.
Qed.

Lemma agentTask_done p performed c :
  p_is_create_agent p = true ->
  Part000.agentTask w depth (Some p) performed c = Some (Ok performed, c, []) /\
  IndexJs.agentTask w depth (Some p) performed c = Some (Ok performed, c, []).
Proof.
  intros Hp. unfold Part000.agentTask, IndexJs.agentTask, is_done.
  by rewrite Hp.
Qed.

End Cycles.

(** X14.  When the server reports both actions as done, a cycle is the
    login and the status request and nothing else: no create-call, no
    pause and no RPC call are made, and the result is a success with the
    status [Already Done].  The revision of [src/index.js] goes on to
    fetch the score, and succeeds whether that request succeeds or
    not. *)
Theorem nothing_to_do w depth c c0 tr0 taskRes d p c1 tr1 :
  login w depth c = Some (Ok true, c0, tr0) ->
  requestWithRetry w depth "post" (verifyDailyTask (endpoints (CONFIG w)))
    BodyDefault None c0 = Some (Ok (Some taskRes), c1, tr1) ->
  r_data taskRes = Some d -> d_data d = Some p ->
  p_is_create_request p = true -> p_is_create_agent p = true ->
  Part000.runDailyTasks w depth c
  = Some (Ok (mkTaskResult true (Some (Part000.pointsOf w (Some p))) "Already Done"),
          c1, tr0 ++ tr1) /\
  (forall r2 c2 tr2,
      requestWithRetry w depth "post" (userInfo (endpoints (CONFIG w)))
        BodyDefault None c1 = Some (r2, c2, tr2) ->
      exists pts,
        IndexJs.runDailyTasks w depth c
        = Some (Ok (mkTaskResult true (Some pts) "Already Done"), c2,
                tr0 ++ tr1 ++ tr2)).
Proof.
  intros Hlogin Hverify Hd Hp Hreq Hagent. split.
  - rewrite (runDailyTasks_run w depth c c0 tr0 taskRes d c1 tr1 0 c1 [] 0 c1 []);
      try done.
    + rewrite Hp. simpl. by rewrite !app_nil_r.
    + rewrite Hp. exact (proj1 (requestTask_done w depth p 0 c1 Hreq)).
    + rewrite Hp. exact (proj1 (agentTask_done w depth p 0 c1 Hagent)).
  - intros r2 c2 tr2 Huser.
    unfold IndexJs.runDailyTasks.
    unfold bind at 1. rewrite Hlogin. cbn [negb].
    unfold try_catch at 1, bind at 1. rewrite Hverify.
    unfold bind at 1, taskData_of, data_of, bind at 1. rewrite Hd. unfold ret at 1 2.
    cbn beta iota. rewrite Hp.
    unfold bind at 1.
    rewrite (proj2 (requestTask_done w depth p 0 c1 Hreq)).
    unfold bind at 1.
    rewrite (proj2 (agentTask_done w depth p 0 c1 Hagent)).
    unfold try_catch, bind. rewrite Huser.
    destruct r2 as [[userRes|]|e]; simpl.
    + destruct (r_data userRes) as [ud|]; simpl; rewrite ?app_nil_r; eauto.
    + rewrite ?app_nil_r; eauto.
    + rewrite ?app_nil_r; eauto.
Qed.

Lemma nothing_to_do_witness :
  exists c' tr,
    Part000.runDailyTasks done_world 0 newClient
    = Some (Ok (mkTaskResult true (Some (PStr "150")) "Already Done"), c', tr) /\
    count_events is_rpc tr = O.
Proof.
  eexists _, _.
  assert (login done_world 0 newClient = Some (Ok true, _, _)) as Hlogin
    by (vm_compute; reflexivity).
  assert (requestWithRetry done_world 0 "post"
            (verifyDailyTask (endpoints (CONFIG done_world))) BodyDefault None
            (mkClient (Some "Bearer token-1") 2 0 2 0)
          = Some (Ok (Some _), _, _)) as Hverify
    by (vm_compute; reflexivity).
  split.
  - exact (proj1 (nothing_to_do done_world 0 _ _ _ _ _ _ _ _ Hlogin Hverify
                    eq_refl eq_refl eq_refl eq_refl)).
  - vm_compute. reflexivity.
Defined.

(** X15.  An error thrown after the first action was carried out loses
    the cycle: when the request action has counted and the create-call of
    the agent action then throws, [runDailyTasks] reports
    [{ success: false, status: 'Error' }], and the account loop records
    the account as failed and leaves its cooldown as it was, so that the
    whole cycle is run again in the next pass. *)
Theorem error_after_first_action_fails_cycle env depth i acc s c0 tr0 taskRes d c1 tr1
    p1 c2 tr2 e c3 tr3 :
  let w := client_world env i acc in
  due env i acc s ->
  login w depth newClient = Some (Ok true, c0, tr0) ->
  requestWithRetry w depth "post" (verifyDailyTask (endpoints (CONFIG w)))
    BodyDefault None c0 = Some (Ok (Some taskRes), c1, tr1) ->
  r_data taskRes = Some d ->
  Part000.requestTask w depth (d_data d) 0 c1 = Some (Ok p1, c2, tr2) ->
  Part000.agentTask w depth (d_data d) p1 c2 = Some (Throw e, c3, tr3) ->
  Part000.runDailyTasks w depth newClient
  = Some (Ok (mkTaskResult false None "Error"), c3, tr0 ++ tr1 ++ tr2 ++ tr3) /\
  processAccount env Part000.runDailyTasks depth i acc s
  = Some (Ok tt,
          mkMain (load_finished (db s))
            (summaryData s ++ [mkRow (i + 1) (PStr "-") "Failed" RetryNextLoop])
            (S (clock_reads s)),
          [MClient i (tr0 ++ tr1 ++ tr2 ++ tr3); MSleep 2000]).
Proof.
  intros w Hdue Hlogin Hverify Hd Hreq Hagent. subst w.
  assert (Part000.runDailyTasks (client_world env i acc) depth newClient
          = Some (Ok (mkTaskResult false None "Error"), c3, tr0 ++ tr1 ++ tr2 ++ tr3))
    as Hrun.
  { unfold Part000.runDailyTasks.
    unfold bind at 1. rewrite Hlogin. cbn [negb].
    unfold try_catch at 1, bind at 1. rewrite Hverify.
    unfold bind at 1, taskData_of, data_of, bind at 1. rewrite Hd. unfold ret at 1 2.
    cbn beta iota.
    unfold bind at 1. rewrite Hreq.
    unfold bind at 1. rewrite Hagent.
    unfold ret. simpl. by rewrite ?app_nil_r. }
  split; [exact Hrun|].
  unfold processAccount. unfold due in Hdue.
  destruct (Z.ltb_spec (date_now env (clock_reads s))
              (getNextRunTime (db s) (w_address (client_world env i acc)))); [lia|].
  by rewrite Hrun.
Qed.

Lemma error_after_first_action_fails_cycle_witness :
  exists c' tr s',
    Part000.runDailyTasks agent_down_world 0 newClient
    = Some (Ok (mkTaskResult false None "Error"), c', tr) /\
    count_events is_send tr = 1%nat /\
    processAccount agent_down_env Part000.runDailyTasks 0 0 demo_account
      (mkMain (mkWalletDB ∅ None) [] 0)
    = Some (Ok tt, s', [MClient 0 tr; MSleep 2000]) /\
    db s' = mkWalletDB ∅ None.
Proof.
  edestruct (error_after_first_action_fails_cycle agent_down_env 0 0 demo_account
               (mkMain (mkWalletDB ∅ None) [] 0)) as [Hrun Hacc].
  - unfold due. vm_compute. discriminate.
  - vm_compute. reflexivity.
  - vm_compute. reflexivity.
  - reflexivity.
  - vm_compute. reflexivity.
  - vm_compute. reflexivity.
  - eexists _, _, _. split; [exact Hrun|]. split; [vm_compute; reflexivity|].
    split; [exact Hacc|reflexivity].
Defined.

(** * Random choices *)

Lemma getRandomItem_member w arr c :
  arr <> [] ->
  exists x c', getRandomItem w arr c = Some (Ok x, c', []) /\ In x arr /\
               authorization c' = authorization c /\ http_calls c' = http_calls c /\
               rpc_calls c' = rpc_calls c.
Proof.
  intros Hne. unfold getRandomItem, bind, random_below, ret. cbn beta iota.
  eexists _, _. split; [reflexivity|]. split; [|done].
  apply nth_In. apply Nat.mod_upper_bound. by destruct arr.
Qed.

(** X16.  [getRandomItem] returns a member of a non-empty array, so the
    titles and descriptions the bot submits are always among the fixed
    ones; [getRandomAgentName] returns one of the prefixes, then one of
    the suffixes, then a number below 1000 in decimal. *)
Theorem random_choices_are_members w c :
  (forall arr, arr <> [] ->
     exists x c', getRandomItem w arr c = Some (Ok x, c', []) /\ In x arr) /\
  (exists prefix suffix n c',
      getRandomAgentName w c = Some (Ok (prefix +:+ suffix +:+ pretty n), c', []) /\
      In prefix AGENT_PREFIXES /\ In suffix AGENT_SUFFIXES /\ (n < 1000)%nat).
Proof.
  split.
  - intros arr Hne.
    destruct (getRandomItem_member w arr c Hne) as (x & c' & Hrun & Hin & _). eauto.
  - unfold getRandomAgentName.
    destruct (getRandomItem_member w AGENT_PREFIXES c) as (prefix & c1 & Hp & Hinp & _);
      [done|].
    destruct (getRandomItem_member w AGENT_SUFFIXES c1) as (suffix & c2 & Hs & Hins & _);
      [done|].
    unfold bind at 1. rewrite Hp. unfold bind at 1. rewrite Hs.
    unfold bind, random_below, ret. cbn beta iota.
    eexists prefix, suffix, _, _. split; [reflexivity|].
    split; [done|]. split; [done|]. by apply Nat.mod_upper_bound.
Qed.

(** * Keys of the cooldown store *)

Lemma lower_ascii_idemp a : lower_ascii (lower_ascii a) = lower_ascii a.
Proof.
  unfold lower_ascii.
  destruct ((65 <=? nat_of_ascii a)%nat && (nat_of_ascii a <=? 90)%nat) eqn:Hup.
  - apply andb_prop in Hup as [H1%Nat.leb_le H2%Nat.leb_le].
    rewrite nat_ascii_embedding by lia.
    destruct ((65 <=? nat_of_ascii a + 32)%nat && (nat_of_ascii a + 32 <=? 90)%nat)
      eqn:Hup'; [|done].
    apply andb_prop in Hup' as [_ H4%Nat.leb_le]. lia.
  - by rewrite Hup.
Qed.

Lemma toLowerCase_idemp s : toLowerCase (toLowerCase s) = toLowerCase s.
Proof. induction s as [|a s IH]; simpl; [done|]. by rewrite lower_ascii_idemp, IH. Qed.

(** X17.  The cooldown store is keyed by the lower-cased address: what
    [updateNextRunTime] stores under an address, [getNextRunTime] returns
    for every spelling of that address, the lower-cased one included; the
    entries of the other addresses are untouched, and of two updates the
    later one counts. *)
Theorem cooldown_store_round_trip d address t :
  (forall address',
      toLowerCase address' = toLowerCase address ->
      getNextRunTime (updateNextRunTime d address t) address' = t) /\
  getNextRunTime (updateNextRunTime d address t) (toLowerCase address) = t /\
  (forall address',
      toLowerCase address' <> toLowerCase address ->
      getNextRunTime (updateNextRunTime d address t) address'
      = getNextRunTime d address') /\
  (forall t',
      updateNextRunTime (updateNextRunTime d address t) address t'
      = updateNextRunTime d address t').
Proof.
  split; [|split; [|split]].
  - intros address' Heq. rewrite getNextRunTime_update. by rewrite decide_True.
  - rewrite getNextRunTime_update. rewrite decide_True; [done|].
    by rewrite toLowerCase_idemp.
  - intros address' Hne. rewrite getNextRunTime_update. by rewrite decide_False.
  - intros t'. unfold updateNextRunTime. simpl. by rewrite insert_insert_eq.
Qed.

(** * The account loop *)

Section AccountLoop.

Variable env : Env.
Variable run : World -> nat -> M TaskResult.
Variable depth : nat.

Lemma processAccount_success i acc s res c' trc :
  due env i acc s ->
  run (client_world env i acc) depth newClient = Some (Ok res, c', trc) ->
  success res = true ->
  let t := date_now env (S (clock_reads s)) + loopInterval (env_config env) in
  let db' := updateNextRunTime (load_finished (db s)) (w_address (client_world env i acc)) t in
  processAccount env run depth i acc s
  = Some (Ok tt,
          mkMain db'
            (summaryData s ++
               [mkRow (i + 1) (points_or_dash (points res)) (result_status res)
                  (NextAt (date_now env (S (S (clock_reads s)))
                           + loopInterval (env_config env)))])
            (S (S (S (clock_reads s)))),
          [MClient i trc; MSave (data db'); MSleep 2000]).
Proof.
  intros Hdue Hrun Hsuccess. unfold processAccount. unfold due in Hdue.
  destruct (Z.ltb_spec (date_now env (clock_reads s))
              (getNextRunTime (db s) (w_address (client_world env i acc)))); [lia|].
  by rewrite Hrun, Hsuccess.
Qed.

Lemma processAccount_skip i acc s :
  date_now env (clock_reads s)
    < getNextRunTime (db s) (w_address (client_world env i acc)) ->
  processAccount env run depth i acc s
  = Some (Ok tt,
          mkMain (db s)
            (summaryData s ++
               [mkRow (i + 1) (PStr "-") "Skipped (Cooldown)"
                  (NextAt (getNextRunTime (db s) (w_address (client_world env i acc))))])
            (S (clock_reads s)),
          []).
Proof.
  intros Hlt. unfold processAccount.
  destruct (Z.ltb_spec (date_now env (clock_reads s))
              (getNextRunTime (db s) (w_address (client_world env i acc)))); [done|lia].
Qed.

Hypothesis run_never_throws :
  forall w c r c' tr, run w depth c = Some (r, c', tr) -> exists res, r = Ok res.

Lemma processAccount_row i acc s r s' tr :
  processAccount env run depth i acc s = Some (r, s', tr) ->
  r = Ok tt /\
  exists row, summaryData s' = summaryData s ++ [row] /\ row_account row = (i + 1)%nat.
Proof.
  unfold processAccount.
  destruct (_ <? _).
  - intros [= <- <- <-]. split; [done|]. eauto.
  - destruct (run _ _ _) as [[[r0 c'] trc]|] eqn:Hrun; [|discriminate].
    destruct (run_never_throws _ _ _ _ _ Hrun) as [res ->].
    destruct (success res); intros [= <- <- <-]; (split; [done|]); eauto.
Qed.

Lemma accounts_loop_rows accounts i s r s' tr :
  accounts_loop env run depth i accounts s = Some (r, s', tr) ->
  r = Ok tt /\
  exists rows,
    summaryData s' = summaryData s ++ rows /\
    map row_account rows = seq (i + 1) (length accounts).
Proof.
  revert i s r s' tr. induction accounts as [|acc rest IH]; intros i s r s' tr; simpl.
  - intros [= <- <- <-]. split; [done|]. exists []. by rewrite app_nil_r.
  - destruct (processAccount env run depth i acc s) as [[[r1 s1] tr1]|] eqn:Hacc;
      [|discriminate].
    destruct (processAccount_row _ _ _ _ _ _ Hacc) as (-> & row & Hrow & Hnum).
    destruct (accounts_loop env run depth (S i) rest s1) as [[[r2 s2] tr2]|] eqn:Hrest;
      [|discriminate].
    intros [= <- <- <-].
    destruct (IH _ _ _ _ _ Hrest) as (-> & rows & Hrows & Hnums).
    split; [done|]. exists (row :: rows). split.
    + rewrite Hrows, Hrow. by rewrite <- app_assoc.
    + simpl. rewrite Hnum, Hnums. reflexivity.
Qed.

End AccountLoop.

Section Saves.

Variable env : Env.
Variable run : World -> nat -> M TaskResult.
Variable depth : nat.

Lemma last_saved_app tr tr' :
  last_saved (tr ++ tr')
  = match last_saved tr' with Some m => Some m | None => last_saved tr end.
Proof.
  induction tr as [|ev tr IH]; simpl; [by destruct (last_saved tr')|].
  destruct ev; rewrite ?IH; try done.
  destruct (last_saved tr'); [done|]. by destruct (last_saved tr).
Qed.

Lemma processAccount_saved i acc s r s' tr :
  processAccount env run depth i acc s = Some (r, s', tr) ->
  loading (db s) = None ->
  loading (db s') = None /\
  match last_saved tr with
  | Some m => m = data (db s')
  | None => db s' = db s
  end.
Proof.
  unfold processAccount. intros Hrun Hloaded.
  rewrite (load_finished_loaded _ Hloaded) in Hrun. revert Hrun.
  destruct (_ <? _); [by intros [= <- <- <-]|].
  destruct (run _ _ _) as [[[[res|e] c'] trc]|]; [| |discriminate].
  - destruct (success res); by intros [= <- <- <-].
  - by intros [= <- <- <-].
Qed.

Lemma accounts_loop_saved accounts i s r s' tr :
  accounts_loop env run depth i accounts s = Some (r, s', tr) ->
  loading (db s) = None ->
  loading (db s') = None /\
  match last_saved tr with
  | Some m => m = data (db s')
  | None => db s' = db s
  end.
Proof.
  revert i s r s' tr. induction accounts as [|acc rest IH]; intros i s r s' tr; simpl.
  - by intros [= <- <- <-].
  - destruct (processAccount env run depth i acc s) as [[[[[]|e] s1] tr1]|] eqn:Hacc;
      [| |discriminate].
    + destruct (accounts_loop env run depth (S i) rest s1) as [[[r2 s2] tr2]|] eqn:Hrest;
        [|discriminate].
      intros [= <- <- <-] Hloaded.
      destruct (processAccount_saved _ _ _ _ _ _ Hacc Hloaded) as [Hl1 Hs1].
      destruct (IH _ _ _ _ _ Hrest Hl1) as [Hl2 Hs2].
      split; [done|]. rewrite last_saved_app.
      destruct (last_saved tr2); [done|]. rewrite Hs2.
      destruct (last_saved tr1); [done|]. by rewrite Hs1.
    + intros [= <- <- <-] Hloaded. by eapply processAccount_saved.
Qed.

End Saves.

(** * Later visits of an account, and accounts without a client *)

Section LaterVisits.

Variable env : Env.
Variable run : World -> nat -> M TaskResult.
Variable depth : nat.

Hypothesis interval_positive : 0 < loopInterval (env_config env).
Hypothesis clock_monotone : forall n, date_now env n <= date_now env (S n).

Lemma visits_after_monotone s s2 address :
  visits_after env run depth s s2 ->
  loading (db s) = None ->
  loading (db s2) = None /\
  getNextRunTime (db s) address <= getNextRunTime (db s2) address.
Proof.
  induction 1 as [s|s i acc s1 tr s2 Hacc Hlater IH|s s2 Hlater IH]; intros Hloaded.
  - split; [done|lia].
  - pose proof (processAccount_loaded env run depth _ _ _ _ _ _ Hacc Hloaded) as Hl1.
    pose proof (processAccount_monotone env run depth interval_positive clock_monotone
                  _ _ _ _ _ _ address Hacc Hloaded) as Hm1.
    destruct (IH Hl1) as [Hl2 Hm2]. split; [done|lia].
  - destruct (IH Hloaded) as [Hl2 Hm2]. done.
Qed.

End LaterVisits.

(** X18.  In one run of the bot, an account whose cycle succeeded is left
    alone until its time has come.  Its entry becomes the clock reading
    at the update plus the loop interval; whatever visits and passes
    follow, with a positive loop interval and a clock that does not run
    backwards the entry does not fall below that, and a visit of the same
    address at a clock reading below it is skipped without a request, a
    transaction, a write or a pause.  (A bot that is started again reads
    the store too late for its first visit.) *)
Theorem successful_account_rests env run depth i acc s res c' trc :
  0 < loopInterval (env_config env) ->
  (forall n, date_now env n <= date_now env (S n)) ->
  due env i acc s ->
  run (client_world env i acc) depth newClient = Some (Ok res, c', trc) ->
  success res = true ->
  exists s' tr,
    processAccount env run depth i acc s = Some (Ok tt, s', tr) /\
    let next := date_now env (S (clock_reads s)) + loopInterval (env_config env) in
    getNextRunTime (db s') (w_address (client_world env i acc)) = next /\
    forall s2 j acc2,
      visits_after env run depth s' s2 ->
      toLowerCase (w_address (client_world env j acc2))
      = toLowerCase (w_address (client_world env i acc)) ->
      date_now env (clock_reads s2) < next ->
      next <= getNextRunTime (db s2) (w_address (client_world env j acc2)) /\
      processAccount env run depth j acc2 s2
      = Some (Ok tt,
              mkMain (db s2)
                (summaryData s2 ++
                   [mkRow (j + 1) (PStr "-") "Skipped (Cooldown)"
                      (NextAt (getNextRunTime (db s2)
                                 (w_address (client_world env j acc2))))])
                (S (clock_reads s2)),
              []).
Proof.
  intros Hpos Hclock Hdue Hrun Hsuccess.
  pose proof (processAccount_success env run depth i acc s res c' trc Hdue Hrun Hsuccess)
    as Hacc. cbv zeta in Hacc.
  eexists _, _. split; [exact Hacc|]. intros next.
  assert (forall address,
            toLowerCase address = toLowerCase (w_address (client_world env i acc)) ->
            getNextRunTime
              (updateNextRunTime (load_finished (db s))
                 (w_address (client_world env i acc)) next) address = next) as Hentry.
  { intros address Heq. rewrite getNextRunTime_update.
    rewrite decide_True; [reflexivity|by symmetry]. }
  split; [by apply Hentry|].
  intros s2 j acc2 Hlater Haddr Hlt.
  assert (loading (updateNextRunTime (load_finished (db s))
                     (w_address (client_world env i acc)) next) = None) as Hloaded.
  { unfold updateNextRunTime, load_finished.
    by destruct (loading (db s)) eqn:Hloading. }
  destruct (visits_after_monotone env run depth Hpos Hclock _ _
              (w_address (client_world env j acc2)) Hlater Hloaded) as [_ Hmono].
  assert (next <= getNextRunTime (db s2) (w_address (client_world env j acc2)))
    as Hnext by (rewrite <- (Hentry _ Haddr); exact Hmono).
  split; [exact Hnext|].
  apply processAccount_skip. lia.
Qed.

Lemma successful_account_rests_witness :
  exists s' tr s1 tr1,
    processAccount mixed_env Part000.runDailyTasks 0 1 demo_account
      (mkMain (mkWalletDB ∅ None) [] 0)
    = Some (Ok tt, s', tr) /\
    processAccount mixed_env Part000.runDailyTasks 0 0 demo_account s'
    = Some (Ok tt, s1, tr1) /\
    1001 + 86400000
    <= getNextRunTime (db s1) (w_address (client_world mixed_env 1 demo_account)) /\
    processAccount mixed_env Part000.runDailyTasks 0 1 demo_account
      (mkMain (db s1) [] (clock_reads s1))
    = Some (Ok tt,
            mkMain (db s1)
              [mkRow 2 (PStr "-") "Skipped (Cooldown)"
                 (NextAt (getNextRunTime (db s1)
                            (w_address (client_world mixed_env 1 demo_account))))]
              (S (clock_reads s1)),
            []).
Proof.
  eassert (processAccount mixed_env Part000.runDailyTasks 0 1 demo_account
             (mkMain (mkWalletDB ∅ None) [] 0) = Some (Ok tt, _, _)) as Hacc0
    by (vm_compute; reflexivity).
  match type of Hacc0 with
  | _ = Some (_, ?s, _) =>
      eassert (processAccount mixed_env Part000.runDailyTasks 0 0 demo_account s
               = Some (Ok tt, _, _)) as Hother by (vm_compute; reflexivity)
  end.
  eexists _, _, _, _. split; [exact Hacc0|]. split; [exact Hother|].
  edestruct (successful_account_rests mixed_env Part000.runDailyTasks 0 1 demo_account
               (mkMain (mkWalletDB ∅ None) [] 0)) as (s' & tr & Hacc & _ & Hrest).
  - reflexivity.
  - intros n. simpl. lia.
  - unfold due. vm_compute. discriminate.
  - vm_compute. reflexivity.
  - reflexivity.
  - rewrite Hacc0 in Hacc. injection Hacc as <- _.
    match type of Hother with
    | _ = Some (_, ?s1, _) =>
        destruct (Hrest (mkMain (db s1) [] (clock_reads s1)) 1%nat demo_account)
          as [Hnext Hskip]
    end.
    + eapply VA_visit; [exact Hother|]. apply VA_pass, VA_here.
    + vm_compute; reflexivity.
    + vm_compute; reflexivity.
    + split; [exact Hnext|exact Hskip].
Defined.

Section Constructors.

Variable env : Env.
Variable run : World -> nat -> M TaskResult.
Variable depth : nat.
Variable constructorError : ConstructorError.

Hypothesis run_never_throws :
  forall w c r c' tr, run w depth c = Some (r, c', tr) -> exists res, r = Ok res.

Lemma visit_accounts_rows accounts i s r s' tr :
  visit_accounts env run depth constructorError i accounts s = Some (r, s', tr) ->
  (Forall (fun acc => constructorError acc = None) accounts ->
   r = Ok tt /\
   exists rows,
     summaryData s' = summaryData s ++ rows /\
     map row_account rows = seq (i + 1) (length accounts)) /\
  (forall pre bad post e,
      accounts = pre ++ bad :: post ->
      Forall (fun acc => constructorError acc = None) pre ->
      constructorError bad = Some e ->
      r = Throw e /\
      exists rows,
        summaryData s' = summaryData s ++ rows /\
        map row_account rows = seq (i + 1) (length pre)).
Proof.
  revert i s r s' tr. induction accounts as [|acc rest IH]; intros i s r s' tr; simpl.
  - intros [= <- <- <-]. split.
    + intros _. split; [done|]. exists []. by rewrite app_nil_r.
    + intros pre bad post e Heq. by destruct pre.
  - unfold visitAccount at 1.
    destruct (constructorError acc) as [e0|] eqn:Hacc0.
    + intros [= <- <- <-]. split.
      * intros Hall. apply Forall_cons_1 in Hall as [Hnone _]. congruence.
      * intros pre bad post e Heq Hpre Hbad.
        destruct pre as [|a pre]; simpl in Heq.
        -- injection Heq as <- <-. split; [congruence|].
           exists []. by rewrite app_nil_r.
        -- injection Heq as <- _. apply Forall_cons_1 in Hpre as [Hnone _]. congruence.
    + destruct (processAccount env run depth i acc s) as [[[r1 s1] tr1]|] eqn:Hacc;
        [|discriminate].
      destruct (processAccount_row env run depth run_never_throws _ _ _ _ _ _ Hacc)
        as (-> & row & Hrow & Hnum).
      destruct (visit_accounts env run depth constructorError (S i) rest s1)
        as [[[r2 s2] tr2]|] eqn:Hrest; [|discriminate].
      intros [= <- <- <-].
      destruct (IH _ _ _ _ _ Hrest) as [Hgood Hbad]. split.
      * intros Hall. apply Forall_cons_1 in Hall as [_ Hall].
        destruct (Hgood Hall) as (-> & rows & Hrows & Hnums).
        split; [done|]. exists (row :: rows). split.
        -- rewrite Hrows, Hrow. by rewrite <- app_assoc.
        -- simpl. rewrite Hnum, Hnums. reflexivity.
      * intros pre bad post e Heq Hpre Hbade.
        destruct pre as [|a pre]; simpl in Heq.
        -- injection Heq as <- _. congruence.
        -- injection Heq as <- ->. apply Forall_cons_1 in Hpre as [_ Hpre].
           destruct (Hbad pre bad post e eq_refl Hpre Hbade)
             as (-> & rows & Hrows & Hnums).
           split; [done|]. exists (row :: rows). split.
           ++ rewrite Hrows, Hrow. by rewrite <- app_assoc.
           ++ simpl. rewrite Hnum, Hnums. reflexivity.
Qed.

End Constructors.

(** X19.  A pass over the accounts visits them in order.  When the client
    of every account can be constructed the pass does not throw, since
    [runDailyTasks] never throws: whatever happens to an account, the
    accounts after it are visited and the summary gets exactly one row
    per account, numbered from 1.  The constructor of the client runs
    outside any [try]: at the first account for which it throws (a
    malformed private key or proxy) the pass, and [main] with it, ends
    with that error; the accounts before it have their rows and the
    accounts after it are not visited. *)
Theorem every_account_gets_a_row env depth constructorError accounts d reads r s' tr :
  runPass env Part000.runDailyTasks depth constructorError accounts d reads
  = Some (r, s', tr) \/
  runPass env IndexJs.runDailyTasks depth constructorError accounts d reads
  = Some (r, s', tr) ->
  (Forall (fun acc => constructorError acc = None) accounts ->
   r = Ok tt /\ map row_account (summaryData s') = seq 1 (length accounts)) /\
  (forall pre bad post e,
      accounts = pre ++ bad :: post ->
      Forall (fun acc => constructorError acc = None) pre ->
      constructorError bad = Some e ->
      r = Throw e /\ map row_account (summaryData s') = seq 1 (length pre)).
Proof.
  unfold runPass.
  assert (forall run,
            (forall w c r0 c' tr0,
                run w depth c = Some (r0, c', tr0) -> exists res, r0 = Ok res) ->
            visit_accounts env run depth constructorError 0 accounts (mkMain d [] reads)
            = Some (r, s', tr) ->
            (Forall (fun acc => constructorError acc = None) accounts ->
             r = Ok tt /\ map row_account (summaryData s') = seq 1 (length accounts)) /\
            (forall pre bad post e,
                accounts = pre ++ bad :: post ->
                Forall (fun acc => constructorError acc = None) pre ->
                constructorError bad = Some e ->
                r = Throw e /\ map row_account (summaryData s') = seq 1 (length pre)))
    as Hrows.
  { intros run Hnever Hrun.
    destruct (visit_accounts_rows env run depth constructorError Hnever _ _ _ _ _ _ Hrun)
      as [Hgood Hbad].
    split.
    - intros Hall. destruct (Hgood Hall) as (-> & rows & Hrows & Hnums).
      simpl in Hrows. by rewrite Hrows.
    - intros pre bad post e Heq Hpre Hbade.
      destruct (Hbad pre bad post e Heq Hpre Hbade) as (-> & rows & Hrows & Hnums).
      simpl in Hrows. by rewrite Hrows. }
  intros [Hrun|Hrun]; (eapply Hrows; [|exact Hrun]).
  - intros w c r0 c' tr0 H.
    exact (runDailyTasks_never_throws w depth c r0 c' tr0 (or_introl H)).
  - intros w c r0 c' tr0 H.
    exact (runDailyTasks_never_throws w depth c r0 c' tr0 (or_intror H)).
Qed.

Lemma every_account_gets_a_row_witness :
  (exists s' tr,
      runPass mixed_env Part000.runDailyTasks 0 rejects_bad_key
        [demo_account; demo_account] (mkWalletDB ∅ None) 0
      = Some (Ok tt, s', tr) /\
      map row_account (summaryData s') = [1; 2]%nat /\
      map row_status (summaryData s') = ["Failed"; "Work Done"]) /\
  (exists s' tr,
      runPass mixed_env Part000.runDailyTasks 0 rejects_bad_key
        [demo_account; bad_account; demo_account] (mkWalletDB ∅ None) 0
      = Some (Throw (mkJsError (Some "INVALID_ARGUMENT") "invalid private key" None),
              s', tr) /\
      map row_account (summaryData s') = [1]%nat).
Proof.
  split.
  - eexists _, _.
    eassert (runPass mixed_env Part000.runDailyTasks 0 rejects_bad_key
               [demo_account; demo_account] (mkWalletDB ∅ None) 0
             = Some (Ok tt, _, _)) as Hrun by (vm_compute; reflexivity).
    split; [exact Hrun|]. split; [|reflexivity].
    apply (every_account_gets_a_row _ _ _ _ _ _ _ _ _ (or_introl Hrun)).
    by repeat constructor.
  - eexists _, _.
    eassert (runPass mixed_env Part000.runDailyTasks 0 rejects_bad_key
               [demo_account; bad_account; demo_account] (mkWalletDB ∅ None) 0
             = Some (Throw (mkJsError (Some "INVALID_ARGUMENT") "invalid private key" None),
                     _, _)) as Hrun by (vm_compute; reflexivity).
    split; [exact Hrun|].
    apply (proj2 (every_account_gets_a_row _ _ _ _ _ _ _ _ _ (or_introl Hrun))
             [demo_account] bad_account [demo_account]
             (mkJsError (Some "INVALID_ARGUMENT") "invalid private key" None) eq_refl).
    + by repeat constructor.
    + reflexivity.
Defined.

(** X20.  Once the store has been read, what is on disk follows what is
    in memory: every update is written out at once, so after a pass the
    last content written is the store as it stands, and a pass that wrote
    nothing left the store as it was.  A bot restarted from that file
    finds, once it has read it, the store of the bot that wrote it. *)
Theorem saved_store_is_current env run depth accounts d reads r s' tr :
  loading d = None ->
  runCycle env run depth accounts d reads = Some (r, s', tr) ->
  match last_saved tr with
  | Some m => m = data (db s') /\ load_finished (newWalletDB (Some m)) = db s'
  | None => db s' = d
  end.
Proof.
  intros Hloaded Hrun. unfold runCycle in Hrun.
  apply accounts_loop_saved in Hrun as [Hl Hs]; [|done].
  destruct (last_saved tr) as [m|]; [|done].
  split; [done|]. subst m. unfold load_finished, newWalletDB. simpl.
  destruct (db s') as [dt ld]. simpl in *. by subst ld.
Qed.

Lemma saved_store_is_current_witness :
  exists s' tr m,
    runCycle mixed_env Part000.runDailyTasks 0 [demo_account; demo_account]
      (mkWalletDB ∅ None) 0
    = Some (Ok tt, s', tr) /\
    last_saved tr = Some m /\ m = {[ "0xdef2" := 1002 + 86400000 ]} /\
    load_finished (newWalletDB (Some m)) = db s'.
Proof.
  eexists _, _, _.
  assert (runCycle mixed_env Part000.runDailyTasks 0 [demo_account; demo_account]
            (mkWalletDB ∅ None) 0 = Some (Ok tt, _, _)) as Hrun
    by (vm_compute; reflexivity).
  split; [exact Hrun|].
  pose proof (saved_store_is_current mixed_env Part000.runDailyTasks 0
                [demo_account; demo_account] (mkWalletDB ∅ None) 0 _ _ _ eq_refl Hrun)
    as H.
  split; [vm_compute; reflexivity|]. split; [vm_compute; reflexivity|].
  exact (proj2 H).
Defined.

(** * What follows a failed attempt *)

Section RetryRule.

Variable w : World.

Local Opaque isAuthError isNetworkError session_expired.

Lemma request_attempt_head retries i tr r :
  request_attempt retries i tr r ->
  exists cfg out tr0, tr = EvAxios (SiteAttempt i) cfg out :: tr0.
Proof. destruct 1; simpl; eauto. Qed.

Lemma request_catch_rule retries i e tr r rest :
  request_catch retries i e tr r ->
  (r = Ok (Next tt) ->
   exists cfg out rest', rest = EvAxios (SiteAttempt (i + 1)) cfg out :: rest') ->
  each_suffix (retry_rule retries) rest ->
  each_suffix (retry_rule retries) (tr ++ rest) /\
  (isAuthError e = false -> i < retries - 1 ->
   exists cfg out post',
     tr ++ rest = EvSleep ((i + 1) * 3000)
                    :: (if isNetworkError e then [EvInitAxios] else [])
                    ++ EvAxios (SiteAttempt (i + 1)) cfg out :: post').
Proof.
  intros Hc Hnext Hrest.
  destruct Hc as [sub cfg r0 Hauth|sub cfg e' Hauth|sub Hauth|Hauth Hi|Hauth Hi];
    cbn [app each_suffix retry_rule].
  - split; [done|congruence].
  - split; [done|congruence].
  - split; [done|congruence].
  - destruct (Hnext eq_refl) as (cfg & out & rest' & ->).
    split.
    + split; [done|]. destruct (isNetworkError e); simpl; [split; [done|]|]; done.
    + intros _ _. eauto.
  - split; [done|]. intros _ ?. lia.
Qed.

Lemma request_attempt_rule retries i tr r rest :
  request_attempt retries i tr r ->
  (r = Ok (Next tt) ->
   exists cfg out rest', rest = EvAxios (SiteAttempt (i + 1)) cfg out :: rest') ->
  each_suffix (retry_rule retries) rest ->
  each_suffix (retry_rule retries) (tr ++ rest).
Proof.
  intros Hatt Hnext Hrest.
  destruct Hatt as [| |? ? ? ? ? ? ? ? Hc|? ? ? ? ? ? Hc|cfg e tr r Hc];
    cbn [app each_suffix retry_rule].
  - done.
  - done.
  - do 3 (split; [done|]). by eapply request_catch_rule.
  - do 2 (split; [done|]). by eapply request_catch_rule.
  - destruct (request_catch_rule _ _ _ _ _ _ Hc Hnext Hrest) as [Hall Hrule]. done.
Qed.

Lemma request_loop_rule retries n i tr res :
  loop_run (request_attempt retries) (fun tr r => tr = [] /\ r = Ok None) n i tr res ->
  Z.of_nat n = Z.max 0 (retries - i) ->
  (n <> O -> exists cfg out tr0, tr = EvAxios (SiteAttempt i) cfg out :: tr0) /\
  each_suffix (retry_rule retries) tr.
Proof.
  induction 1 as [i tr r [-> ->]|n i tr r Hatt|n i tr e Hatt
                 |n i tr tr' r Hatt Hloop IH]; intros Hn.
  - done.
  - split; [intros _; by eapply request_attempt_head|].
    rewrite <- (app_nil_r tr). eapply request_attempt_rule; eauto; done.
  - split; [intros _; by eapply request_attempt_head|].
    rewrite <- (app_nil_r tr). eapply request_attempt_rule; eauto; done.
  - pose proof (request_attempt_schedule _ _ _ _ Hatt) as [_ Hi].
    destruct IH as [Hhead Hrest]; [lia|].
    split.
    + intros _. destruct (request_attempt_head _ _ _ _ Hatt) as (cfg & out & tr0 & ->).
      simpl. eauto.
    + eapply request_attempt_rule; eauto. intros _. apply Hhead. lia.
Qed.

End RetryRule.

(** X21.  While its budget lasts, [requestWithRetry] answers a rejection
    that is no 401 or 403 in one way: it sleeps 3 s times the number of
    the attempt, makes a new axios instance exactly when the error came
    without a response, with the code [ECONNRESET] or [ETIMEDOUT], or
    with a message about the proxy connection, and sends the request
    again.  A rejection with a response, such as a 500, is retried on the
    instance it came from. *)
Theorem failed_attempt_is_retried w depth method url data retries c res c' tr :
  requestWithRetry w depth method url data retries c = Some (res, c', tr) ->
  forall pre i cfg e post,
    tr = pre ++ EvAxios (SiteAttempt i) cfg (Throw e) :: post ->
    isAuthError e = false -> i < default 5 retries - 1 ->
    exists cfg' out post',
      post = EvSleep ((i + 1) * 3000)
               :: (if isNetworkError e then [EvInitAxios] else [])
               ++ EvAxios (SiteAttempt (i + 1)) cfg' out :: post'.
Proof.
  intros Hrun pre i cfg e post Heq Hauth Hi.
  apply requestWithRetry_run, request_loop_rule in Hrun as [_ Hrule]; [|lia].
  exact (proj1 (each_suffix_split _ _) Hrule pre _ post Heq Hauth Hi).
Qed.

Lemma failed_attempt_is_retried_witness :
  exists res c' cfg e cfg' out post',
    requestWithRetry failing_once_world 0 "post" "/api/verify" BodyDefault None newClient
    = Some (res, c',
            EvAxios (SiteAttempt 0) cfg (Throw e)
              :: EvSleep 3000 :: EvAxios (SiteAttempt 1) cfg' out :: post') /\
    err_status e = Some 500 /\ isNetworkError e = false.
Proof.
  assert (exists res c' cfg e post,
            requestWithRetry failing_once_world 0 "post" "/api/verify" BodyDefault None
              newClient
            = Some (res, c', EvAxios (SiteAttempt 0) cfg (Throw e) :: post) /\
            err_status e = Some 500 /\ isNetworkError e = false /\
            isAuthError e = false)
    as (res & c' & cfg & e & post & Hrun & Hstatus & Hnet & Hauth).
  { eexists _, _, _, _, _. split; [vm_compute; reflexivity|]. done. }
  destruct (failed_attempt_is_retried _ _ _ _ _ _ _ _ _ _ Hrun [] 0 _ _ _ eq_refl Hauth)
    as (cfg' & out & post' & Hpost); [reflexivity|].
  rewrite Hnet in Hpost. simpl in Hpost. subst post.
  exists res, c', cfg, e, cfg', out, post'. done.
Defined.

(** * More runs in concrete worlds *)

Lemma sendTransactionWithRetry_revert_is_terminal_witness :
  exists c' ev post,
    sendTransactionWithRetry reverting_world submitRequest
      [VUint 42; VString "title"] None newClient
    = Some (Ok false, c', ev :: post) /\
    legacy_revert_detected ev /\ post = [].
Proof.
  eexists _, _, _.
  assert (sendTransactionWithRetry reverting_world submitRequest
            [VUint 42; VString "title"] None newClient
          = Some (Ok false, _, _ :: _)) as Hrun by (vm_compute; reflexivity).
  split; [exact Hrun|].
  assert (legacy_revert_detected
            (EvEstimateGas (mkTxRequest "0xA9e17" "0x00")
               (Settles 80
                  (Throw (mkJsError (Some "CALL_EXCEPTION") "execution reverted" None)))
               80)) as Hrev.
  { eexists _, _. split; reflexivity. }
  split; [exact Hrev|].
  exact (proj1 (sendTransactionWithRetry_revert_is_terminal _ _ _ _ _ _ _ _ Hrun
                  [] _ _ eq_refl Hrev)).
Defined.

(** A confirmation that does not arrive within 60 s makes
    [sendRawTransaction] broadcast the same transaction again: with a
    budget of 2 the request is broadcast twice. *)
Example unconfirmed_submission_is_broadcast_again :
  exists c' tr,
    sendRawTransaction unconfirmed_world FUNCTION_SELECTORS_SUBMIT_REQUEST
      ["uint256"; "string"] [VUint 42; VString "title"] (Some 2) newClient
    = Some (Ok false, c', tr) /\
    count_events is_send tr = 2%nat /\
    elapsed_time tr = 2 * (120 + 300 + 60000) + 5000.
Proof. eexists _, _. split; [vm_compute; reflexivity|]. split; reflexivity. Qed.

(** * The first visit after a start, and the score request *)

(** X25.  After a start the first account that is visited is never
    skipped, whatever [wallet_db.json] holds: the constructor of
    [WalletDB] has not awaited the read, the store is still empty when the
    cooldown is checked, and a clock that is not negative has reached the
    time 0 that an empty store gives.  The file is in the store by the
    time the tasks return, and a successful cycle then overwrites the
    entry of the account with the clock reading plus the loop interval. *)
Theorem first_visit_after_start_is_run env run depth i acc file reads res c' trc :
  0 <= date_now env reads ->
  run (client_world env i acc) depth newClient = Some (Ok res, c', trc) ->
  exists s' tr,
    processAccount env run depth i acc (mkMain (newWalletDB file) [] reads)
    = Some (Ok tt, s', MClient i trc :: tr) /\
    loading (db s') = None /\
    (success res = true ->
     getNextRunTime (db s') (w_address (client_world env i acc))
     = date_now env (S reads) + loopInterval (env_config env)) /\
    (success res = false -> db s' = load_finished (newWalletDB file)).
Proof.
  intros Hclock Hrun. unfold processAccount. cbn [db clock_reads summaryData].
  assert (getNextRunTime (newWalletDB file) (w_address (client_world env i acc)) = 0)
    as -> by reflexivity.
  destruct (Z.ltb_spec (date_now env reads) 0); [lia|].
  rewrite Hrun.
  assert (loading (load_finished (newWalletDB file)) = None) as Hloaded
    by (by destruct file).
  destruct (success res); eexists _, _; (split; [reflexivity|]); cbn [db].
  - split; [done|]. split; [|done]. intros _.
    rewrite getNextRunTime_update. by rewrite decide_True.
  - split; [done|]. split; [done|]. done.
Qed.

Lemma first_visit_after_start_is_run_witness :
  exists s' trc tr,
    processAccount restart_env Part000.runDailyTasks 1 0 demo_account
      (mkMain (newWalletDB (Some {[ "0xabc1" := 86401000 ]})) [] 0)
    = Some (Ok tt, s', MClient 0 trc :: tr) /\
    getNextRunTime (db s') "0xAbC1" = 50001 + 3600000.
Proof.
  edestruct (first_visit_after_start_is_run restart_env Part000.runDailyTasks 1 0
               demo_account (Some {[ "0xabc1" := 86401000 ]}) 0)
    as (s' & tr & Hacc & _ & Hnext & _).
  - vm_compute. discriminate.
  - vm_compute. reflexivity.
  - eexists _, _, _. split; [exact Hacc|]. by apply Hnext.
Defined.

(** X26.  In the revision of [src/index.js] the score request is made on
    a best effort: once the login, the status request and the two actions
    have returned, the cycle is a success with the status the actions
    earned, whatever becomes of the score request; when that request
    throws or brings no data the points are [?]. *)
Theorem score_request_is_best_effort w depth c c0 tr0 taskRes d c1 tr1 p1 c2 tr2
    p2 c3 tr3 r4 c4 tr4 :
  login w depth c = Some (Ok true, c0, tr0) ->
  requestWithRetry w depth "post" (verifyDailyTask (endpoints (CONFIG w)))
    BodyDefault None c0 = Some (Ok (Some taskRes), c1, tr1) ->
  r_data taskRes = Some d ->
  IndexJs.requestTask w depth (d_data d) 0 c1 = Some (Ok p1, c2, tr2) ->
  IndexJs.agentTask w depth (d_data d) p1 c2 = Some (Ok p2, c3, tr3) ->
  requestWithRetry w depth "post" (userInfo (endpoints (CONFIG w)))
    BodyDefault None c3 = Some (r4, c4, tr4) ->
  IndexJs.runDailyTasks w depth c
  = Some (Ok (mkTaskResult true (Some (score_result r4)) (status_of p2)), c4,
          tr0 ++ tr1 ++ tr2 ++ tr3 ++ tr4).
Proof.
  intros Hlogin Hverify Hd Hreq Hagent Huser.
  unfold IndexJs.runDailyTasks.
  unfold bind at 1. rewrite Hlogin. cbn [negb].
  unfold try_catch at 1, bind at 1. rewrite Hverify.
  unfold bind at 1, taskData_of, data_of, bind at 1. rewrite Hd. unfold ret at 1 2.
  cbn beta iota.
  unfold bind at 1. rewrite Hreq.
  unfold bind at 1. rewrite Hagent.
  unfold try_catch, bind. rewrite Huser.
  destruct r4 as [[userRes|]|e]; simpl.
  - destruct (r_data userRes) as [ud|]; simpl; by rewrite ?app_nil_r.
  - by rewrite ?app_nil_r.
  - by rewrite ?app_nil_r.
Qed.

Lemma score_request_is_best_effort_witness :
  exists c' tr,
    IndexJs.runDailyTasks scenario_world 0 newClient
    = Some (Ok (mkTaskResult true (Some (PStr "?")) "Work Done"), c', tr).
Proof.
  eexists _, _. etransitivity.
  - eapply (score_request_is_best_effort scenario_world 0 newClient);
      [vm_compute; reflexivity ..].
  - vm_compute. reflexivity.
Defined.

(** * The claims about the submitter, over both submitters *)

Section LegacyPolicy.

Variable w : World.

Local Opaque isRevert.

Lemma legacy_gas_policy_attempt req retries b i tr ctl rest :
  legacy_attempt req retries i tr ctl ->
  (ctl = Return b /\ rest = []) \/ ctl = Next tt ->
  each_suffix (legacy_gas_policy b) rest ->
  each_suffix (legacy_gas_policy b) (tr ++ rest).
Proof.
  intros Hatt Hctl Hrest.
  assert (forall r g, legacy_gas_decision r = Next g ->
            forall p2 t2 post',
              match r with
              | Ok est =>
                  exists p2' t2' post'',
                    EvSendTx req g p2 t2 :: post'
                    = EvSendTx req (Z.quot (est * 120) 100) p2' t2' :: post''
              | Throw e =>
                  if isRevert e then False
                  else exists p2' t2' post'',
                         EvSendTx req g p2 t2 :: post'
                         = EvSendTx req 500000 p2' t2' :: post''
              end) as Hnext.
  { intros r g Hdec p2 t2 post'. destruct r as [est|e]; simpl in Hdec.
    - injection Hdec as <-. eauto.
    - destruct (isRevert e); [discriminate|]. injection Hdec as <-. eauto. }
  destruct Hatt as [t r b1 Hdec
                   |t r g t2 e ctl tr1 Hdec Hcatch
                   |t r g t2 tx t3 e ctl tr1 Hdec Hcatch
                   |t r g t2 tx t3 receipt Hdec].
  - destruct Hctl as [[[= <-] ->]|[=]]. simpl. split; [|done].
    exists r. split; [done|]. destruct r as [est|e]; simpl in Hdec; [discriminate|].
    destruct (isRevert e); [|discriminate]. by injection Hdec as <-.
  - cbn [app each_suffix legacy_gas_policy]. split.
    + exists r. split; [done|].
      specialize (Hnext r g Hdec (Settles t2 (Throw e)) t2 (tr1 ++ rest)).
      destruct r as [est|e0]; [exact Hnext|].
      destruct (isRevert e0); [done|exact Hnext].
    + split; [done|]. eapply submit_catch_events; eauto. done.
  - cbn [app each_suffix legacy_gas_policy]. split.
    + exists r. split; [done|].
      specialize (Hnext r g Hdec (Settles t2 (Ok tx)) t2
                    (EvWait tx (Settles t3 (Throw e)) t3 :: tr1 ++ rest)).
      destruct r as [est|e0]; [exact Hnext|].
      destruct (isRevert e0); [done|exact Hnext].
    + split; [done|]. split; [done|]. eapply submit_catch_events; eauto. done.
  - destruct Hctl as [[_ ->]|[=]]. cbn [app each_suffix legacy_gas_policy]. split.
    + exists r. split; [done|].
      specialize (Hnext r g Hdec (Settles t2 (Ok tx)) t2
                    [EvWait tx (Settles t3 (Ok receipt)) t3]).
      destruct r as [est|e0]; [exact Hnext|].
      destruct (isRevert e0); [done|exact Hnext].
    + done.
Qed.

Lemma sendTransactionWithRetry_gas_policy contractFunc args retries c b c' tr :
  sendTransactionWithRetry w contractFunc args retries c = Some (Ok b, c', tr) ->
  forall pre ev post, tr = pre ++ ev :: post -> legacy_gas_policy b ev post.
Proof.
  apply (sendTransactionWithRetry_each_suffix w legacy_gas_policy); [done|].
  intros req b0 i tr0 ctl rest _ Hatt Hctl Hrest.
  by eapply legacy_gas_policy_attempt.
Qed.

Lemma legacy_attempt_name_resolved contractFunc args req retries i tr ctl :
  w_populate w contractFunc args = Ok req ->
  legacy_attempt req retries i tr ctl ->
  Forall (name_resolved w contractFunc args) tr.
Proof.
  intros Hpop Hatt.
  destruct Hatt as [t r b1 Hdec
                   |t r g t2 e ctl tr1 Hdec Hcatch
                   |t r g t2 tx t3 e ctl tr1 Hdec Hcatch
                   |t r g t2 tx t3 receipt Hdec];
    repeat match goal with
    | H : submit_catch _ _ _ = _ |- _ =>
        apply submit_catch_cases in H as [(-> & -> & _)|(-> & -> & _)]
    end;
    repeat first [apply Forall_nil_2|apply Forall_cons_2; [by simpl|]].
Qed.

Lemma sendTransactionWithRetry_name_resolved contractFunc args retries c res c' tr :
  sendTransactionWithRetry w contractFunc args retries c = Some (res, c', tr) ->
  Forall (name_resolved w contractFunc args) tr.
Proof.
  intros Hrun. apply sendTransactionWithRetry_run in Hrun as (b & -> & Hloop).
  remember (Ok b) as res eqn:Hres. clear Hres.
  induction Hloop as [i tr r [-> _]|n i tr r Hspec|n i tr e Hspec
                     |n i tr tr' r Hspec Hloop IH].
  - done.
  - destruct Hspec as (ctl & _ & Hspec).
    destruct (w_populate w contractFunc args) as [req|e] eqn:Hpop.
    + by eapply legacy_attempt_name_resolved.
    + symmetry in Hspec.
      apply submit_catch_cases in Hspec as [(_ & -> & _)|(_ & -> & _)];
        repeat first [apply Forall_nil_2|apply Forall_cons_2; [by simpl|]].
  - destruct Hspec as (ctl & [=] & _).
  - apply Forall_app. split; [|exact IH].
    destruct Hspec as (ctl & _ & Hspec).
    destruct (w_populate w contractFunc args) as [req|e] eqn:Hpop.
    + by eapply legacy_attempt_name_resolved.
    + symmetry in Hspec.
      apply submit_catch_cases in Hspec as [(_ & -> & _)|(_ & -> & _)];
        repeat first [apply Forall_nil_2|apply Forall_cons_2; [by simpl|]].
Qed.

End LegacyPolicy.

(** C1, amended.  The policy of the claim is that of [sendRawTransaction]:
    every run returns, each estimation is awaited for at most 10 seconds
    and is followed by a broadcast with 300000 units when the timer
    fired, by nothing more and the result [false] on a revert, by a
    broadcast with 200000 units on any other error and by a broadcast
    with the estimate times 120 over 100 otherwise.
    [sendTransactionWithRetry], the submitter that [src/index.js] calls,
    has no timer: an estimation that never settles keeps the call from
    returning; and in the runs that return a revert ends the run with
    [false], any other estimation error is followed by a broadcast with
    500000 units, and an estimate by a broadcast with the estimate times
    120 over 100. *)
Theorem gas_estimation_policy_per_submitter :
  (forall w selector paramTypes paramValues retries c,
      exists b c' tr,
        sendRawTransaction w selector paramTypes paramValues retries c
        = Some (Ok b, c', tr) /\
        forall pre ev post, tr = pre ++ ev :: post -> gas_policy b ev post) /\
  (forall w contractFunc args retries c b c' tr,
      sendTransactionWithRetry w contractFunc args retries c = Some (Ok b, c', tr) ->
      forall pre ev post, tr = pre ++ ev :: post -> legacy_gas_policy b ev post) /\
  (forall w contractFunc args retries c req,
      w_populate w contractFunc args = Ok req ->
      0 < default 3 retries ->
      w_estimateGas w (rpc_calls c) req = Pending ->
      sendTransactionWithRetry w contractFunc args retries c = None).
Proof.
  split; [|split].
  - intros w. apply sendRawTransaction_gas_policy.
  - intros w. apply sendTransactionWithRetry_gas_policy.
  - intros w contractFunc args retries c req Hpop Hpos Hest.
    unfold sendTransactionWithRetry. cbv zeta.
    destruct (Z.to_nat (default 3 retries)) as [|n] eqn:Hn; [lia|].
    cbn [for_loop]. apply bind_None.
    eapply legacy_attempt_hangs; [exact Hpop|by left].
Qed.

Lemma gas_estimation_policy_per_submitter_witness :
  exists c' p t p2 t2 post,
    sendTransactionWithRetry failing_estimate_world submitRequest
      [VUint 42; VString "title"] None newClient
    = Some (Ok true, c',
            EvEstimateGas (mkTxRequest "0xA9e17" "0x00") p t
              :: EvSendTx (mkTxRequest "0xA9e17" "0x00") 500000 p2 t2 :: post) /\
    legacy_gas_policy true (EvEstimateGas (mkTxRequest "0xA9e17" "0x00") p t)
      (EvSendTx (mkTxRequest "0xA9e17" "0x00") 500000 p2 t2 :: post).
Proof.
  eexists _, _, _, _, _, _.
  assert (sendTransactionWithRetry failing_estimate_world submitRequest
            [VUint 42; VString "title"] None newClient
          = Some (Ok true, _, EvEstimateGas _ _ _ :: EvSendTx _ 500000 _ _ :: _)) as Hrun
    by (vm_compute; reflexivity).
  split; [exact Hrun|].
  exact (proj1 (proj2 gas_estimation_policy_per_submitter) _ _ _ _ _ _ _ _ Hrun
           [] _ _ eq_refl).
Defined.

(** C1, as stated, read on the submitter of [src/index.js]: the policy
    of the claim does not hold for [sendTransactionWithRetry].  After an
    estimation error that is no revert and came within 10 seconds it
    broadcasts with 500000 units, not 200000. *)
Lemma gas_estimation_policy_fails_for_contract_calls :
  ~ (forall w contractFunc args retries c b c' tr,
        sendTransactionWithRetry w contractFunc args retries c = Some (Ok b, c', tr) ->
        forall pre ev post, tr = pre ++ ev :: post -> gas_policy b ev post).
Proof.
  intros H.
  assert (exists c' p post,
            sendTransactionWithRetry failing_estimate_world submitRequest
              [VUint 42; VString "title"] None newClient
            = Some (Ok true, c',
                    EvEstimateGas (mkTxRequest "0xA9e17" "0x00")
                      (Settles 50
                         (Throw (mkJsError (Some "SERVER_ERROR") "bad gateway" None)))
                      50
                      :: EvSendTx (mkTxRequest "0xA9e17" "0x00") 500000 p 300 :: post))
    as (c' & p & post & Hrun).
  { eexists _, _, _. vm_compute. reflexivity. }
  specialize (H _ _ _ _ _ _ _ _ Hrun [] _ _ eq_refl).
  destruct H as (_ & _ & Herr & _).
  specialize (Herr 50 _ eq_refl ltac:(lia)).
  vm_compute in Herr. destruct Herr as (p2 & t2 & post' & [=]).
Qed.

(** * Call data, in both revisions *)

Section CalldataByRevision.

Variable w : World.
Variable depth : nat.

(** A submission whose parameters encode starts with the estimation of
    the selector-first request. *)
Lemma sendRawTransaction_head selector paramTypes paramValues encodedParams c :
  w_abi_encode w paramTypes paramValues = Ok encodedParams ->
  exists b c' p t tl,
    sendRawTransaction w selector paramTypes paramValues None c
    = Some (Ok b, c',
            EvEstimateGas
              (mkTxRequest (agentContract (CONFIG w))
                 (selector +:+ slice 2 encodedParams)) p t :: tl).
Proof.
  intros Henc.
  destruct (sendRawTransaction_run w selector paramTypes paramValues None c)
    as (b & c' & tr & Hrun & _).
  pose proof (sendRawTransaction_raw_run w _ _ _ _ _ _ _ _ _ Henc Hrun) as Hraw.
  apply raw_run_shape in Hraw as (_ & _ & _ & _ & Hhead).
  destruct Hhead as (p & t & tl & ->); [simpl; lia|]. eauto 10.
Qed.

Lemma no_rpc_task_name_resolved tr :
  Forall (fun ev => is_rpc ev = false) tr -> Forall (task_name_resolved w) tr.
Proof.
  induction 1 as [|ev tr Hev _ IH]; constructor; [|exact IH].
  destruct ev; try discriminate; left; exists []; exact I.
Qed.

Lemma name_resolved_request args tr :
  Forall (name_resolved w submitRequest args) tr -> Forall (task_name_resolved w) tr.
Proof. induction 1; constructor; [left; eauto|done]. Qed.

Lemma name_resolved_agent args tr :
  Forall (name_resolved w submitAgent args) tr -> Forall (task_name_resolved w) tr.
Proof. induction 1; constructor; [right; eauto|done]. Qed.

Ltac legacy_trace_facts :=
  repeat match goal with
  | H : getRandomItem _ _ _ = Some _ |- _ => apply getRandomItem_Some in H
  | H : getRandomContent _ _ = Some _ |- _ => apply getRandomContent_Some in H
  | H : getRandomAgentName _ _ = Some _ |- _ => apply getRandomAgentName_Some in H
  | H : requestWithRetry _ _ _ _ _ _ _ = Some _ |- _ =>
      apply requestWithRetry_no_rpc, no_rpc_task_name_resolved in H
  | H : login _ _ _ = Some _ |- _ =>
      apply login_no_rpc, no_rpc_task_name_resolved in H
  | H : sendTransactionWithRetry _ submitRequest _ _ _ = Some _ |- _ =>
      apply sendTransactionWithRetry_name_resolved, name_resolved_request in H
  | H : sendTransactionWithRetry _ submitAgent _ _ _ = Some _ |- _ =>
      apply sendTransactionWithRetry_name_resolved, name_resolved_agent in H
  | H : data_of _ _ = Some _ |- _ => unfold data_of in H
  | H : taskData_of _ _ = Some _ |- _ => unfold taskData_of in H
  end.

Lemma sleep_task_name_resolved ms : task_name_resolved w (EvSleep ms).
Proof. left. exists []. exact I. Qed.

Ltac solve_name_resolved :=
  subst; rewrite ?Forall_app, ?Forall_cons, ?Forall_nil;
  repeat split; try done; try apply sleep_task_name_resolved.

Lemma legacy_requestTask_name_resolved taskData performed c r c' tr :
  IndexJs.requestTask w depth taskData performed c = Some (r, c', tr) ->
  Forall (task_name_resolved w) tr.
Proof.
  unfold IndexJs.requestTask. intros H.
  repeat (inv_run; legacy_trace_facts). all: solve_name_resolved.
Qed.

Lemma legacy_agentTask_name_resolved taskData performed c r c' tr :
  IndexJs.agentTask w depth taskData performed c = Some (r, c', tr) ->
  Forall (task_name_resolved w) tr.
Proof.
  unfold IndexJs.agentTask. intros H.
  repeat (inv_run; legacy_trace_facts). all: solve_name_resolved.
Qed.

Lemma legacy_runDailyTasks_name_resolved c r c' tr :
  IndexJs.runDailyTasks w depth c = Some (r, c', tr) ->
  Forall (task_name_resolved w) tr.
Proof.
  unfold IndexJs.runDailyTasks. intros H.
  repeat (inv_run; legacy_trace_facts;
          repeat match goal with
          | H : IndexJs.requestTask _ _ _ _ _ = Some _ |- _ =>
              apply legacy_requestTask_name_resolved in H
          | H : IndexJs.agentTask _ _ _ _ _ = Some _ |- _ =>
              apply legacy_agentTask_name_resolved in H
          end).
  all: solve_name_resolved.
Qed.

Lemma requestTask_submits taskData performed c title ca content cb id c1 tr1
    encodedParams :
  is_done p_is_create_request taskData = false ->
  getRandomItem w TITLES c = Some (Ok title, ca, []) ->
  getRandomContent w ca = Some (Ok content, cb, []) ->
  created w depth (createRequest (endpoints (CONFIG w)))
    (BodyCreateRequest title content) cb id c1 tr1 ->
  w_abi_encode w ["uint256"; "string"] [VUint id; VString title] = Ok encodedParams ->
  exists p' c2 p t tl,
    Part000.requestTask w depth taskData performed c
    = Some (Ok p', c2,
            tr1 ++ EvSleep 2000
              :: EvEstimateGas
                   (mkTxRequest (agentContract (CONFIG w))
                      ("0xc9a5fadf" +:+ slice 2 encodedParams)) p t
              :: tl).
Proof.
  intros Hdone Htitle Hcontent Hcreated Henc.
  destruct (sendRawTransaction_head FUNCTION_SELECTORS_SUBMIT_REQUEST _ _ _ c1 Henc)
    as (b & c2 & p & t & tl & Hsend).
  eexists _, c2, p, t, tl.
  exact (requestTask_run w depth taskData performed c title ca content cb id c1 tr1
           b c2 _ Hdone Htitle Hcontent Hcreated Hsend).
Qed.

Lemma agentTask_submits taskData performed c name ca description cb id c1 tr1
    agentDescription cd encodedParams :
  is_done p_is_create_agent taskData = false ->
  getRandomAgentName w c = Some (Ok name, ca, []) ->
  getRandomItem w AGENT_DESCRIPTIONS ca = Some (Ok description, cb, []) ->
  created w depth (createRepositories (endpoints (CONFIG w)))
    (BodyCreateAgent name description) cb id c1 tr1 ->
  getRandomItem w AGENT_DESCRIPTIONS c1 = Some (Ok agentDescription, cd, []) ->
  w_abi_encode w ["uint256"; "string"; "string"]
    [VUint id; VString name; VString agentDescription] = Ok encodedParams ->
  exists p' c2 p t tl,
    Part000.agentTask w depth taskData performed c
    = Some (Ok p', c2,
            tr1 ++ EvSleep 2000
              :: EvEstimateGas
                   (mkTxRequest (agentContract (CONFIG w))
                      ("0x9897934c" +:+ slice 2 encodedParams)) p t
              :: tl).
Proof.
  intros Hdone Hname Hdesc Hcreated Hdesc2 Henc.
  destruct (sendRawTransaction_head FUNCTION_SELECTORS_SUBMIT_AGENT _ _ _ cd Henc)
    as (b & c2 & p & t & tl & Hsend).
  eexists _, c2, p, t, tl.
  exact (agentTask_run w depth taskData performed c name ca description cb id c1 tr1
           agentDescription cd b c2 _ Hdone Hname Hdesc Hcreated Hdesc2 Hsend).
Qed.

End CalldataByRevision.

(** C5, amended.  In the revision that submits through
    [sendRawTransaction] the call data is selector-first: every
    estimation and every broadcast carries the selector followed by the
    encoded parameters without their [0x] and goes to the configured
    contract; an action whose create-call succeeded does estimate the
    request made of [0xc9a5fadf] (a request) or [0x9897934c] (an agent)
    and the encoding of its identifier and texts; the two selectors are
    four bytes; and the name-based encoder has no part in a cycle.  In
    [src/index.js] the submissions go through the contract object: every
    estimation and every broadcast of a cycle carries the transaction
    that ethers built by resolving [submitRequest] or [submitAgent] by
    name. *)
Theorem calldata_by_revision :
  (forall w selector paramTypes paramValues retries c,
      exists b c' tr,
        sendRawTransaction w selector paramTypes paramValues retries c
        = Some (Ok b, c', tr) /\
        Forall (selector_first w selector paramTypes paramValues) tr) /\
  (forall w depth taskData performed c title ca content cb id c1 tr1 encodedParams,
      is_done p_is_create_request taskData = false ->
      getRandomItem w TITLES c = Some (Ok title, ca, []) ->
      getRandomContent w ca = Some (Ok content, cb, []) ->
      created w depth (createRequest (endpoints (CONFIG w)))
        (BodyCreateRequest title content) cb id c1 tr1 ->
      w_abi_encode w ["uint256"; "string"] [VUint id; VString title]
      = Ok encodedParams ->
      exists p' c2 p t tl,
        Part000.requestTask w depth taskData performed c
        = Some (Ok p', c2,
                tr1 ++ EvSleep 2000
                  :: EvEstimateGas
                       (mkTxRequest (agentContract (CONFIG w))
                          ("0xc9a5fadf" +:+ slice 2 encodedParams)) p t
                  :: tl)) /\
  (forall w depth taskData performed c name ca description cb id c1 tr1
          agentDescription cd encodedParams,
      is_done p_is_create_agent taskData = false ->
      getRandomAgentName w c = Some (Ok name, ca, []) ->
      getRandomItem w AGENT_DESCRIPTIONS ca = Some (Ok description, cb, []) ->
      created w depth (createRepositories (endpoints (CONFIG w)))
        (BodyCreateAgent name description) cb id c1 tr1 ->
      getRandomItem w AGENT_DESCRIPTIONS c1 = Some (Ok agentDescription, cd, []) ->
      w_abi_encode w ["uint256"; "string"; "string"]
        [VUint id; VString name; VString agentDescription] = Ok encodedParams ->
      exists p' c2 p t tl,
        Part000.agentTask w depth taskData performed c
        = Some (Ok p', c2,
                tr1 ++ EvSleep 2000
                  :: EvEstimateGas
                       (mkTxRequest (agentContract (CONFIG w))
                          ("0x9897934c" +:+ slice 2 encodedParams)) p t
                  :: tl)) /\
  (forall w depth c r c' tr,
      Part000.runDailyTasks w depth c = Some (r, c', tr) ->
      Forall (task_calldata w) tr) /\
  (four_bytes FUNCTION_SELECTORS_SUBMIT_REQUEST /\
   four_bytes FUNCTION_SELECTORS_SUBMIT_AGENT) /\
  (forall w populate depth c,
      Part000.runDailyTasks (with_populate w populate) depth c
      = Part000.runDailyTasks w depth c) /\
  (forall w contractFunc args retries c res c' tr,
      sendTransactionWithRetry w contractFunc args retries c = Some (res, c', tr) ->
      Forall (name_resolved w contractFunc args) tr) /\
  (forall w depth c r c' tr,
      IndexJs.runDailyTasks w depth c = Some (r, c', tr) ->
      Forall (task_name_resolved w) tr).
Proof.
  split; [apply sendRawTransaction_selector_first|].
  split; [apply requestTask_submits|].
  split; [apply agentTask_submits|].
  split; [apply runDailyTasks_calldata|].
  split; [apply selectors_four_bytes|].
  split; [reflexivity|].
  split; [apply sendTransactionWithRetry_name_resolved|].
  apply legacy_runDailyTasks_name_resolved.
Qed.

(** C5, as stated, read on the cycle of [src/index.js]: its call data is
    not selector-first.  With an encoder of parameters that answers
    [0xabcdef] and a contract object that builds the data [0x00] for
    [submitRequest], the cycle estimates a request whose data is [0x00]
    and not [0xc9a5fadfabcdef]. *)
Lemma calldata_selector_first_fails_for_contract_calls :
  ~ (forall w depth c r c' tr,
        IndexJs.runDailyTasks w depth c = Some (r, c', tr) ->
        Forall (task_calldata w) tr).
Proof.
  intros H.
  assert (exists r c' e0 e1 e2 e3 p t tl,
            IndexJs.runDailyTasks scenario_world 0 newClient
            = Some (r, c',
                    e0 :: e1 :: e2 :: e3
                      :: EvEstimateGas (mkTxRequest "0xA9e17" "0x00") p t :: tl))
    as (r & c' & e0 & e1 & e2 & e3 & p & t & tl & Hrun).
  { eexists _, _, _, _, _, _, _, _, _. vm_compute. reflexivity. }
  apply H in Hrun.
  do 4 apply Forall_cons_1 in Hrun as [_ Hrun].
  apply Forall_cons_1 in Hrun as [Hev _].
  destruct Hev as [(pv & enc & Henc & Hdata & _)|(pv & enc & Henc & Hdata & _)];
    injection Henc as <-; discriminate Hdata.
Qed.

Lemma calldata_by_revision_witness :
  exists p' c2 tr1 p t tl,
    Part000.requestTask scenario_world 0
      (Some (mkPayload None None None false false None None)) 0
      (mkClient (Some "Bearer token-1") 3 0 3 0)
    = Some (Ok p', c2,
            tr1 ++ EvSleep 2000
              :: EvEstimateGas (mkTxRequest "0xA9e17" "0xc9a5fadfabcdef") p t :: tl).
Proof.
  edestruct (proj1 (proj2 calldata_by_revision) scenario_world 0%nat
               (Some (mkPayload None None None false false None None)) 0
               (mkClient (Some "Bearer token-1") 3 0 3 0))
    as (p' & c2 & p & t & tl & Hrun).
  - reflexivity.
  - vm_compute. reflexivity.
  - vm_compute. reflexivity.
  - eexists _, _. split; [vm_compute; reflexivity|]. split; reflexivity.
  - vm_compute. reflexivity.
  - eexists _, _, _, _, _, _. exact Hrun.
Defined.
